(** * basketball-bot: time-range parsing, slot matching, navigation and retry

    A shallow embedding of the court-booking bot.  The JavaScript sources
    are [src/parser.js] (class [MessageParser]) and three generations of
    the [CourtReserveBooker] class: the one of [src/booking.js], the one
    with centralised time matching ([unnamed/part_001], lines 1-740) and
    the one with session retry (same file, lines 741-1187).  Strings are
    sequences of UTF-16 code units, regular expressions are run by a
    backtracking matcher with the priorities of the JavaScript engine,
    and browser automation is modelled by explicit state passing over an
    abstract scheduling surface.  The announcements and the check command
    of [src/parser.js], the tables of [src/database.js] (as the lists of
    their rows) and the announcement handling of [src/index.js] follow
    the bookers. *)

From Stdlib Require Import NArith ZArith List String Ascii Bool Lia.
Import ListNotations.

Set Implicit Arguments.

Local Open Scope N_scope.

(* ================================================================== *)
(** * JavaScript strings *)
(* ================================================================== *)

Module JS.

(** A UTF-16 code unit. *)
Definition char := N.

(** A JavaScript string: its sequence of code units. *)
Definition jsstring := list char.

(** ASCII literal to JavaScript string. *)
Definition lit (s : string) : jsstring :=
  map N_of_ascii (list_ascii_of_string s).

Definition char_eqb (a b : char) : bool := N.eqb a b.

Fixpoint str_eqb (s t : jsstring) : bool :=
  match s, t with
  | [], [] => true
  | a :: s', b :: t' => char_eqb a b && str_eqb s' t'
  | _, _ => false
  end.

(** [s.startsWith(p)] *)
Fixpoint startsWith (s p : jsstring) : bool :=
  match p, s with
  | [], _ => true
  | b :: p', a :: s' => char_eqb a b && startsWith s' p'
  | _ :: _, [] => false
  end.

(** [s.includes(p)] *)
Fixpoint includes (s p : jsstring) : bool :=
  startsWith s p ||
  match s with
  | [] => false
  | _ :: s' => includes s' p
  end.

(** [s.substring(0, n)] for [0 <= n]. *)
Definition substring0 (n : nat) (s : jsstring) : jsstring := firstn n s.

(** [s.split(sep)] for a one-character separator. *)
Fixpoint split_on (sep : char) (s : jsstring) : list jsstring :=
  match s with
  | [] => [[]]
  | a :: s' =>
      if char_eqb a sep then [] :: split_on sep s'
      else match split_on sep s' with
           | [] => [[a]]
           | w :: ws => (a :: w) :: ws
           end
  end.

(** Truthiness of a string: the empty string is falsy. *)
Definition truthy (s : jsstring) : bool :=
  match s with [] => false | _ :: _ => true end.

(** [x || d] on strings, where [None] stands for [undefined]. *)
Definition or_default (x : option jsstring) (d : jsstring) : jsstring :=
  match x with
  | Some (a :: s) => a :: s
  | _ => d
  end.

(** ** Character classes of the regular-expression engine *)

Definition is_digit (c : char) : bool := (48 <=? c) && (c <=? 57).

Definition is_upper (c : char) : bool := (65 <=? c) && (c <=? 90).
Definition is_lower (c : char) : bool := (97 <=? c) && (c <=? 122).

(** [\w]: ASCII letters, digits and underscore. *)
Definition is_word (c : char) : bool :=
  is_digit c || is_upper c || is_lower c || (c =? 95).

(** [\s]: the WhiteSpace and LineTerminator code points. *)
Definition is_space (c : char) : bool :=
  existsb (N.eqb c)
    [9; 10; 11; 12; 13; 32; 160; 5760; 8232; 8233; 8239; 8287; 12288; 65279]
  || ((8192 <=? c) && (c <=? 8202)).

(** Case folding of the [i] flag (without [u]): only the ASCII letters
    fold onto the ASCII letters of a pattern. *)
Definition fold_case (c : char) : char :=
  if is_lower c then c - 32 else c.

(** A literal pattern character under the [i] flag. *)
Definition ci (a : char) : char -> bool :=
  fun c => char_eqb (fold_case c) (fold_case a).

(** A literal pattern character, case-sensitive. *)
Definition cs (a : char) : char -> bool := fun c => char_eqb c a.

(** ** Numbers and strings *)

Definition digit_val (c : char) : option Z :=
  if is_digit c then Some (Z.of_N (c - 48))
  else None.

Definition hex_val (c : char) : option Z :=
  if is_digit c then Some (Z.of_N (c - 48))
  else if (65 <=? c) && (c <=? 70) then Some (Z.of_N (c - 55))
  else if (97 <=? c) && (c <=? 102) then Some (Z.of_N (c - 87))
  else None.

(** Longest prefix of digits in the given radix, accumulated left to
    right; [None] when there is no digit at all. *)
Fixpoint parse_digits (val : char -> option Z) (radix : Z)
         (acc : option Z) (s : jsstring) : option Z :=
  match s with
  | [] => acc
  | c :: s' =>
      match val c with
      | Some d =>
          parse_digits val radix
            (Some (match acc with Some a => a * radix + d | None => d end)%Z) s'
      | None => acc
      end
  end.

Fixpoint skip_space (s : jsstring) : jsstring :=
  match s with
  | c :: s' => if is_space c then skip_space s' else s
  | [] => []
  end.

(** [parseInt(s)] with no radix argument; [None] is [NaN]. *)
Definition parseInt (s : jsstring) : option Z :=
  let s1 := skip_space s in
  let '(neg, s2) :=
    match s1 with
    | 45 :: t => (true, t)
    | 43 :: t => (false, t)
    | _ => (false, s1)
    end in
  let r :=
    match s2 with
    | 48 :: 120 :: t => parse_digits hex_val 16 None t
    | 48 :: 88 :: t => parse_digits hex_val 16 None t
    | _ => parse_digits digit_val 10 None s2
    end in
  match r with
  | Some n => Some (if neg then (- n)%Z else n)
  | None => None
  end.

Fixpoint digits_of (fuel : nat) (n : N) (acc : jsstring) : jsstring :=
  match fuel with
  | O => acc
  | S f =>
      let acc' := (48 + n mod 10) :: acc in
      if n <? 10 then acc' else digits_of f (n / 10) acc'
  end.

(** [n.toString()] for an integer [n]. *)
Definition toString (z : Z) : jsstring :=
  let n := Z.abs_N z in
  let ds := digits_of (S (N.size_nat n)) n [] in
  if (z <? 0)%Z then 45 :: ds else ds.

(** [s.padStart(n, '0')] *)
Definition padStart0 (n : nat) (s : jsstring) : jsstring :=
  repeat 48 (n - List.length s) ++ s.

End JS.

Import JS.

(* ================================================================== *)
(** * Regular expressions *)
(* ================================================================== *)

Module Regex.

(** The fragment of JavaScript regular expressions the sources use.
    [Star] is the greedy [*]; [Alt] tries its left branch first;
    [NotBehind] is a negative lookbehind over a fixed sequence of
    character classes, as in [(?<!to\s)]. *)
Inductive regex : Type :=
| Eps
| Chr (p : char -> bool)
| Seq (r1 r2 : regex)
| Alt (r1 r2 : regex)
| Star (r : regex)
| Group (n : nat) (r : regex)
| Bol
| Eol
| WordB
| NotBehind (ps : list (char -> bool)).

(** Greedy [r?], [r+] and literal strings. *)
Definition Opt (r : regex) : regex := Alt r Eps.
Definition Plus (r : regex) : regex := Seq r (Star r).

Fixpoint Str (f : char -> char -> bool) (s : jsstring) : regex :=
  match s with
  | [] => Eps
  | a :: s' => Seq (Chr (f a)) (Str f s')
  end.

Fixpoint seqs (rs : list regex) : regex :=
  match rs with
  | [] => Eps
  | [r] => r
  | r :: rs' => Seq r (seqs rs')
  end.

Definition captures := list (nat * jsstring).

(** A position in the subject string: the code units before it (nearest
    first), those after it, and the groups captured so far. *)
Record mstate : Type := MState {
  before : jsstring;
  rest : jsstring;
  caps : captures
}.

Fixpoint behind (qs : list (char -> bool)) (b : jsstring) : bool :=
  match qs, b with
  | [], _ => true
  | q :: qs', x :: b' => q x && behind qs' b'
  | _ :: _, [] => false
  end.

Definition word_at (s : jsstring) : bool :=
  match s with
  | c :: _ => is_word c
  | [] => false
  end.

Definition orelse {A} (x y : option A) : option A :=
  match x with
  | Some a => Some a
  | None => y
  end.

(** The greedy loop of [r*], [step] being the matcher of [r]: as many
    iterations as possible first, each one consuming at least one code
    unit (an empty iteration is rejected, as the language specifies), so
    the length of the input bounds their number. *)
Fixpoint star_loop (step : mstate -> (mstate -> option mstate) -> option mstate)
         (k : mstate -> option mstate) (fuel : nat) (st0 : mstate)
  {struct fuel} : option mstate :=
  match fuel with
  | O => k st0
  | S f =>
      orelse
        (step st0
           (fun st1 =>
              if (List.length (rest st1) <? List.length (rest st0))%nat
              then star_loop step k f st1 else None))
        (k st0)
  end.

(** Backtracking matcher in continuation-passing style: [k] is what must
    still match after [r]. *)
Fixpoint rmatch (r : regex) (st : mstate) (k : mstate -> option mstate)
  {struct r} : option mstate :=
  match r with
  | Eps => k st
  | Chr p =>
      match rest st with
      | c :: s' => if p c then k (MState (c :: before st) s' (caps st)) else None
      | [] => None
      end
  | Seq r1 r2 => rmatch r1 st (fun st1 => rmatch r2 st1 k)
  | Alt r1 r2 => orelse (rmatch r1 st k) (rmatch r2 st k)
  | Star r1 => star_loop (rmatch r1) k (List.length (rest st)) st
  | Group n r1 =>
      rmatch r1 st
        (fun st1 =>
           let w := firstn (List.length (rest st) - List.length (rest st1))
                           (rest st) in
           k (MState (before st1) (rest st1) ((n, w) :: caps st1)))
  | Bol => match before st with [] => k st | _ :: _ => None end
  | Eol => match rest st with [] => k st | _ :: _ => None end
  | WordB =>
      if xorb (word_at (before st)) (word_at (rest st)) then k st else None
  | NotBehind ps =>
      if behind (rev ps) (before st) then None else k st
  end.

(** Leftmost match: try every start position in turn. *)
Fixpoint search (r : regex) (b s : jsstring) : option mstate :=
  match rmatch r (MState b s []) Some with
  | Some st => Some st
  | None =>
      match s with
      | [] => None
      | c :: s' => search r (c :: b) s'
      end
  end.

(** [re.exec(s)] / [s.match(re)] for a regex without the [g] flag. *)
Definition exec (r : regex) (s : jsstring) : option captures :=
  option_map caps (search r [] s).

(** [re.test(s)] *)
Definition test (r : regex) (s : jsstring) : bool :=
  match search r [] s with
  | Some _ => true
  | None => false
  end.

(** [m[n]]: the most recent capture of group [n], [None] for
    [undefined]. *)
Fixpoint group (m : captures) (n : nat) : option jsstring :=
  match m with
  | [] => None
  | (i, w) :: m' => if Nat.eqb i n then Some w else group m' n
  end.

Definition digit : regex := Chr is_digit.
Definition space : regex := Chr is_space.

(** What a match is, without the priorities: [matches r b w a c c'] says
    that [r] matches the word [w] standing between the reversed left
    context [b] and the right context [a], turning the captures [c] into
    [c'].  The matcher only ever finds such matches
    (lemma [rmatch_sound]). *)
Inductive matches : regex -> jsstring -> jsstring -> jsstring ->
                    captures -> captures -> Prop :=
| M_Eps b a c : matches Eps b [] a c c
| M_Chr p x b a c : p x = true -> matches (Chr p) b [x] a c c
| M_Seq r1 r2 b w1 w2 a c c1 c2 :
    matches r1 b w1 (w2 ++ a) c c1 ->
    matches r2 (rev w1 ++ b) w2 a c1 c2 ->
    matches (Seq r1 r2) b (w1 ++ w2) a c c2
| M_AltL r1 r2 b w a c c1 :
    matches r1 b w a c c1 -> matches (Alt r1 r2) b w a c c1
| M_AltR r1 r2 b w a c c1 :
    matches r2 b w a c c1 -> matches (Alt r1 r2) b w a c c1
| M_StarNil r b a c : matches (Star r) b [] a c c
| M_StarStep r b w1 w2 a c c1 c2 :
    matches r b w1 (w2 ++ a) c c1 ->
    w1 <> [] ->
    matches (Star r) (rev w1 ++ b) w2 a c1 c2 ->
    matches (Star r) b (w1 ++ w2) a c c2
| M_Group n r b w a c c1 :
    matches r b w a c c1 -> matches (Group n r) b w a c ((n, w) :: c1)
| M_Bol a c : matches Bol [] [] a c c
| M_Eol b c : matches Eol b [] [] c c
| M_WordB b a c :
    xorb (word_at b) (word_at a) = true -> matches WordB b [] a c c
| M_NotBehind ps b a c :
    behind (rev ps) b = false -> matches (NotBehind ps) b [] a c c.

End Regex.

Import Regex.

Local Open Scope Z_scope.

(** A pattern character given as an ASCII literal. *)
Definition ch (a : ascii) : char := N_of_ascii a.

(** [s.toLowerCase()] on the ASCII range, which is all the parser applies
    it to (the capture of [[ap]] under the [i] flag). *)
Definition toLowerCase (s : jsstring) : jsstring :=
  map (fun c => if is_upper c then (c + 32)%N else c) s.

(* ================================================================== *)
(** * src/parser.js: class MessageParser *)
(* ================================================================== *)

Module MessageParser.

(** [\d{1,2}] and [\d{2}] *)
Definition d12 : regex := Seq digit (Opt digit).
Definition d2 : regex := Seq digit digit.

(** [/(\d{1,2})(?::(\d{2}))?\s*-\s*(\d{1,2})(?::(\d{2}))?\s*([ap])m?/i] *)
Definition timeRangeRegex : regex :=
  seqs [ Group 1 d12;
         Opt (Seq (Chr (ci (ch ":"))) (Group 2 d2));
         Star space;
         Chr (ci (ch "-"));
         Star space;
         Group 3 d12;
         Opt (Seq (Chr (ci (ch ":"))) (Group 4 d2));
         Star space;
         Group 5 (Chr (fun c => ci (ch "a") c || ci (ch "p") c));
         Opt (Chr (ci (ch "m"))) ].

(** [_to24h(hour12, period)] *)
Definition _to24h (hour12 : Z) (period : jsstring) : Z :=
  if str_eqb period (lit "a") then
    (if hour12 =? 12 then 0 else hour12)
  else
    (if hour12 =? 12 then 12 else hour12 + 12).

(** [_to12hLabel(hour24, min)] *)
Definition _to12hLabel (hour24 : Z) (min : jsstring) : jsstring :=
  let amPm := if hour24 >=? 12 then lit "PM" else lit "AM" in
  let hour12 := if hour24 =? 0 then 12
                else if hour24 >? 12 then hour24 - 12 else hour24 in
  toString hour12 ++ lit ":" ++ min ++ lit " " ++ amPm.

(** The local variables of [parseTimeRange] after the period flip. *)
Record TimeParts : Type := {
  startHour24 : Z;
  startMin : jsstring;
  endHour24 : Z;
  endMin : jsstring
}.

(** The object [parseTimeRange] returns. *)
Record TimeRange : Type := {
  startTime : jsstring;
  endTime : jsstring;
  startDisplay : jsstring;
  endDisplay : jsstring
}.

(** Lines 122-144 of [parseTimeRange]: the match, the five captures and
    the conversion to 24 hours.  [None] is the [null] of line 125.
    A group that took no part in the match is [undefined], which
    [parseInt] reads like the empty string.  Groups 1 and 3 are
    [\d{1,2}], so [parseInt] cannot yield [NaN] on them (lemma
    [timeParts_total_on_match]); the model maps that unreachable case to
    [None] as well. *)
Definition timeParts (timeString : jsstring) : option TimeParts :=
  match exec timeRangeRegex timeString with
  | None => None
  | Some m =>
      match parseInt (or_default (group m 1) []),
            parseInt (or_default (group m 3) []) with
      | Some startHour, Some endHour =>
          let startMin := or_default (group m 2) (lit "00") in
          let endMin := or_default (group m 4) (lit "00") in
          let period := toLowerCase (or_default (group m 5) []) in
          let endHour24 := _to24h endHour period in
          let startHour24 := _to24h startHour period in
          let startHour24 :=
            if startHour24 >=? endHour24 then
              let oppositePeriod :=
                if str_eqb period (lit "p") then lit "a" else lit "p" in
              _to24h startHour oppositePeriod
            else startHour24 in
          Some {| startHour24 := startHour24; startMin := startMin;
                  endHour24 := endHour24; endMin := endMin |}
      | _, _ => None
      end
  end.

(** Lines 146-151: the returned object. *)
Definition render (p : TimeParts) : TimeRange :=
  {| startTime := padStart0 2 (toString (startHour24 p)) ++ lit ":" ++ startMin p;
     endTime := padStart0 2 (toString (endHour24 p)) ++ lit ":" ++ endMin p;
     startDisplay := _to12hLabel (startHour24 p) (startMin p);
     endDisplay := _to12hLabel (endHour24 p) (endMin p) |}.

(** [parseTimeRange(timeString)] *)
Definition parseTimeRange (timeString : jsstring) : option TimeRange :=
  option_map render (timeParts timeString).

End MessageParser.

Import MessageParser.

(* ================================================================== *)
(** * The Date object *)
(* ================================================================== *)

(** Time values are milliseconds on the local civil time line (the zone
    offset is taken as constant, so comparing two local time values is
    comparing the instants).  The calendar is the proleptic Gregorian one
    of the language specification. *)
Module JSDate.

Definition msPerDay : Z := 86400000.

(** Day number (days since 1 January 1970) of a civil date, the month
    counted from 1. *)
Definition days_from_civil (y m d : Z) : Z :=
  let y' := if m <=? 2 then y - 1 else y in
  let era := y' / 400 in
  let yoe := y' - era * 400 in
  let doy := (153 * (if m >? 2 then m - 3 else m + 9) + 2) / 5 + d - 1 in
  let doe := yoe * 365 + yoe / 4 - yoe / 100 + doy in
  era * 146097 + doe - 719468.

(** Civil date (year, month from 1, day) of a day number. *)
Definition civil_from_days (z : Z) : Z * Z * Z :=
  let z' := z + 719468 in
  let era := z' / 146097 in
  let doe := z' - era * 146097 in
  let yoe := (doe - doe / 1460 + doe / 36524 - doe / 146096) / 365 in
  let doy := doe - (365 * yoe + yoe / 4 - yoe / 100) in
  let mp := (5 * doy + 2) / 153 in
  let d := doy - (153 * mp + 2) / 5 + 1 in
  let m := if mp <? 10 then mp + 3 else mp - 9 in
  ((if m <=? 2 then yoe + era * 400 + 1 else yoe + era * 400), m, d).

Definition Day (t : Z) : Z := t / msPerDay.
Definition TimeWithinDay (t : Z) : Z := t mod msPerDay.

(** [MakeDay(year, month, date)], the month counted from 0 and carried
    into the year when out of range. *)
Definition MakeDay (year month date : Z) : Z :=
  days_from_civil (year + month / 12) (month mod 12 + 1) 1 + date - 1.

Definition getFullYear (t : Z) : Z :=
  let '(y, _, _) := civil_from_days (Day t) in y.
Definition getMonth (t : Z) : Z :=
  let '(_, m, _) := civil_from_days (Day t) in m - 1.
Definition getDate (t : Z) : Z :=
  let '(_, _, d) := civil_from_days (Day t) in d.

(** [new Date(year, monthIndex, day)]: local midnight of that day; a
    year from 0 to 99 means 1900 + year. *)
Definition newDate (year month day : Z) : Z :=
  let year' := if (0 <=? year) && (year <=? 99) then 1900 + year else year in
  MakeDay year' month day * msPerDay.

(** [d.setFullYear(year)]: same month, day and time of day in another
    year. *)
Definition setFullYear (t : Z) (year : Z) : Z :=
  MakeDay year (getMonth t) (getDate t) * msPerDay + TimeWithinDay t.

(** [d.setHours(0,0,0,0)] *)
Definition startOfDay (t : Z) : Z := Day t * msPerDay.

(** A local date and time of day, for writing instants down. *)
Definition at_time (year month day hours minutes : Z) : Z :=
  newDate year month day + (hours * 60 + minutes) * 60000.

End JSDate.

Import JSDate.

Module DateResolver.

(** Lines 102-106 of [formatDateForBooking], with the clock reading
    [now] made a parameter. *)
Definition gameDateFor (now month day : Z) : Z :=
  let currentYear := getFullYear now in
  let gameDate := newDate currentYear (month - 1) day in
  if gameDate <? now
  then setFullYear gameDate (currentYear + 1)
  else gameDate.

(** [formatDateForBooking(dateString)] of [MessageParser].  [None] is
    the Invalid Date that results when either number is [NaN] or
    missing.  The time value is the one of the date arithmetic, without
    the final [TimeClip]: it is the code's as long as it stays within
    8.64e15 ms of the epoch, beyond which the code has an Invalid Date
    as well. *)
Definition formatDateForBooking (now : Z) (dateString : jsstring) : option Z :=
  match map parseInt (split_on (ch "/") dateString) with
  | Some month :: Some day :: _ => Some (gameDateFor now month day)
  | _ => None
  end.

End DateResolver.

Import DateResolver.

(* ================================================================== *)
(** * Control-flow helpers *)
(* ================================================================== *)

(** [for (const x of l) { ... }] whose body may [return]: the result is
    the first value returned, [None] when the loop runs to its end. *)
Fixpoint forOf {A R : Type} (body : A -> option R) (l : list A) : option R :=
  match l with
  | [] => None
  | x :: l' =>
      match body x with
      | Some r => Some r
      | None => forOf body l'
      end
  end.

(** The tri-state verdict, and ['error'] of the catch blocks. *)
Inductive SlotStatus : Type :=
| unavailable
| available
| unknown
| error (message : jsstring).

(** MONTH_NAMES *)
Definition MONTH_NAMES : list jsstring :=
  map lit ["January"; "February"; "March"; "April"; "May"; "June";
           "July"; "August"; "September"; "October"; "November";
           "December"]%string.

(* ================================================================== *)
(** * The scraped page of src/booking.js and of the retrying booker *)
(* ================================================================== *)

(** The first and the third [CourtReserveBooker] read the page inside
    [page.evaluate]: every "none available" marker with its three
    attribute strings (each [|| '']) and every reserve button with
    its two. *)
Module Page.

Record NoneAvailable : Type := {
  dataTime : jsstring;
  parentAriaLabel : jsstring;
  parentDataTime : jsstring
}.

Record ReserveButton : Type := {
  ariaLabel : jsstring;
  dataHref : jsstring
}.

Record Dom : Type := {
  noneAvailable : list NoneAvailable;
  reserveButtons : list ReserveButton
}.

(** The three regular expressions both classes build from the hour. *)
Section Patterns.
Variable targetHour24 : Z.

Definition displayHour : Z :=
  if targetHour24 >? 12 then targetHour24 - 12 else targetHour24.
Definition amPm : jsstring :=
  if targetHour24 >=? 12 then lit "PM" else lit "AM".

(** [new RegExp(`\\b${displayHour}:00 ${amPm}\\b`)] *)
Definition exactHourRegex : regex :=
  seqs [ WordB;
         Str cs (toString displayHour ++ lit ":00 " ++ amPm);
         WordB ].

(** [new RegExp(`%20${displayHour}:00%20${amPm}`)] *)
Definition exactHourUrlRegex : regex :=
  Str cs (lit "%20" ++ toString displayHour ++ lit ":00%20" ++ amPm).

(** [new RegExp(`%20${targetHour24}:00%20`)] *)
Definition exact24hUrlRegex : regex :=
  Str cs (lit "%20" ++ toString targetHour24 ++ lit ":00%20").

(** The condition of the first loop. *)
Definition noneAvailableMatches (slot : NoneAvailable) : bool :=
  test exactHourRegex (dataTime slot) ||
  test exactHourRegex (parentAriaLabel slot) ||
  test exactHourRegex (parentDataTime slot) ||
  test exactHourUrlRegex (dataTime slot) ||
  test exactHourUrlRegex (parentAriaLabel slot) ||
  test exactHourUrlRegex (parentDataTime slot).

(** The condition of the second loop. *)
Definition reserveButtonMatches (btn : ReserveButton) : bool :=
  test exactHourRegex (ariaLabel btn) ||
  test exactHourUrlRegex (dataHref btn) ||
  test exact24hUrlRegex (dataHref btn).

(** The body of the [page.evaluate] callback: two loops with early
    return, then ['unknown']. *)
Definition slotStatus (dom : Dom) : SlotStatus :=
  match forOf (fun slot => if noneAvailableMatches slot
                           then Some unavailable else None)
              (noneAvailable dom) with
  | Some r => r
  | None =>
      match forOf (fun btn => if reserveButtonMatches btn
                              then Some available else None)
                  (reserveButtons dom) with
      | Some r => r
      | None => unknown
      end
  end.
End Patterns.

End Page.

(** What [checkAvailability] hands back: the status and the label of the
    hour (the screenshot path is a constant of each return site). *)
Module Availability.
Record Outcome : Type := {
  status : SlotStatus;
  timeLabel : option jsstring
}.
End Availability.

(** [parseInt(timeRange.startTime.split(':')[0])]; [None] is [NaN]. *)
Definition startHourOf (timeRange : TimeRange) : option Z :=
  parseInt (nth 0 (split_on (ch ":") (startTime timeRange)) []).

(* ================================================================== *)
(** * src/booking.js: the first CourtReserveBooker *)
(* ================================================================== *)

Module BookingV1.

(** [checkAvailability(gameDate, timeRange)], lines 444-550, for the hour
    [startHour24] read off [timeRange.startTime].  [page] is what the
    browser steps of lines 448-472 lead to: the scheduler page, or the
    message of the error one of them throws. *)
Definition checkAvailability (page : jsstring + Page.Dom) (startHour24 : Z)
  : Availability.Outcome :=
  match page with
  | inl message => {| Availability.status := error message;
                      Availability.timeLabel := None |}
  | inr dom =>
      let timeLabel :=
        toString (Page.displayHour startHour24) ++ lit ":00 "
        ++ Page.amPm startHour24 in
      {| Availability.status := Page.slotStatus startHour24 dom;
         Availability.timeLabel := Some timeLabel |}
  end.

End BookingV1.

(* ================================================================== *)
(** * The second CourtReserveBooker (centralised time matching) *)
(* ================================================================== *)

Module BookingV2.

(** One entry of [_getAllSlotButtons], without the diagnostic fields
    [className], [tagName] and [allAttrs]. *)
Record SlotData : Type := {
  index : Z;
  ariaLabel : jsstring;
  dataHref : jsstring;
  href : jsstring;
  onclick : jsstring;
  text : jsstring;
  parentAriaLabel : jsstring;
  parentDataTime : jsstring;
  parentDataHref : jsstring
}.

(** One entry of [_getAllUnavailableSlots]. *)
Record UnavailData : Type := {
  u_dataTime : jsstring;
  u_parentAriaLabel : jsstring;
  u_parentDataTime : jsstring;
  u_text : jsstring
}.

(** A reserve button as it stands in the document: the attribute strings
    [_getAllSlotButtons] reads (each [|| '']) and its trimmed text. *)
Record SlotButton : Type := {
  b_ariaLabel : jsstring;
  b_dataHref : jsstring;
  b_href : jsstring;
  b_onclick : jsstring;
  b_text : jsstring;
  b_parentAriaLabel : jsstring;
  b_parentDataTime : jsstring;
  b_parentDataHref : jsstring
}.

Fixpoint scrape_from (i : Z) (buttons : list SlotButton) : list SlotData :=
  match buttons with
  | [] => []
  | btn :: buttons' =>
      {| index := i;
         ariaLabel := b_ariaLabel btn;
         dataHref := b_dataHref btn;
         href := b_href btn;
         onclick := b_onclick btn;
         text := substring0 100 (b_text btn);
         parentAriaLabel := b_parentAriaLabel btn;
         parentDataTime := b_parentDataTime btn;
         parentDataHref := b_parentDataHref btn |}
      :: scrape_from (i + 1) buttons'
  end.

(** [_getAllSlotButtons()]: [buttons.forEach((btn, index) => ...)] over
    the buttons of the document, in document order. *)
Definition _getAllSlotButtons (buttons : list SlotButton) : list SlotData :=
  scrape_from 0 buttons.

(** The object [_buildTimeMatchData] returns. *)
Record MatchData : Type := {
  startHour24 : Z;
  displayHour : Z;
  amPm : jsstring;
  startMin : jsstring;
  timeLabel : jsstring;
  urlDisplayPattern : regex;
  url24hPattern : regex;
  strictStartTimeRegex : regex;
  exactTimeRegex : regex
}.

(** The body of [_buildTimeMatchData] once [startHour24] and [startMin]
    are read.  The minute text is spliced into the four patterns as
    literal characters, which is what the template strings do for the
    digit strings the parser produces. *)
Definition buildTimeMatchData (startHour24 : Z) (startMin : jsstring)
  : MatchData :=
  let displayHour := if startHour24 =? 0 then 12
                     else if startHour24 >? 12 then startHour24 - 12
                     else startHour24 in
  let amPm := if startHour24 >=? 12 then lit "PM" else lit "AM" in
  let hm := toString displayHour ++ lit ":" ++ startMin in
  {| startHour24 := startHour24;
     displayHour := displayHour;
     amPm := amPm;
     startMin := startMin;
     timeLabel := hm ++ lit " " ++ amPm;
     (* /%20${displayHour}:${startMin}%20${amPm}/i *)
     urlDisplayPattern :=
       Str ci (lit "%20" ++ hm ++ lit "%20" ++ amPm);
     (* /%20${startHour24}:${startMin}(?:%20|&|$)/i *)
     url24hPattern :=
       seqs [ Str ci (lit "%20" ++ toString startHour24 ++ lit ":" ++ startMin);
              Alt (Str ci (lit "%20")) (Alt (Chr (ci (ch "&"))) Eol) ];
     (* /(?:^|[^\d])(?<!to\s)${displayHour}:${startMin}\s*${amPm}/i *)
     strictStartTimeRegex :=
       seqs [ Alt Bol (Chr (fun c => negb (is_digit c)));
              NotBehind [ci (ch "t"); ci (ch "o"); is_space];
              Str ci hm;
              Star space;
              Str ci amPm ];
     (* /^\s*${displayHour}:${startMin}\s*${amPm}\s*$/i *)
     exactTimeRegex :=
       seqs [ Bol; Star space; Str ci hm; Star space; Str ci amPm;
              Star space; Eol ] |}.

(** [_buildTimeMatchData(timeRange)]; [None] when the hour field of
    [timeRange.startTime] is not a number, which no parsed range is. *)
Definition _buildTimeMatchData (timeRange : TimeRange) : option MatchData :=
  let fields := split_on (ch ":") (startTime timeRange) in
  match parseInt (nth 0 fields []) with
  | Some startHour24 =>
      Some (buildTimeMatchData startHour24
              (or_default (nth_error fields 1) (lit "00")))
  | None => None
  end.

(** [_slotMatchesTime(slotData, matchData)] *)
Definition _slotMatchesTime (slotData : SlotData) (matchData : MatchData)
  : bool :=
  match forOf (fun urlToCheck =>
                 if negb (truthy urlToCheck) then None
                 else if test (urlDisplayPattern matchData) urlToCheck
                      then Some true
                 else if test (url24hPattern matchData) urlToCheck
                      then Some true
                 else None)
              [dataHref slotData; href slotData;
               parentDataHref slotData; onclick slotData] with
  | Some r => r
  | None =>
  match forOf (fun label =>
                 if negb (truthy label) then None
                 else if test (strictStartTimeRegex matchData) label
                      then Some true
                 else None)
              [ariaLabel slotData; parentAriaLabel slotData] with
  | Some r => r
  | None =>
      if truthy (parentDataTime slotData)
         && test (exactTimeRegex matchData) (parentDataTime slotData)
      then true
      else if truthy (text slotData)
              && test (strictStartTimeRegex matchData) (text slotData)
      then true
      else false
  end end.

(** [_unavailableMatchesTime(unavailData, matchData)] *)
Definition _unavailableMatchesTime (unavailData : UnavailData)
           (matchData : MatchData) : bool :=
  let dataTime := u_dataTime unavailData in
  let parentAriaLabel := u_parentAriaLabel unavailData in
  let parentDataTime := u_parentDataTime unavailData in
  if truthy dataTime && test (exactTimeRegex matchData) dataTime then true
  else if truthy parentDataTime
          && test (exactTimeRegex matchData) parentDataTime then true
  else if truthy parentAriaLabel
          && test (strictStartTimeRegex matchData) parentAriaLabel then true
  else
    match forOf (fun field =>
                   if negb (truthy field) then None
                   else if test (urlDisplayPattern matchData) field
                        then Some true
                   else if test (url24hPattern matchData) field
                        then Some true
                   else None)
                [dataTime; parentAriaLabel; parentDataTime] with
    | Some r => r
    | None => false
    end.

(** [arr.some(f)] *)
Definition some {A : Type} (f : A -> bool) (l : list A) : bool := existsb f l.

(** What the scheduler page shows once [_navigateToBookingPage] and
    [_scrollToTargetTime] are done. *)
Record Scheduler : Type := {
  buttons : list SlotButton;
  unavailableSlots : list UnavailData
}.

(** [checkAvailability(gameDate, timeRange)], lines 667-724, from the
    match data on.  [page] is the scheduler page the navigation reaches,
    or the message of the error a browser step throws. *)
Definition checkAvailability (page : jsstring + Scheduler)
           (matchData : MatchData) : Availability.Outcome :=
  match page with
  | inl message => {| Availability.status := error message;
                      Availability.timeLabel := None |}
  | inr sched =>
      let allSlots := _getAllSlotButtons (buttons sched) in
      let unavailableSlots := unavailableSlots sched in
      if some (fun s => _unavailableMatchesTime s matchData) unavailableSlots
      then {| Availability.status := unavailable;
              Availability.timeLabel := Some (timeLabel matchData) |}
      else if some (fun s => _slotMatchesTime s matchData) allSlots
      then {| Availability.status := available;
              Availability.timeLabel := Some (timeLabel matchData) |}
      else {| Availability.status := unknown;
              Availability.timeLabel := Some (timeLabel matchData) |}
  end.

(** Step 8 of [bookCourt], lines 520-528: the index of the button to
    click, [-1] when no slot matches. *)
Definition targetSlotIndex (allSlots : list SlotData) (matchData : MatchData)
  : Z :=
  match forOf (fun slot => if _slotMatchesTime slot matchData
                           then Some (index slot) else None) allSlots with
  | Some i => i
  | None => -1
  end.

(** What [bookCourt] does about the slot, steps 7 to 9. *)
Inductive SlotAction : Type :=
| AlreadyBooked (message : jsstring)
| NotFound (message : jsstring)
| Click (idx : Z) (button : option SlotButton).

(** Steps 6 to 9 of [bookCourt], lines 495-559.  Step 9 looks the index
    up again in the document ([buttons[idx]]) and clicks the button when
    there is one. *)
Definition bookCourt_slot (sched : Scheduler) (matchData : MatchData)
  : SlotAction :=
  let allSlots := _getAllSlotButtons (buttons sched) in
  let unavailableSlots := unavailableSlots sched in
  if some (fun s => _unavailableMatchesTime s matchData) unavailableSlots
  then AlreadyBooked (lit "The " ++ timeLabel matchData
                        ++ lit " slot is already fully booked")
  else
    let targetSlotIndex := targetSlotIndex allSlots matchData in
    if targetSlotIndex =? -1
    then NotFound (lit "Could not find time slot: " ++ timeLabel matchData)
    else Click targetSlotIndex
               (nth_error (buttons sched) (Z.to_nat targetSlotIndex)).

(** ** Navigation of the day view *)

(** [_buildDatePatterns(gameDate)] *)
Definition _buildDatePatterns (gameDate : Z) : list jsstring :=
  let day := toString (getDate gameDate) in
  let monthName := nth (Z.to_nat (getMonth gameDate)) MONTH_NAMES [] in
  let monthShort := substring0 3 monthName in
  let year := toString (getFullYear gameDate) in
  [ monthName ++ lit " " ++ day ++ lit ", " ++ year;
    monthName ++ lit " " ++ day ++ lit " " ++ year;
    monthShort ++ lit " " ++ day ++ lit ", " ++ year;
    monthName ++ lit " " ++ day ++ lit ",";
    monthShort ++ lit " " ++ day ++ lit "," ].

(** [_dateTextMatches(text, patterns)] *)
Definition _dateTextMatches (text : jsstring) (patterns : list jsstring)
  : bool :=
  some (fun p => includes text p) patterns.

(** [/(\w+)\s+(\d{1,2}),?\s+(\d{4})/] *)
Definition toolbarDateRegex : regex :=
  seqs [ Group 1 (Plus (Chr is_word));
         Plus space;
         Group 2 (Seq digit (Opt digit));
         Opt (Chr (cs (ch ",")));
         Plus space;
         Group 3 (seqs [digit; digit; digit; digit]) ].

(** [arr.findIndex(f)], [None] for [-1]. *)
Fixpoint findIndex {A : Type} (f : A -> bool) (l : list A) : option nat :=
  match l with
  | [] => None
  | x :: l' => if f x then Some O else option_map S (findIndex f l')
  end.

(** [_parseDateFromToolbar(text)]; [None] is [null]. *)
Definition _parseDateFromToolbar (text : jsstring) : option Z :=
  match exec toolbarDateRegex text with
  | Some m =>
      let m1 := or_default (group m 1) [] in
      match findIndex (fun n => startsWith n (substring0 3 m1)) MONTH_NAMES with
      | Some monthIdx =>
          match parseInt (or_default (group m 3) []),
                parseInt (or_default (group m 2) []) with
          | Some y, Some d => Some (newDate y (Z.of_nat monthIdx) d)
          | _, _ => None
          end
      | None => None
      end
  | None => None
  end.

Inductive Direction : Type := next | prev.

(** What one run of [_navigateSchedulerToDate] did: whether it returned
    from inside the loop (the "correct date" message) or after it (the
    "could not confirm" message), whether the loop was left by the
    [break] of a failed click, how many times the loop body ran, the
    arrows clicked, and the surface it leaves. *)
Record NavReport (S : Type) : Type := {
  confirmed : bool;
  clickFailed : bool;
  iterations : nat;
  clicks : list Direction;
  surface : S
}.

Section Navigate.
(** The remote scheduling surface: its states, the text of the toolbar
    ([_getSchedulerDateText], [''] when the read fails) and the effect
    of clicking an arrow and waiting, with [false] when that throws. *)
Variable S : Type.
Variable dateText : S -> jsstring.
Variable click : Direction -> S -> bool * S.

Variable gameDate : Z.

(** The [for (let attempts = 0; attempts < 90; attempts++)] loop of
    [_navigateSchedulerToDate], from the given value of [attempts] on.
    [fuel] bounds the number of evaluations of the loop test; [None]
    means it was not enough. *)
Fixpoint navigateFrom (fuel : nat) (attempts : Z) (n : nat)
         (log : list Direction) (s : S) : option (NavReport S) :=
  match fuel with
  | O => None
  | Datatypes.S fuel' =>
      if attempts <? 90 then
        let currentDateText := dateText s in
        if _dateTextMatches currentDateText (_buildDatePatterns gameDate)
        then Some {| confirmed := true; clickFailed := false;
                     iterations := Datatypes.S n;
                     clicks := log; surface := s |}
        else
          let currentDate := _parseDateFromToolbar currentDateText in
          let direction :=
            match currentDate with
            | None => next
            | Some d => if d <? gameDate then next else prev
            end in
          match click direction s with
          | (true, s') =>
              navigateFrom fuel' (attempts + 1) (Datatypes.S n)
                           (log ++ [direction]) s'
          | (false, s') =>
              Some {| confirmed := false; clickFailed := true;
                      iterations := Datatypes.S n;
                      clicks := log; surface := s' |}
          end
      else Some {| confirmed := false; clickFailed := false;
                   iterations := n;
                   clicks := log; surface := s |}
  end.

(** [_navigateSchedulerToDate(gameDate)] *)
Definition _navigateSchedulerToDate (fuel : nat) (s : S)
  : option (NavReport S) :=
  navigateFrom fuel 0 O [] s.
End Navigate.

End BookingV2.

(* ================================================================== *)
(** * The third CourtReserveBooker (session retry) *)
(* ================================================================== *)

Module BookingV3.

Definition MAX_RETRIES : Z := 2.

(** [_getSlotStatus(startHour24)], on the page it is evaluated in. *)
Definition _getSlotStatus (dom : Page.Dom) (startHour24 : Z) : SlotStatus :=
  Page.slotStatus startHour24 dom.

(** What [bookCourt] returns. *)
Record BookingOutcome : Type := {
  success : bool;
  alreadyBooked : bool;
  message : option jsstring;
  error_message : option jsstring
}.

(** ** The click loop of [_doBookCourt] *)

(** The awaited steps of the loop body, in their order: the two
    [getAttribute] calls; [scrollIntoViewIfNeeded] and the 300 ms wait;
    [click()]; the 2 s wait after [timeSlotClicked] is set. *)
Inductive Stage : Type :=
| Reading
| Scrolling
| Clicking
| Settling.

(** An element handle of [page.$$]: its two attributes (each [|| '']),
    and the step of the loop body that throws on it, if any (a
    Playwright action on a covered or detached element throws, and so
    does a wait on a closed page). *)
Record ElementHandle : Type := {
  ariaLabel : jsstring;
  dataHref : jsstring;
  throwsAt : option Stage
}.

(** What the loop did: the positions on which [click()] was called and
    those on which it completed, in order; [timeSlotClicked]; and the
    number of buttons the loop got to. *)
Record Scan : Type := {
  called : list nat;
  clicked : list nat;
  timeSlotClicked : bool;
  visited : nat
}.

Section ClickLoop.
Variable startHour24 : Z.

Definition timeLabel : jsstring :=
  toString (Page.displayHour startHour24) ++ lit ":00 "
  ++ Page.amPm startHour24.

(** [matchesTime] of lines 1044-1046. *)
Definition matchesTime (button : ElementHandle) : bool :=
  includes (ariaLabel button) timeLabel ||
  test (Page.exactHourUrlRegex startHour24) (dataHref button).

(** Lines 1036-1058, from the button of position [i] on.  The
    [try { ... } catch (e) {}] around the body makes a throw at any step
    fall through to the next button: before [click()] nothing has
    happened, at [click()] the call was made, and at the last wait the
    click has completed and [timeSlotClicked] is set, but the [break]
    is not reached. *)
Fixpoint clickLoop (i : nat) (reserveButtons : list ElementHandle) : Scan :=
  match reserveButtons with
  | [] => {| called := []; clicked := []; timeSlotClicked := false;
             visited := 0 |}
  | button :: rest =>
      let next := clickLoop (S i) rest in
      match throwsAt button with
      | Some Reading =>
          {| called := called next; clicked := clicked next;
             timeSlotClicked := timeSlotClicked next;
             visited := S (visited next) |}
      | throws =>
          if matchesTime button then
            match throws with
            | Some Clicking =>
                {| called := i :: called next; clicked := clicked next;
                   timeSlotClicked := timeSlotClicked next;
                   visited := S (visited next) |}
            | Some Settling =>
                {| called := i :: called next; clicked := i :: clicked next;
                   timeSlotClicked := true;
                   visited := S (visited next) |}
            | None =>
                {| called := [i]; clicked := [i]; timeSlotClicked := true;
                   visited := 1 |}
            | Some _ =>
                {| called := called next; clicked := clicked next;
                   timeSlotClicked := timeSlotClicked next;
                   visited := S (visited next) |}
            end
          else
            {| called := called next; clicked := clicked next;
               timeSlotClicked := timeSlotClicked next;
               visited := S (visited next) |}
      end
  end.
End ClickLoop.

(** ** The retry wrapper *)

(** Events of a run, for stating what happened in which order. *)
Inductive Event : Type :=
| Closed (browser : nat)
| Launched (browser : nat)
| Attempted (browser : option nat).

Section Retry.
(** Everything outside the booker object: the browser process and the
    remote site.  [env_launch] is [firefox.launch] with the context and
    the page, returning a fresh browser; [env_login] is [login];
    [env_close] is [browser.close()], whose error [close] swallows;
    [env_attempt] is one run of [_doBookCourt] or of
    [_doCheckAvailability] with the current value of [this.browser].
    Each of them either completes or throws an error with a message. *)
Variable E : Type.
Variable R : Type.
Variable env_launch : E -> (jsstring + nat) * E.
Variable env_login : nat -> E -> (jsstring + unit) * E.
Variable env_close : nat -> E -> E.
Variable env_attempt : option nat -> E -> (jsstring + R) * E.

Record Booker : Type := {
  browser : option nat;
  env : E;
  trace : list Event
}.

(** Computations on the booker that may throw. *)
Definition M (A : Type) : Type := Booker -> (jsstring + A) * Booker.

Definition ret {A} (a : A) : M A := fun w => (inr a, w).
Definition bind {A B} (m : M A) (f : A -> M B) : M B :=
  fun w => match m w with
           | (inr a, w') => f a w'
           | (inl e, w') => (inl e, w')
           end.
Definition try_catch {A} (m : M A) (handler : jsstring -> M A) : M A :=
  fun w => match m w with
           | (inr a, w') => (inr a, w')
           | (inl e, w') => handler e w'
           end.

(** [close()] *)
Definition close : M unit :=
  fun w =>
    match browser w with
    | Some b =>
        (inr tt, {| browser := None; env := env_close b (env w);
                    trace := trace w ++ [Closed b] |})
    | None => (inr tt, w)
    end.

(** [initialize()] *)
Definition initialize : M unit :=
  fun w =>
    match env_launch (env w) with
    | (inl e, env1) =>
        (inl e, {| browser := browser w; env := env1; trace := trace w |})
    | (inr b, env1) =>
        let '(r, env2) := env_login b env1 in
        (r, {| browser := Some b; env := env2;
               trace := trace w ++ [Launched b] |})
    end.

(** One run of [_doBookCourt] / [_doCheckAvailability]. *)
Definition attempt_once : M R :=
  fun w =>
    let '(r, env1) := env_attempt (browser w) (env w) in
    (r, {| browser := browser w; env := env1;
           trace := trace w ++ [Attempted (browser w)] |}).

(** How the final failure is reported: [{ success: false, error }] for
    a booking, [{ status: 'error', error }] for a check. *)
Variable failure : jsstring -> R.

(** The body of the retry loop for one value of [attempt]: [Some] is
    the value returned, [None] goes on to the next iteration.  The
    screenshot of the catch block sits in its own try block and has no
    bearing on the value. *)
Definition attempt_body (attempt : Z) : M (option R) :=
  try_catch
    (bind (if attempt >? 1
           then bind (try_catch close (fun _ => ret tt))
                     (fun _ => initialize)
           else ret tt)
          (fun _ => bind attempt_once (fun r => ret (Some r))))
    (fun message =>
       if attempt =? MAX_RETRIES then ret (Some (failure message))
       else ret None).

(** [for (let attempt = 1; attempt <= MAX_RETRIES; attempt++)] from the
    given [attempt] on.  The outer [None] means the fuel ran out; the
    inner one is the [undefined] of falling out of the loop. *)
Fixpoint retryFrom (fuel : nat) (attempt : Z) (w : Booker)
  : option ((jsstring + option R) * Booker) :=
  match fuel with
  | O => None
  | S fuel' =>
      if attempt <=? MAX_RETRIES then
        match attempt_body attempt w with
        | (inr (Some r), w') => Some (inr (Some r), w')
        | (inr None, w') => retryFrom fuel' (attempt + 1) w'
        | (inl e, w') => Some (inl e, w')
        end
      else Some (inr None, w)
  end.

(** [bookCourt] and [checkAvailability]: the loop from [attempt = 1]. *)
Definition retrying (fuel : nat) (w : Booker)
  : option ((jsstring + option R) * Booker) :=
  retryFrom fuel 1 w.
End Retry.

(** [{ success: false, error: error.message, ... }] *)
Definition bookingFailure (message : jsstring) : BookingOutcome :=
  {| success := false; alreadyBooked := false; message := None;
     error_message := Some message |}.

(** [{ status: 'error', error: error.message, ... }] *)
Definition checkFailure (message : jsstring) : Availability.Outcome :=
  {| Availability.status := error message; Availability.timeLabel := None |}.

Section Entry.
Variable E : Type.
Variable env_launch : E -> (jsstring + nat) * E.
Variable env_login : nat -> E -> (jsstring + unit) * E.
Variable env_close : nat -> E -> E.

(** [bookCourt(gameDate, timeRange, courtName)], where [_doBookCourt]
    says how one run of [_doBookCourt] on these arguments goes. *)
Definition bookCourt
           (_doBookCourt : option nat -> E -> (jsstring + BookingOutcome) * E)
  := retrying env_launch env_login env_close _doBookCourt bookingFailure.

(** [checkAvailability(gameDate, timeRange)] *)
Definition checkAvailability
           (_doCheckAvailability :
              option nat -> E -> (jsstring + Availability.Outcome) * E)
  := retrying env_launch env_login env_close _doCheckAvailability
              checkFailure.
End Entry.

End BookingV3.

(* ================================================================== *)
(** * src/parser.js: announcements and the check command *)
(* ================================================================== *)

Module Messages.

(** [s.trim()] *)
Definition trim (s : jsstring) : jsstring :=
  rev (skip_space (rev (skip_space s))).

(** The two code units of the police-light emoji that opens an
    announcement. *)
Definition siren : jsstring := [55357; 57000]%N.

(** [\d{1,2}\/\d{1,2}], [f] being [ci] under the [i] flag and [cs]
    without it. *)
Definition dateText (f : char -> char -> bool) : regex :=
  seqs [ d12; Chr (f (ch "/")); d12 ].

(** [\d{1,2}(?::\d{2})?\s*-\s*\d{1,2}(?::\d{2})?\s*[ap]m?] under the [i]
    flag: the pattern of [parseTimeRange] without its groups. *)
Definition timeText : regex :=
  seqs [ d12;
         Opt (Seq (Chr (ci (ch ":"))) d2);
         Star space;
         Chr (ci (ch "-"));
         Star space;
         d12;
         Opt (Seq (Chr (ci (ch ":"))) d2);
         Star space;
         Chr (fun c => ci (ch "a") c || ci (ch "p") c);
         Opt (Chr (ci (ch "m"))) ].

(** [[^\]]+] *)
Definition courtText : regex :=
  Plus (Chr (fun c => negb (ci (ch "]") c))).

(** [this.gameAnnouncementPattern]:
    the emoji, [\s*(date)\s+(\w+)\s+(time)\s*\[([^\]]+)\]], flag [i]. *)
Definition gameAnnouncementPattern : regex :=
  seqs [ Str ci siren;
         Star space;
         Group 1 (dateText ci);
         Plus space;
         Group 2 (Plus (Chr is_word));
         Plus space;
         Group 3 timeText;
         Star space;
         Chr (ci (ch "["));
         Group 4 courtText;
         Chr (ci (ch "]")) ].

(** [isGameAnnouncement(messageText)] *)
Definition isGameAnnouncement (messageText : jsstring) : bool :=
  startsWith messageText siren || includes messageText siren.

(** The object [parseGameAnnouncement] returns; [None] in a field is
    [null]. *)
Record GameInfo : Type := {
  date : jsstring;
  dayOfWeek : option jsstring;
  time : jsstring;
  courtName : option jsstring
}.

(** [parseGameAnnouncement(messageText)]; [None] is [null]. *)
Definition parseGameAnnouncement (messageText : jsstring) : option GameInfo :=
  match exec gameAnnouncementPattern messageText with
  | None =>
      let lines := split_on 10%N messageText in
      let firstLine := nth 0 lines [] in
      let dateMatch := exec (Group 1 (dateText cs)) firstLine in
      let timeMatch := exec (Group 1 timeText) firstLine in
      let courtMatch :=
        exec (seqs [Chr (cs (ch "[")); Group 1 (Plus (Chr (fun c => negb (cs (ch "]") c))));
                    Chr (cs (ch "]"))]) firstLine in
      match dateMatch, timeMatch with
      | Some dm, Some tm =>
          Some {| date := or_default (group dm 1) [];
                  dayOfWeek := None;
                  time := or_default (group tm 1) [];
                  courtName :=
                    match courtMatch with
                    | Some cm => Some (trim (or_default (group cm 1) []))
                    | None => None
                    end |}
      | _, _ => None
      end
  | Some m =>
      Some {| date := or_default (group m 1) [];
              dayOfWeek := Some (or_default (group m 2) []);
              time := or_default (group m 3) [];
              courtName := Some (trim (or_default (group m 4) [])) |}
  end.

(** [/^!check\s+(date)\s+(time)/i] *)
Definition checkCommandRegex : regex :=
  seqs [ Bol;
         Str ci (lit "!check");
         Plus space;
         Group 1 (dateText ci);
         Plus space;
         Group 2 timeText ].

(** [parseCheckCommand(messageText)]: the date and the time text. *)
Definition parseCheckCommand (messageText : jsstring)
  : option (jsstring * jsstring) :=
  let text := trim messageText in
  match exec checkCommandRegex text with
  | None => None
  | Some m => Some (or_default (group m 1) [], or_default (group m 2) [])
  end.

(** ** [parseGameMessage] *)

(** [/^\d+\/\d+$/], [/^\d{1,2}\/\d{1,2}/] and [/^\d+$/] *)
Definition countLineRegex : regex :=
  seqs [ Bol; Plus digit; Chr (cs (ch "/")); Plus digit; Eol ].
Definition lineDateRegex : regex :=
  seqs [ Bol; d12; Chr (cs (ch "/")); d12 ].
Definition digitsOnlyRegex : regex :=
  seqs [ Bol; Plus digit; Eol ].

(** [line.toLowerCase().includes('waitlist')].  The letters of
    "waitlist" come out of [toLowerCase] only from themselves and their
    ASCII capitals (and an i from U+0130, but followed by U+0307, which
    no i of "waitlist" is), so the ASCII map decides the test. *)
Definition mentionsWaitlist (line : jsstring) : bool :=
  includes (toLowerCase line) (lit "waitlist").

(** The variables of the loop of [parseGameMessage]. *)
Record Roster : Type := {
  playerLines : list jsstring;
  waitlistLines : list jsstring;
  isWaitlistSection : bool;
  countLine : option jsstring
}.

(** One turn of the loop body, lines 57-69. *)
Definition rosterStep (r : Roster) (line : jsstring) : Roster :=
  if negb (truthy line) then r
  else if test countLineRegex line then
    {| playerLines := playerLines r; waitlistLines := waitlistLines r;
       isWaitlistSection := isWaitlistSection r; countLine := Some line |}
  else if mentionsWaitlist line then
    {| playerLines := playerLines r; waitlistLines := waitlistLines r;
       isWaitlistSection := true; countLine := countLine r |}
  else if startsWith line siren || startsWith line (lit "[")
          || test lineDateRegex line then r
  else if isWaitlistSection r then
    {| playerLines := playerLines r;
       waitlistLines := waitlistLines r ++ [line];
       isWaitlistSection := true; countLine := countLine r |}
  else if (0 <? Z.of_nat (List.length line)) && negb (test digitsOnlyRegex line)
  then
    {| playerLines := playerLines r ++ [line];
       waitlistLines := waitlistLines r;
       isWaitlistSection := false; countLine := countLine r |}
  else r.

(** The loop [for (let i = 1; i < lines.length; i++)]. *)
Definition roster (lines : list jsstring) : Roster :=
  fold_left rosterStep (tl lines)
    {| playerLines := []; waitlistLines := [];
       isWaitlistSection := false; countLine := None |}.

(** [messageText.split('\n').map(line => line.trim()).filter(line => line)] *)
Definition messageLines (messageText : jsstring) : list jsstring :=
  filter truthy (map trim (split_on 10%N messageText)).

(** What [parseGameMessage] returns. *)
Record GameMessage : Type := {
  gameInfo : GameInfo;
  players : list jsstring;
  waitlist : list jsstring;
  playerCount : Z;
  lastCountLine : option jsstring
}.

(** [parseGameMessage(messageText)]; [lastCountLine] is the [countLine]
    of the returned object. *)
Definition parseGameMessage (messageText : jsstring) : option GameMessage :=
  match parseGameAnnouncement messageText with
  | None => None
  | Some info =>
      let r := roster (messageLines messageText) in
      Some {| gameInfo := info;
              players := playerLines r;
              waitlist := waitlistLines r;
              playerCount := Z.of_nat (List.length (playerLines r));
              lastCountLine := countLine r |}
  end.

End Messages.

(* ================================================================== *)
(** * src/booking.js: the day-by-day navigation of the first booker *)
(* ================================================================== *)

Module BookingV1Calendar.

(** The test of lines 109-115 of [_openAndNavigateCalendar]:
    [A || B || (C && D || E)].  [targetDateStr] is what
    [toLocaleDateString('en-US', { month: 'long', day: 'numeric',
    year: 'numeric' })] gives, as in "March 6, 2026". *)
Definition onTargetDate (gameDate : Z) (currentDateText : jsstring) : bool :=
  let targetMonthName := nth (Z.to_nat (getMonth gameDate)) MONTH_NAMES [] in
  let targetDay := toString (getDate gameDate) in
  let targetDateStr :=
    targetMonthName ++ lit " " ++ targetDay ++ lit ", "
    ++ toString (getFullYear gameDate) in
  includes currentDateText targetDateStr
  || includes currentDateText (targetMonthName ++ lit " " ++ targetDay)
  || (includes currentDateText (substring0 3 targetMonthName)
      && includes currentDateText (lit " " ++ targetDay ++ lit ",")
      || includes currentDateText (lit " " ++ targetDay ++ lit " ")).

Section Calendar.
(** The scheduling surface, as for the second booker: the toolbar text
    (the empty string when the read fails) and the click on the forward
    arrow with its wait, [false] when it throws. *)
Variable S : Type.
Variable dateText : S -> jsstring.
Variable clickNext : S -> bool * S.
Variable gameDate : Z.

(** The loop [for (let attempts = 0; attempts < 60; attempts++)], from
    the given value of [attempts] on; the report is that of the second
    booker's navigation. *)
Fixpoint calendarFrom (fuel : nat) (attempts : Z) (n : nat)
         (log : list BookingV2.Direction) (s : S)
  : option (BookingV2.NavReport S) :=
  match fuel with
  | O => None
  | Datatypes.S fuel' =>
      if attempts <? 60 then
        let currentDateText := dateText s in
        if onTargetDate gameDate currentDateText
        then Some {| BookingV2.confirmed := true;
                     BookingV2.clickFailed := false;
                     BookingV2.iterations := Datatypes.S n;
                     BookingV2.clicks := log; BookingV2.surface := s |}
        else
          match clickNext s with
          | (true, s') =>
              calendarFrom fuel' (attempts + 1) (Datatypes.S n)
                           (log ++ [BookingV2.next]) s'
          | (false, s') =>
              Some {| BookingV2.confirmed := false;
                      BookingV2.clickFailed := true;
                      BookingV2.iterations := Datatypes.S n;
                      BookingV2.clicks := log; BookingV2.surface := s' |}
          end
      else Some {| BookingV2.confirmed := false;
                   BookingV2.clickFailed := false;
                   BookingV2.iterations := n;
                   BookingV2.clicks := log; BookingV2.surface := s |}
  end.

(** [_openAndNavigateCalendar(gameDate)] *)
Definition _openAndNavigateCalendar (fuel : nat) (s : S)
  : option (BookingV2.NavReport S) :=
  calendarFrom fuel 0 O [] s.
End Calendar.

End BookingV1Calendar.

(* ================================================================== *)
(** * The third CourtReserveBooker: stepping to the date *)
(* ================================================================== *)

Module BookingV3Calendar.

(** [Math.round((target - today) / (1000 * 60 * 60 * 24))], both being
    set to their midnights: the number of days from today to the game
    date. *)
Definition daysDiff (now gameDate : Z) : Z :=
  (startOfDay gameDate - startOfDay now) / msPerDay.

(** What the stepping did when it returns: the clicks that went
    through, whether the loop was left by the [break] of a failed
    recovery, and the surface it leaves. *)
Record Steps (S : Type) : Type := {
  stepped : Z;
  gaveUp : bool;
  surface : S
}.

(** [_navigateToDate] returns, or an error leaves it. *)
Inductive Outcome (S : Type) : Type :=
| Thrown (s : S)
| Returned (r : Steps S).

Section Stepping.
(** [clickNext] is the click of line 865, [clickNextButton] the recovery
    click of line 879 and [waitForTimeout] the wait for the given number
    of milliseconds; [false] when the call throws. *)
Variable S : Type.
Variable clickNext : S -> bool * S.
Variable clickNextButton : S -> bool * S.
Variable waitForTimeout : Z -> S -> bool * S.

(** After the loop, line 889: the wait is outside every [try]; the
    read of the toolbar that follows catches its error and the rest
    only logs. *)
Definition afterLoop (n : Z) (gaveUp : bool) (s : S) : Outcome S :=
  match waitForTimeout 1000 s with
  | (true, s') =>
      Returned {| stepped := n; gaveUp := gaveUp; surface := s' |}
  | (false, s') => Thrown s'
  end.

(** The [catch] block of lines 875-885, [continue] being the next turn
    of the loop: the 2 s wait is outside the inner [try], so its error
    leaves the function; an error of the recovery click or of the wait
    after it leads to the [break]. *)
Definition recover (continue : Z -> S -> option (Outcome S))
           (n : Z) (s : S) : option (Outcome S) :=
  match waitForTimeout 2000 s with
  | (false, s1) => Some (Thrown s1)
  | (true, s1) =>
      match clickNextButton s1 with
      | (true, s2) =>
          match waitForTimeout 300 s2 with
          | (true, s3) => continue (n + 1) s3
          | (false, s3) => Some (afterLoop (n + 1) true s3)
          end
      | (false, s2) => Some (afterLoop n true s2)
      end
  end.

(** The loop [for (let i = 0; i < daysDiff; i++)] from the given [i]
    on; [n] counts the clicks that went through.  An error of the wait
    after the first click is caught like an error of the click. *)
Fixpoint stepFrom (fuel : nat) (i daysDiff : Z) (n : Z) (s : S)
  : option (Outcome S) :=
  match fuel with
  | O => None
  | Datatypes.S fuel' =>
      if i <? daysDiff then
        match clickNext s with
        | (true, s1) =>
            match waitForTimeout (if (i + 1) mod 7 =? 0 then 800 else 250)
                                 s1 with
            | (true, s2) => stepFrom fuel' (i + 1) daysDiff (n + 1) s2
            | (false, s2) =>
                recover (stepFrom fuel' (i + 1) daysDiff) (n + 1) s2
            end
        | (false, s1) => recover (stepFrom fuel' (i + 1) daysDiff) n s1
        end
      else Some (afterLoop n false s)
  end.

(** [_navigateToDate(gameDate)] from line 849 on, once the portal menu
    has led to the scheduler. *)
Definition _navigateToDate (fuel : nat) (now gameDate : Z) (s : S)
  : option (Outcome S) :=
  let daysDiff := daysDiff now gameDate in
  if daysDiff <=? 0
  then Some (Returned {| stepped := 0; gaveUp := false; surface := s |})
  else stepFrom fuel 0 daysDiff 0 s.
End Stepping.

End BookingV3Calendar.

(* ================================================================== *)
(** * src/database.js: class GameDatabase *)
(* ================================================================== *)

(** The three tables as the lists of their rows, in rowid order, without
    the time-stamp columns and the telephone number (which no statement
    of the class reads back or compares, [clearOldPendingGames] and the
    order of [getPlayers] apart; these two are not modelled).  The
    statements are modelled on their effect on the rows: the conflict
    clauses, the defaults of the columns and the foreign key of
    [players] and [waitlist].  Errors of the engine other than a
    violated constraint are not modelled. *)
Module GameDatabase.

Record Game : Type := {
  id : Z;
  game_date : jsstring;
  game_time : jsstring;
  court_name : option jsstring;
  announcement_msg_id : jsstring;
  player_count : Z;
  status : jsstring;
  booking_confirmed : Z
}.

Record Tables : Type := {
  games : list Game;
  players : list (Z * jsstring);
  waitlist : list (Z * jsstring)
}.

Section Statements.
(** Whether the connection enforces foreign keys; the text SQLite keeps
    of a bound string (strings are stored in UTF-8); and the rowid that
    [AUTOINCREMENT] gives the next row of [games]. *)
Variable foreign_keys : bool.
Variable text : jsstring -> jsstring.
Variable newRowid : list Game -> Z.

Definition withFields (g : Game) (gameDate gameTime : jsstring)
           (courtName : option jsstring) : Game :=
  {| id := id g; game_date := gameDate; game_time := gameTime;
     court_name := courtName;
     announcement_msg_id := announcement_msg_id g;
     player_count := player_count g; status := status g;
     booking_confirmed := booking_confirmed g |}.

(** [upsertGame(gameData)]: the id of the row and the tables after. *)
Definition upsertGame (t : Tables) (gameDate gameTime : jsstring)
           (courtName : option jsstring) (announcementMsgId : jsstring)
  : Z * Tables :=
  let same (g : Game) :=
    str_eqb (announcement_msg_id g) (text announcementMsgId) in
  match find same (games t) with
  | Some g =>
      (id g,
       {| games :=
            map (fun g' =>
                   if same g'
                   then withFields g' (text gameDate) (text gameTime)
                                   (option_map text courtName)
                   else g') (games t);
          players := players t; waitlist := waitlist t |})
  | None =>
      let i := newRowid (games t) in
      (i,
       {| games :=
            games t
            ++ [ {| id := i; game_date := text gameDate;
                    game_time := text gameTime;
                    court_name := option_map text courtName;
                    announcement_msg_id := text announcementMsgId;
                    player_count := 0; status := lit "pending";
                    booking_confirmed := 0 |} ];
          players := players t; waitlist := waitlist t |})
  end.

Definition sameRow (r1 r2 : Z * jsstring) : bool :=
  (fst r1 =? fst r2) && str_eqb (snd r1) (snd r2).

Definition gameExists (t : Tables) (gameId : Z) : bool :=
  existsb (fun g => id g =? gameId) (games t).

(** [INSERT ... ON CONFLICT(game_id, player_name) DO NOTHING] on a table
    with a foreign key to [games]: [None] when the statement throws. *)
Definition insertOrIgnore (t : Tables) (rows : list (Z * jsstring))
           (row : Z * jsstring) : option (list (Z * jsstring)) :=
  if existsb (sameRow row) rows then Some rows
  else if foreign_keys && negb (gameExists t (fst row)) then None
  else Some (rows ++ [row]).

Definition withCount (g : Game) (count : Z) : Game :=
  {| id := id g; game_date := game_date g; game_time := game_time g;
     court_name := court_name g;
     announcement_msg_id := announcement_msg_id g;
     player_count := count; status := status g;
     booking_confirmed := booking_confirmed g |}.

(** [SELECT COUNT( * ) FROM players WHERE game_id = ?] *)
Definition countPlayers (rows : list (Z * jsstring)) (gameId : Z) : Z :=
  Z.of_nat (List.length (filter (fun r => fst r =? gameId) rows)).

(** [updatePlayerCount(gameId)] *)
Definition updatePlayerCount (t : Tables) (gameId : Z) : Z * Tables :=
  let count := countPlayers (players t) gameId in
  (count,
   {| games := map (fun g => if id g =? gameId then withCount g count else g)
                   (games t);
      players := players t; waitlist := waitlist t |}).

(** [addPlayer(gameId, playerName)] *)
Definition addPlayer (t : Tables) (gameId : Z) (playerName : jsstring)
  : bool * Tables :=
  match insertOrIgnore t (players t)
          (gameId, text (Messages.trim playerName)) with
  | Some rows =>
      (true,
       snd (updatePlayerCount
              {| games := games t; players := rows; waitlist := waitlist t |}
              gameId))
  | None => (false, t)
  end.

(** [removePlayer(gameId, playerName)] *)
Definition removePlayer (t : Tables) (gameId : Z) (playerName : jsstring)
  : Tables :=
  snd (updatePlayerCount
         {| games := games t;
            players :=
              filter (fun r => negb (sameRow
                                       (gameId, text (Messages.trim playerName)) r))
                     (players t);
            waitlist := waitlist t |}
         gameId).

(** [getPlayerCount(gameId)] *)
Definition getPlayerCount (t : Tables) (gameId : Z) : Z :=
  match find (fun g => id g =? gameId) (games t) with
  | Some result => player_count result
  | None => 0
  end.

(** [getGameByMsgId(msgId)]; [None] is [undefined]. *)
Definition getGameByMsgId (t : Tables) (msgId : jsstring) : option Game :=
  find (fun g => str_eqb (announcement_msg_id g) (text msgId)) (games t).

(** [addToWaitlist(gameId, playerName)] *)
Definition addToWaitlist (t : Tables) (gameId : Z) (playerName : jsstring)
  : bool * Tables :=
  match insertOrIgnore t (waitlist t)
          (gameId, text (Messages.trim playerName)) with
  | Some rows =>
      (true, {| games := games t; players := players t; waitlist := rows |})
  | None => (false, t)
  end.

(** [confirmBooking(gameId)] and [markBooked(gameId)] *)
Definition confirmBooking (t : Tables) (gameId : Z) : Tables :=
  {| games :=
       map (fun g =>
              if id g =? gameId
              then {| id := id g; game_date := game_date g;
                      game_time := game_time g; court_name := court_name g;
                      announcement_msg_id := announcement_msg_id g;
                      player_count := player_count g;
                      status := lit "confirmed"; booking_confirmed := 1 |}
              else g) (games t);
     players := players t; waitlist := waitlist t |}.

Definition markBooked (t : Tables) (gameId : Z) : Tables :=
  {| games :=
       map (fun g =>
              if id g =? gameId
              then {| id := id g; game_date := game_date g;
                      game_time := game_time g; court_name := court_name g;
                      announcement_msg_id := announcement_msg_id g;
                      player_count := player_count g;
                      status := lit "booked";
                      booking_confirmed := booking_confirmed g |}
              else g) (games t);
     players := players t; waitlist := waitlist t |}.

(** [getPendingGames()], [threshold] being
    [parseInt(process.env.PLAYER_THRESHOLD || 10)]; with [NaN] no row
    passes the comparison. *)
Definition getPendingGames (threshold : option Z) (t : Tables) : list Game :=
  filter (fun g =>
            match threshold with
            | Some n => n <=? player_count g
            | None => false
            end
            && (booking_confirmed g =? 0)
            && str_eqb (status g) (lit "pending"))
         (games t).
End Statements.

End GameDatabase.

(* ================================================================== *)
(** * src/index.js: class BasketballBookingBot *)
(* ================================================================== *)

Module Bot.

(** The arguments of one call of [sendThresholdAlert]; the text it sends
    is built from them and from [getPlayers(gameId)]. *)
Record Alert : Type := {
  alertGame : Z;
  alertInfo : Messages.GameInfo;
  alertCount : Z
}.

(** The fields of the bot that the announcements touch: the database,
    the members of the set [alertedGames], and the alerts handed to
    [whatsapp.sendMessage], oldest first.  [sendMessage] catches the
    errors of the socket, so the call returns whether or not the text
    went out. *)
Record State : Type := {
  db : GameDatabase.Tables;
  alertedGames : list Z;
  alerts : list Alert
}.

Section Handlers.
Variable foreign_keys : bool.
Variable text : jsstring -> jsstring.
Variable newRowid : list GameDatabase.Game -> Z.
(** [this.PLAYER_THRESHOLD]; [None] is [NaN]. *)
Variable PLAYER_THRESHOLD : option Z.

Definition reached (count : Z) : bool :=
  match PLAYER_THRESHOLD with
  | Some n => n <=? count
  | None => false
  end.

(** [handleGameAnnouncement(messageId, messageText)] *)
Definition handleGameAnnouncement (bot : State)
           (messageId messageText : jsstring) : State :=
  match Messages.parseGameMessage messageText with
  | None => bot
  | Some parsed =>
      let gameInfo := Messages.gameInfo parsed in
      let '(gameId, t1) :=
        GameDatabase.upsertGame text newRowid (db bot)
          (Messages.date gameInfo) (Messages.time gameInfo)
          (Messages.courtName gameInfo) messageId in
      let t2 :=
        fold_left (fun t playerName =>
                     snd (GameDatabase.addPlayer foreign_keys text t gameId
                                                 playerName))
                  (Messages.players parsed) t1 in
      let t3 :=
        fold_left (fun t playerName =>
                     snd (GameDatabase.addToWaitlist foreign_keys text t gameId
                                                     playerName))
                  (Messages.waitlist parsed) t2 in
      let currentCount := GameDatabase.getPlayerCount t3 gameId in
      if reached currentCount
         && negb (existsb (Z.eqb gameId) (alertedGames bot))
      then {| db := t3;
              alertedGames := alertedGames bot ++ [gameId];
              alerts := alerts bot
                        ++ [ {| alertGame := gameId; alertInfo := gameInfo;
                                alertCount := currentCount |} ] |}
      else {| db := t3; alertedGames := alertedGames bot;
              alerts := alerts bot |}
  end.

(** The part of [handleGameAnnouncement] that runs before its first
    [await], which is the one of [sendMessage] inside
    [sendThresholdAlert]: the state it leaves, and the game whose alert
    has been handed to [sendMessage], if any; for that game
    [alertedGames.add] is still to come. *)
Definition beginAnnouncement (bot : State)
           (messageId messageText : jsstring) : State * option Z :=
  match Messages.parseGameMessage messageText with
  | None => (bot, None)
  | Some parsed =>
      let gameInfo := Messages.gameInfo parsed in
      let '(gameId, t1) :=
        GameDatabase.upsertGame text newRowid (db bot)
          (Messages.date gameInfo) (Messages.time gameInfo)
          (Messages.courtName gameInfo) messageId in
      let t2 :=
        fold_left (fun t playerName =>
                     snd (GameDatabase.addPlayer foreign_keys text t gameId
                                                 playerName))
                  (Messages.players parsed) t1 in
      let t3 :=
        fold_left (fun t playerName =>
                     snd (GameDatabase.addToWaitlist foreign_keys text t gameId
                                                     playerName))
                  (Messages.waitlist parsed) t2 in
      let currentCount := GameDatabase.getPlayerCount t3 gameId in
      if reached currentCount
         && negb (existsb (Z.eqb gameId) (alertedGames bot))
      then ({| db := t3; alertedGames := alertedGames bot;
               alerts := alerts bot
                         ++ [ {| alertGame := gameId; alertInfo := gameInfo;
                                 alertCount := currentCount |} ] |},
            Some gameId)
      else ({| db := t3; alertedGames := alertedGames bot;
               alerts := alerts bot |}, None)
  end.

(** The rest of the handler once the send has settled, line 91:
    [this.alertedGames.add(gameId)]. *)
Definition resumeAnnouncement (bot : State) (gameId : Z) : State :=
  {| db := db bot; alertedGames := alertedGames bot ++ [gameId];
     alerts := alerts bot |}.

(** Announcements, each with its message id, handled one after the
    other in the order they arrive, every handler run to its end before
    the next one starts, as the messages of one [messages.upsert] event
    are. *)
Definition handleAnnouncements (bot : State)
           (messages : list (jsstring * jsstring)) : State :=
  fold_left (fun b m => handleGameAnnouncement b (fst m) (snd m))
            messages bot.

(** [handleBookingConfirmation], lines 128-141: [performBooking] is what
    the booking of the game comes to.  The result is the game chosen, if
    any, and the database after. *)
Definition handleBookingConfirmation
           (performBooking : GameDatabase.Game -> bool)
           (t : GameDatabase.Tables)
  : option GameDatabase.Game * GameDatabase.Tables :=
  match GameDatabase.getPendingGames PLAYER_THRESHOLD t with
  | [] => (None, t)
  | game :: _ =>
      let t1 := GameDatabase.confirmBooking t (GameDatabase.id game) in
      (Some game,
       if performBooking game
       then GameDatabase.markBooked t1 (GameDatabase.id game)
       else t1)
  end.
End Handlers.

(** The bot as its constructor leaves it, on the database it opens. *)
Definition started (t : GameDatabase.Tables) : State :=
  {| db := t; alertedGames := []; alerts := [] |}.

(** ** Handlers that overlap *)

(** The listener starts a handler for every [messages.upsert] event
    without waiting for the one before, so a handler that is suspended
    at its [await] can be overtaken.  A run is a sequence of actions:
    an announcement arrives and its handler runs up to its [await], or
    the [k]-th of the suspended handlers resumes. *)
Inductive Action : Type :=
| Deliver (messageId messageText : jsstring)
| Resume (k : nat).

(** The bot with the games of its suspended handlers, oldest first. *)
Record Running : Type := {
  state : State;
  suspended : list Z
}.

Section Interleaving.
Variable foreign_keys : bool.
Variable text : jsstring -> jsstring.
Variable newRowid : list GameDatabase.Game -> Z.
Variable PLAYER_THRESHOLD : option Z.

Definition act (r : Running) (a : Action) : Running :=
  match a with
  | Deliver messageId messageText =>
      let '(bot, sent) :=
        beginAnnouncement foreign_keys text newRowid PLAYER_THRESHOLD
                          (state r) messageId messageText in
      {| state := bot;
         suspended := suspended r
                      ++ match sent with
                         | Some gameId => [gameId]
                         | None => []
                         end |}
  | Resume k =>
      match nth_error (suspended r) k with
      | Some gameId =>
          {| state := resumeAnnouncement (state r) gameId;
             suspended := firstn k (suspended r)
                          ++ skipn (S k) (suspended r) |}
      | None => r
      end
  end.

Definition interleave (r : Running) (actions : list Action) : Running :=
  fold_left act actions r.
End Interleaving.

(** The bot after its start, no handler suspended. *)
Definition idle (bot : State) : Running :=
  {| state := bot; suspended := [] |}.

End Bot.

Unset Implicit Arguments.

(* ================================================================== *)
(** * Vocabulary of the statements, and the pages they are tried on *)
(* ================================================================== *)

(** The property of a matcher that [rmatch_sound] states of [rmatch r]. *)
Definition sound_for (r : regex)
           (step : mstate -> (mstate -> option mstate) -> option mstate)
  : Prop :=
  forall st k res,
    step st k = Some res ->
    exists w a c',
      rest st = w ++ a
      /\ matches r (before st) w a (caps st) c'
      /\ k (MState (rev w ++ before st) a c') = Some res.

(** The text "H1-H2" followed by a period marker. *)
Definition hourRange (h1 h2 : Z) (marker : string) : jsstring :=
  toString h1 ++ lit "-" ++ toString h2 ++ lit marker.

(** The hours of the 12-hour dial. *)
Definition clockHours : list Z := [1; 2; 3; 4; 5; 6; 7; 8; 9; 10; 11; 12].

(** What is checked of one pair of hours: with a trailing "p" the start
    is before the end; with a trailing "a" it is so exactly when it is so
    on the 12-hour dial with 12 read as 0, and otherwise the start lands
    in the afternoon and the end in the morning. *)
Definition order_check (h1 h2 : Z) : bool :=
  match timeParts (hourRange h1 h2 "p"), timeParts (hourRange h1 h2 "a") with
  | Some p, Some q =>
      (startHour24 p <? endHour24 p)
      && (if h1 mod 12 <? h2 mod 12
          then startHour24 q <? endHour24 q
          else (endHour24 q <? 12) && (12 <=? startHour24 q))
  | _, _ => false
  end.

(** What is checked of one pair of hours with a marker on each: none of
    the sixteen texts "H1<marker>-H2<marker>" parses. *)
Definition twoMarkers_check (h1 h2 : Z) : bool :=
  forallb
    (fun m1 =>
       forallb
         (fun m2 =>
            match parseTimeRange
                    (toString h1 ++ lit m1 ++ lit "-" ++ toString h2 ++ lit m2)
            with
            | None => true
            | Some _ => false
            end)
         ["a"; "p"; "am"; "pm"]%string)
    ["a"; "p"; "am"; "pm"]%string.

(** Patterns without a capture group. *)
Fixpoint no_groups (r : regex) : bool :=
  match r with
  | Seq r1 r2 | Alt r1 r2 => no_groups r1 && no_groups r2
  | Star r1 => no_groups r1
  | Group _ _ => false
  | _ => true
  end.

(** One or two digits, and exactly two. *)
Definition digits12 (s : jsstring) : bool :=
  match s with
  | [x] => is_digit x
  | [x; y] => is_digit x && is_digit y
  | _ => false
  end.

Definition digits2 (s : jsstring) : bool :=
  match s with
  | [x; y] => is_digit x && is_digit y
  | _ => false
  end.

Definition decimalDigits : list char :=
  [48; 49; 50; 51; 52; 53; 54; 55; 56; 57]%N.

(** [parseInt] of one or two digits is their value, between 0 and 99. *)
Definition hour_numeral_check (g : jsstring) : bool :=
  match parseInt g with
  | Some n => (0 <=? n) && (n <=? 99)
  | None => false
  end.

(** The hours a parsed range can have, and what is checked of each: the
    padded hour field has no colon and [parseInt] reads it back. *)
Definition hoursParsed : list Z := map Z.of_nat (seq 0 112).

Definition hour_field_check (h : Z) : bool :=
  match parseInt (padStart0 2 (toString h)) with
  | Some h' => h' =? h
  | None => false
  end
  && forallb (fun c => negb (char_eqb c (ch ":"))) (padStart0 2 (toString h)).

(** The data-model invariant of a time range, as the specification words
    it: hours from 0 to 23, minutes two characters from "00" to "59". *)
Definition minute_ok (s : jsstring) : bool :=
  match s with
  | [x; y] => (48 <=? x)%N && (x <=? 53)%N && is_digit y
  | _ => false
  end.

Definition timeRange_invariant (p : TimeParts) : Prop :=
  0 <= startHour24 p <= 23 /\ 0 <= endHour24 p <= 23
  /\ minute_ok (startMin p) = true /\ minute_ok (endMin p) = true.

(** What "9:30-11p" parses to. *)
Definition range_9_30_to_11 : TimeRange :=
  {| startTime := lit "21:30"; endTime := lit "23:00";
     startDisplay := lit "9:30 PM"; endDisplay := lit "11:00 PM" |}.

(** The label the comment of [_unavailableMatchesTime] quotes. *)
Definition rangeLabel : jsstring :=
  lit "null on Friday, March 6, 2026 at 9:00 PM to 10:00 PM".

(** A page whose only marker sits in the 9 PM row, seen through that
    label alone. *)
Definition bookedAtNine : Page.Dom :=
  {| Page.noneAvailable :=
       [ {| Page.dataTime := []; Page.parentAriaLabel := rangeLabel;
            Page.parentDataTime := [] |} ];
     Page.reserveButtons := [] |}.

Definition bookedAtNineV2 : BookingV2.Scheduler :=
  {| BookingV2.buttons := [];
     BookingV2.unavailableSlots :=
       [ {| BookingV2.u_dataTime := [];
            BookingV2.u_parentAriaLabel := rangeLabel;
            BookingV2.u_parentDataTime := [];
            BookingV2.u_text := lit "NONE AVAILABLE" |} ] |}.

(** The display label of an hour, the label of the row that starts at
    it, and a marker seen through that label alone. *)
Definition labelOfHour (h : Z) : jsstring :=
  BookingV2.timeLabel (BookingV2.buildTimeMatchData h (lit "00")).

Definition rowLabel (h : Z) : jsstring :=
  lit "null on Friday, March 6, 2026 at " ++ labelOfHour h
  ++ lit " to " ++ labelOfHour (h + 1).

Definition markerInRow (h : Z) : BookingV2.UnavailData :=
  {| BookingV2.u_dataTime := [];
     BookingV2.u_parentAriaLabel := rowLabel h;
     BookingV2.u_parentDataTime := [];
     BookingV2.u_text := lit "NONE AVAILABLE" |}.

(** The hours 0 to 23. *)
Definition hoursOfDay : list Z := map Z.of_nat (seq 0 24).

(** The label part of the strict start-time pattern:
    [${displayHour}:${startMin}\s*${amPm}]. *)
Definition labelPattern (m : BookingV2.MatchData) : regex :=
  seqs [ Str ci (toString (BookingV2.displayHour m) ++ lit ":"
                 ++ BookingV2.startMin m);
         Star space;
         Str ci (BookingV2.amPm m) ].

(** [i] is the position of the first element of [l] that satisfies
    [f]. *)
Definition first_at {A : Type} (f : A -> bool) (l : list A) (i : nat) : Prop :=
  (exists x, nth_error l i = Some x /\ f x = true)
  /\ forall j y, (j < i)%nat -> nth_error l j = Some y -> f y = false.

(** How many runs of the attempt a trace records. *)
Definition attemptsIn (t : list BookingV3.Event) : nat :=
  List.length
    (filter (fun ev => match ev with
                       | BookingV3.Attempted _ => true
                       | _ => false
                       end) t).

(** The retry policy of one entry point: [run] is [bookCourt] or
    [checkAvailability] with its attempt fixed, [attempt] that attempt
    and [failure] the shape of the reported failure. *)
Definition two_attempts_policy (E : Type)
           (env_launch : E -> (jsstring + nat) * E)
           (env_login : nat -> E -> (jsstring + unit) * E)
           (env_close : nat -> E -> E)
           (R : Type)
           (run : nat -> BookingV3.Booker E ->
                  option ((jsstring + option R) * BookingV3.Booker E))
           (attempt : option nat -> E -> (jsstring + R) * E)
           (failure : jsstring -> R) : Prop :=
  (* it always returns a value, after one or two runs of the attempt *)
  (forall fuel w,
      exists r w',
        run (3 + fuel)%nat w = Some (inr (Some r), w')
        /\ run 3%nat w = Some (inr (Some r), w')
        /\ (attemptsIn (BookingV3.trace w) + 1
            <= attemptsIn (BookingV3.trace w')
            <= attemptsIn (BookingV3.trace w) + 2)%nat)
  (* a first attempt that returns is the result *)
  /\ (forall fuel b e t r e1,
         attempt b e = (inr r, e1) ->
         run (1 + fuel)%nat
             {| BookingV3.browser := b; BookingV3.env := e;
                BookingV3.trace := t |}
         = Some (inr (Some r),
                 {| BookingV3.browser := b; BookingV3.env := e1;
                    BookingV3.trace := t ++ [BookingV3.Attempted b] |}))
  (* a first attempt that throws is followed by close, initialize and
     the second attempt on the new browser, which decides *)
  /\ (forall fuel b0 e t m1 e1 b1 e2 e3 res e4,
         attempt (Some b0) e = (inl m1, e1) ->
         env_launch (env_close b0 e1) = (inr b1, e2) ->
         env_login b1 e2 = (inr tt, e3) ->
         attempt (Some b1) e3 = (res, e4) ->
         run (2 + fuel)%nat
             {| BookingV3.browser := Some b0; BookingV3.env := e;
                BookingV3.trace := t |}
         = Some (inr (Some (match res with
                            | inr r => r
                            | inl m2 => failure m2
                            end)),
                 {| BookingV3.browser := Some b1; BookingV3.env := e4;
                    BookingV3.trace :=
                      t ++ [BookingV3.Attempted (Some b0);
                            BookingV3.Closed b0;
                            BookingV3.Launched b1;
                            BookingV3.Attempted (Some b1)] |})).

(** A site whose first booking attempt loses the page and whose second
    one books; the environment counts the attempts. *)
Definition booked : BookingV3.BookingOutcome :=
  {| BookingV3.success := true; BookingV3.alreadyBooked := false;
     BookingV3.message := None; BookingV3.error_message := None |}.

Definition flakyBook (b : option nat) (n : nat)
  : (jsstring + BookingV3.BookingOutcome) * nat :=
  (match n with
   | O => inl (lit "Target page, context or browser has been closed")
   | S _ => inr booked
   end, S n).

Definition neverChecks (b : option nat) (n : nat)
  : (jsstring + Availability.Outcome) * nat :=
  (inl (lit "Timeout 30000ms exceeded"), S n).

(** A site on which no booking attempt completes: the first one loses
    the page, every later one times out. *)
Definition neverBooks (b : option nat) (n : nat)
  : (jsstring + BookingV3.BookingOutcome) * nat :=
  (match n with
   | O => inl (lit "Target page, context or browser has been closed")
   | S _ => inl (lit "Timeout 30000ms exceeded")
   end, S n).

(** Two reserve buttons of the 9 PM row, the first one covered by an
    overlay so that its click throws. *)
Definition coveredThenFree : list BookingV3.ElementHandle :=
  [ {| BookingV3.ariaLabel := lit "Reserve Court 1 at 9:00 PM";
       BookingV3.dataHref := [];
       BookingV3.throwsAt := Some BookingV3.Clicking |};
    {| BookingV3.ariaLabel := lit "Reserve Court 2 at 9:00 PM";
       BookingV3.dataHref := [];
       BookingV3.throwsAt := None |} ].

(** The same two buttons when the click on the first goes through and
    the wait after it throws, and when the first cannot be scrolled into
    view. *)
Definition clickedThenFree : list BookingV3.ElementHandle :=
  [ {| BookingV3.ariaLabel := lit "Reserve Court 1 at 9:00 PM";
       BookingV3.dataHref := [];
       BookingV3.throwsAt := Some BookingV3.Settling |};
    {| BookingV3.ariaLabel := lit "Reserve Court 2 at 9:00 PM";
       BookingV3.dataHref := [];
       BookingV3.throwsAt := None |} ].

Definition hiddenThenFree : list BookingV3.ElementHandle :=
  [ {| BookingV3.ariaLabel := lit "Reserve Court 1 at 9:00 PM";
       BookingV3.dataHref := [];
       BookingV3.throwsAt := Some BookingV3.Scrolling |};
    {| BookingV3.ariaLabel := lit "Reserve Court 2 at 9:00 PM";
       BookingV3.dataHref := [];
       BookingV3.throwsAt := None |};
    {| BookingV3.ariaLabel := lit "Reserve Court 3 at 9:00 PM";
       BookingV3.dataHref := [];
       BookingV3.throwsAt := None |} ].

(** What the loop body finds of a button: that it is a match (its
    attributes are read and match the hour), that [click()] is called on
    it, that the click completes, and that the whole body completes, so
    that the [break] is reached. *)
Definition found (h : Z) (b : BookingV3.ElementHandle) : bool :=
  match BookingV3.throwsAt b with
  | Some BookingV3.Reading => false
  | _ => BookingV3.matchesTime h b
  end.

Definition clickCalled (h : Z) (b : BookingV3.ElementHandle) : bool :=
  found h b
  && match BookingV3.throwsAt b with
     | Some BookingV3.Scrolling => false
     | _ => true
     end.

Definition clickCompleted (h : Z) (b : BookingV3.ElementHandle) : bool :=
  found h b
  && match BookingV3.throwsAt b with
     | Some BookingV3.Settling | None => true
     | _ => false
     end.

Definition bodyCompleted (h : Z) (b : BookingV3.ElementHandle) : bool :=
  found h b
  && match BookingV3.throwsAt b with
     | None => true
     | _ => false
     end.

(** The positions, counted from [i], of the elements that satisfy
    [f]. *)
Fixpoint positions {A : Type} (f : A -> bool) (i : nat) (l : list A)
  : list nat :=
  match l with
  | [] => []
  | x :: l' => if f x then i :: positions f (S i) l' else positions f (S i) l'
  end.

(** The same row as the second booker scrapes it. *)
Definition twoCourts : BookingV2.Scheduler :=
  {| BookingV2.buttons :=
       [ {| BookingV2.b_ariaLabel := lit "Reserve Court 1 at 9:00 PM";
            BookingV2.b_dataHref := []; BookingV2.b_href := [];
            BookingV2.b_onclick := []; BookingV2.b_text := lit "Reserve";
            BookingV2.b_parentAriaLabel := [];
            BookingV2.b_parentDataTime := [];
            BookingV2.b_parentDataHref := [] |};
         {| BookingV2.b_ariaLabel := lit "Reserve Court 2 at 9:00 PM";
            BookingV2.b_dataHref := []; BookingV2.b_href := [];
            BookingV2.b_onclick := []; BookingV2.b_text := lit "Reserve";
            BookingV2.b_parentAriaLabel := [];
            BookingV2.b_parentDataTime := [];
            BookingV2.b_parentDataHref := [] |} ];
     BookingV2.unavailableSlots := [] |}.

(* ================================================================== *)
(** * More of the matcher's vocabulary *)
(* ================================================================== *)

(** A pattern with its capture groups taken away. *)
Fixpoint strip (r : regex) : regex :=
  match r with
  | Seq r1 r2 => Seq (strip r1) (strip r2)
  | Alt r1 r2 => Alt (strip r1) (strip r2)
  | Star r1 => Star (strip r1)
  | Group _ r1 => strip r1
  | _ => r
  end.

(** Patterns whose matches do not look at what surrounds them: no
    anchor, word boundary or lookbehind. *)
Fixpoint context_free (r : regex) : bool :=
  match r with
  | Seq r1 r2 | Alt r1 r2 => context_free r1 && context_free r2
  | Star r1 | Group _ r1 => context_free r1
  | Bol | Eol | WordB | NotBehind _ => false
  | _ => true
  end.

Definition succeeds {A} (x : option A) : Prop := exists a, x = Some a.

(** [rmatch r] finds a match whenever there is one that the rest of the
    pattern, [k], accepts. *)
Definition complete_for (r : regex) : Prop :=
  forall b w a c c' k,
    matches r b w a c c' ->
    succeeds (k (MState (rev w ++ b) a c')) ->
    succeeds (rmatch r (MState b (w ++ a) c) k).

Definition regroups (r : regex) : Prop :=
  forall b w a c c',
    matches (strip r) b w a c c' ->
    forall b' a' d, exists d', matches r b' w a' d d'.


(** ** What [parseGameMessage] keeps of the lines *)

(** The lines before the first one that mentions a waitlist, and those
    after it. *)
Fixpoint beforeWaitlist (lines : list jsstring) : list jsstring :=
  match lines with
  | [] => []
  | l :: ls => if Messages.mentionsWaitlist l then [] else l :: beforeWaitlist ls
  end.

Fixpoint afterWaitlist (lines : list jsstring) : list jsstring :=
  match lines with
  | [] => []
  | l :: ls => if Messages.mentionsWaitlist l then ls else afterWaitlist ls
  end.

(** Lines that are set aside wherever they stand: empty ones, counts
    such as 7/10, and lines opening with the emoji, a bracket or a
    date. *)
Definition setAside (l : jsstring) : bool :=
  negb (truthy l)
  || test Messages.countLineRegex l
  || startsWith l Messages.siren
  || startsWith l (lit "[")
  || test Messages.lineDateRegex l.

Definition playerLike (l : jsstring) : bool :=
  negb (setAside l) && negb (test Messages.digitsOnlyRegex l).

Definition waitlistLike (l : jsstring) : bool :=
  negb (setAside l) && negb (Messages.mentionsWaitlist l).

(** ** Invariants of the database *)

(** The stored count of every game is the number of its player rows;
    every player row belongs to a game; and the rowid given to a new
    game is above those in use. *)
Definition counted (t : GameDatabase.Tables) : Prop :=
  forall g, In g (GameDatabase.games t) ->
    GameDatabase.player_count g
    = GameDatabase.countPlayers (GameDatabase.players t) (GameDatabase.id g).

Definition referential (t : GameDatabase.Tables) : Prop :=
  forall r, In r (GameDatabase.players t) ->
    GameDatabase.gameExists t (fst r) = true.

Definition ascending (newRowid : list GameDatabase.Game -> Z) : Prop :=
  forall gs g, In g gs -> GameDatabase.id g < newRowid gs.

(** One more than the largest rowid in use. *)
Definition nextRowid (gs : list GameDatabase.Game) : Z :=
  1 + fold_right (fun g m => Z.max (GameDatabase.id g) m) 0 gs.

Definition noTables : GameDatabase.Tables :=
  {| GameDatabase.games := []; GameDatabase.players := [];
     GameDatabase.waitlist := [] |}.

(** The alerts sent so far name each game once, a game that is in
    [alertedGames], with a count that reaches the threshold. *)
Definition alerts_sound (PLAYER_THRESHOLD : option Z) (bot : Bot.State) : Prop :=
  NoDup (map Bot.alertGame (Bot.alerts bot))
  /\ forall a, In a (Bot.alerts bot) ->
       In (Bot.alertGame a) (Bot.alertedGames bot)
       /\ Bot.reached PLAYER_THRESHOLD (Bot.alertCount a) = true.

(** The alerts of a game among those sent so far. *)
Definition alertsFor (gameId : Z) (bot : Bot.State) : list Bot.Alert :=
  filter (fun a => Bot.alertGame a =? gameId) (Bot.alerts bot).

(** A database with one game, announced as message 3EB0, and Bob as its
    only player. *)
Definition gameWithBob : GameDatabase.Tables :=
  snd (GameDatabase.addPlayer true (fun s => s)
         (snd (GameDatabase.upsertGame (fun s => s) nextRowid noTables
                 (lit "2/24") (lit "9-11p") (Some (lit "FMT Procourt"))
                 (lit "3EB0")))
         1 (lit "Bob")).

(** ** Names for the statements about the toolbar *)

(** The month name of a date, as the bookers look it up. *)
Definition monthNameOf (gameDate : Z) : jsstring :=
  nth (Z.to_nat (getMonth gameDate)) MONTH_NAMES [].

(** A reserve button of the third booker with the given label, on
    which no step of the loop body throws. *)
Definition labelled (label : jsstring) : BookingV3.ElementHandle :=
  {| BookingV3.ariaLabel := label; BookingV3.dataHref := [];
     BookingV3.throwsAt := None |}.

(** An announcement with two players, a count line and a waitlist. *)
Definition newline : jsstring := [10%N].

Definition announcement : jsstring :=
  Messages.siren ++ lit " 2/24 Tuesday 9-11p [FMT Procourt]" ++ newline
  ++ lit "Bob" ++ newline ++ lit "  Alice  " ++ newline
  ++ lit "2/10" ++ newline
  ++ lit "Waitlist:" ++ newline ++ lit "Carl".

(** A launch that always fails. *)
Definition noLaunch (n : nat) : (jsstring + nat) * nat :=
  (inl (lit "browserType.launch: Executable does not exist"), n).

(* ================================================================== *)
(** * The matcher finds only matches *)
(* ================================================================== *)

Section MatcherSoundness.

Lemma firstn_length_diff (w a : jsstring) :
  firstn (List.length (w ++ a) - List.length a) (w ++ a) = w.
Proof.
  rewrite length_app.
  replace (List.length w + List.length a - List.length a)%nat
    with (List.length w + 0)%nat by lia.
  rewrite firstn_app_2. simpl. apply app_nil_r.
Qed.

Lemma orelse_some {A} (x y : option A) (v : A) :
  orelse x y = Some v -> x = Some v \/ y = Some v.
Proof. destruct x; simpl; auto. Qed.

Lemma star_loop_sound r step :
  sound_for r step ->
  forall k fuel st res,
    star_loop step k fuel st = Some res ->
    exists w a c',
      rest st = w ++ a
      /\ matches (Star r) (before st) w a (caps st) c'
      /\ k (MState (rev w ++ before st) a c') = Some res.
Proof.
  intros Hstep k fuel.
  assert (Hnil : forall st res, k st = Some res ->
            exists w a c',
              rest st = w ++ a
              /\ matches (Star r) (before st) w a (caps st) c'
              /\ k (MState (rev w ++ before st) a c') = Some res).
  { intros [b s c] res Hk. exists [], s, c. simpl.
    repeat split; auto. constructor. }
  induction fuel as [|f IH]; intros st res H; simpl in H.
  - now apply Hnil.
  - apply orelse_some in H. destruct H as [H|H]; [|now apply Hnil].
    apply Hstep in H. destruct H as (w1 & a1 & c1 & Hrest & Hm & Hk).
    simpl in Hk.
    destruct (List.length a1 <? List.length (rest st))%nat eqn:Hlt;
      [|discriminate].
    apply IH in Hk. simpl in Hk.
    destruct Hk as (w2 & a2 & c2 & Hrest2 & Hm2 & Hk2).
    subst a1. exists (w1 ++ w2), a2, c2.
    rewrite Hrest, <- app_assoc. split; [reflexivity|]. split.
    + econstructor; eauto.
      intros ->. simpl in Hrest. rewrite Hrest in Hlt.
      apply Nat.ltb_lt in Hlt. lia.
    + rewrite rev_app_distr, <- app_assoc. exact Hk2.
Qed.

Lemma rmatch_sound r : sound_for r (rmatch r).
Proof.
  induction r as [|p|r1 IH1 r2 IH2|r1 IH1 r2 IH2|r1 IH1|n r1 IH1| | | |ps];
    intros [b s c] k res H; simpl in *.
  - exists [], s, c. repeat split; auto. constructor.
  - destruct s as [|x s']; [discriminate|].
    destruct (p x) eqn:Hp; [|discriminate].
    exists [x], s', c. repeat split; auto. now constructor.
  - apply IH1 in H. destruct H as (w1 & a1 & c1 & Hr1 & Hm1 & H).
    apply IH2 in H. destruct H as (w2 & a2 & c2 & Hr2 & Hm2 & H).
    simpl in *. subst a1. exists (w1 ++ w2), a2, c2.
    rewrite Hr1, <- app_assoc. split; [reflexivity|]. split.
    + econstructor; eauto.
    + rewrite rev_app_distr, <- app_assoc. exact H.
  - apply orelse_some in H. destruct H as [H|H].
    + apply IH1 in H. destruct H as (w & a & c' & ? & ? & ?).
      exists w, a, c'. repeat split; auto. now apply M_AltL.
    + apply IH2 in H. destruct H as (w & a & c' & ? & ? & ?).
      exists w, a, c'. repeat split; auto. now apply M_AltR.
  - apply (star_loop_sound r1 (rmatch r1) IH1) in H. exact H.
  - apply IH1 in H. destruct H as (w & a & c' & Hr & Hm & H).
    simpl in *. subst s. rewrite firstn_length_diff in H.
    exists w, a, ((n, w) :: c'). repeat split; auto. now constructor.
  - destruct b; [|discriminate]. exists [], s, c.
    repeat split; auto. constructor.
  - destruct s; [|discriminate]. exists [], [], c.
    repeat split; auto. constructor.
  - destruct (xorb (word_at b) (word_at s)) eqn:Hx; [|discriminate].
    exists [], s, c. repeat split; auto. now constructor.
  - destruct (behind (rev ps) b) eqn:Hb; [discriminate|].
    exists [], s, c. repeat split; auto. now constructor.
Qed.

(** A successful search found a match somewhere in the string. *)
Lemma search_sound r : forall s b st,
  search r b s = Some st ->
  exists pre w a,
    s = pre ++ w ++ a
    /\ matches r (rev pre ++ b) w a [] (caps st).
Proof.
  induction s as [|x s IH]; intros b st H; simpl in H.
  - destruct (rmatch r (MState b [] []) Some) eqn:Hm; [|discriminate].
    inversion H; subst. apply rmatch_sound in Hm.
    destruct Hm as (w & a & c' & Hr & Hm & Hk). simpl in *.
    inversion Hk; subst. exists [], w, a. simpl. auto.
  - destruct (rmatch r (MState b (x :: s) []) Some) eqn:Hm.
    + inversion H; subst. apply rmatch_sound in Hm.
      destruct Hm as (w & a & c' & Hr & Hm & Hk). simpl in *.
      inversion Hk; subst. exists [], w, a. simpl. auto.
    + apply IH in H. destruct H as (pre & w & a & Hs & Hm').
      exists (x :: pre), w, a. simpl. rewrite <- app_assoc. simpl.
      split; [now rewrite Hs|exact Hm'].
Qed.

Lemma exec_sound r s m :
  exec r s = Some m ->
  exists pre w a,
    s = pre ++ w ++ a /\ matches r (rev pre) w a [] m.
Proof.
  unfold exec. destruct (search r [] s) eqn:H; [|discriminate].
  intros [= <-]. apply search_sound in H.
  destruct H as (pre & w & a & Hs & Hm). rewrite app_nil_r in Hm. eauto.
Qed.

End MatcherSoundness.

(* ================================================================== *)
(** * The time-range parser *)
(* ================================================================== *)

Section TimeRangeParser.

Lemma clockHours_spec h : 1 <= h <= 12 -> In h clockHours.
Proof. unfold clockHours. simpl. lia. Qed.

(** Two nested [forallb] over the clock hours cover every pair. *)
Lemma forall_clockHours (f : Z -> Z -> bool) :
  forallb (fun h1 => forallb (f h1) clockHours) clockHours = true ->
  forall h1 h2, 1 <= h1 <= 12 -> 1 <= h2 <= 12 -> f h1 h2 = true.
Proof.
  intros H h1 h2 H1 H2.
  rewrite forallb_forall in H.
  specialize (H h1 (clockHours_spec h1 H1)).
  rewrite forallb_forall in H.
  exact (H h2 (clockHours_spec h2 H2)).
Qed.

Lemma order_check_all :
  forallb (fun h1 => forallb (order_check h1) clockHours) clockHours = true.
Proof. vm_compute. reflexivity. Qed.

(** C1, as amended.  For hours between 1 and 12, "H1-H2p" always parses
    to a range whose start hour is strictly before its end hour.
    "H1-H2a" parses too, with the start before the end when
    H1 mod 12 < H2 mod 12; otherwise the flip moves the start to the
    afternoon: the end hour is below 12 and the start hour is 12 or
    more. *)
Theorem parseTimeRange_start_before_end (h1 h2 : Z) :
  1 <= h1 <= 12 -> 1 <= h2 <= 12 ->
  (exists p,
      timeParts (hourRange h1 h2 "p") = Some p
      /\ parseTimeRange (hourRange h1 h2 "p") = Some (render p)
      /\ startHour24 p < endHour24 p)
  /\ (exists q,
         timeParts (hourRange h1 h2 "a") = Some q
         /\ parseTimeRange (hourRange h1 h2 "a") = Some (render q)
         /\ (h1 mod 12 < h2 mod 12 -> startHour24 q < endHour24 q)
         /\ (h2 mod 12 <= h1 mod 12 ->
             endHour24 q < 12 <= startHour24 q)).
Proof.
  intros H1 H2.
  pose proof (forall_clockHours order_check order_check_all h1 h2 H1 H2)
    as C.
  unfold order_check, parseTimeRange in *.
  destruct (timeParts (hourRange h1 h2 "p")) as [p|]; [|discriminate].
  destruct (timeParts (hourRange h1 h2 "a")) as [q|]; [|discriminate].
  apply andb_prop in C. destruct C as [Cp Cq].
  split.
  - exists p. repeat split. now apply Z.ltb_lt.
  - exists q. split; [reflexivity|]. split; [reflexivity|].
    destruct (h1 mod 12 <? h2 mod 12) eqn:E.
    + apply Z.ltb_lt in E, Cq. split; intros; lia.
    + apply Z.ltb_ge in E. apply andb_prop in Cq. destruct Cq as [Ce Cs].
      apply Z.ltb_lt in Ce. apply Z.leb_le in Cs. split; intros; lia.
Qed.

(** The theorem at "11-1p" and "11-1a". *)
Lemma parseTimeRange_start_before_end_at_11_1 :
  (1 <= 11 <= 12 /\ 1 <= 1 <= 12)
  /\ (exists p,
         timeParts (hourRange 11 1 "p") = Some p
         /\ parseTimeRange (hourRange 11 1 "p") = Some (render p)
         /\ startHour24 p < endHour24 p)
  /\ (exists q,
         timeParts (hourRange 11 1 "a") = Some q
         /\ parseTimeRange (hourRange 11 1 "a") = Some (render q)
         /\ (11 mod 12 < 1 mod 12 -> startHour24 q < endHour24 q)
         /\ (1 mod 12 <= 11 mod 12 ->
             endHour24 q < 12 <= startHour24 q)).
Proof.
  split; [lia|].
  apply (parseTimeRange_start_before_end 11 1); lia.
Defined.

(** C1 as stated fails on "11-1a": the range is 23:00 to 01:00. *)
Lemma parseTimeRange_11_1a_inverted :
  parseTimeRange (lit "11-1a")
  = Some {| startTime := lit "23:00"; endTime := lit "01:00";
            startDisplay := lit "11:00 PM"; endDisplay := lit "1:00 AM" |}
  /\ ~ (exists p, timeParts (lit "11-1a") = Some p
                  /\ startHour24 p < endHour24 p).
Proof.
  split; [vm_compute; reflexivity|].
  intros (p & Hp & Hlt). vm_compute in Hp. inversion Hp; subst.
  simpl in Hlt. lia.
Qed.

(** C2.  "12-2p" is noon to 14:00, "11-1p" is 11:00 (the start flipped to
    the morning, since 23 >= 13 when both hours are read as PM) to
    13:00, and "9-11p" is 21:00 to 23:00 with both hours read as PM. *)
Theorem parseTimeRange_edge_cases :
  parseTimeRange (lit "12-2p")
  = Some {| startTime := lit "12:00"; endTime := lit "14:00";
            startDisplay := lit "12:00 PM"; endDisplay := lit "2:00 PM" |}
  /\ parseTimeRange (lit "11-1p")
     = Some {| startTime := lit "11:00"; endTime := lit "13:00";
               startDisplay := lit "11:00 AM"; endDisplay := lit "1:00 PM" |}
  /\ (_to24h 11 (lit "p") = 23 /\ _to24h 1 (lit "p") = 13
      /\ _to24h 11 (lit "a") = 11)
  /\ parseTimeRange (lit "9-11p")
     = Some {| startTime := lit "21:00"; endTime := lit "23:00";
               startDisplay := lit "9:00 PM"; endDisplay := lit "11:00 PM" |}
  /\ (_to24h 9 (lit "p") = 21 /\ _to24h 11 (lit "p") = 23).
Proof. vm_compute. repeat split; reflexivity. Qed.

(** C9.  "11a-1p" is not parsed: after the start hour the pattern allows
    only minutes, white space and the dash, so no position of the text
    matches and [parseTimeRange] returns [null]. *)
Theorem parseTimeRange_11a_1p_null :
  exec timeRangeRegex (lit "11a-1p") = None
  /\ parseTimeRange (lit "11a-1p") = None.
Proof. vm_compute. split; reflexivity. Qed.

Lemma twoMarkers_check_all :
  forallb (fun h1 => forallb (twoMarkers_check h1) clockHours) clockHours
  = true.
Proof. vm_compute. reflexivity. Qed.

(** No text with a marker on both halves parses, whatever the clock
    hours and the markers. *)
Lemma parseTimeRange_two_markers_null (h1 h2 : Z) (m1 m2 : string) :
  1 <= h1 <= 12 -> 1 <= h2 <= 12 ->
  In m1 ["a"; "p"; "am"; "pm"]%string ->
  In m2 ["a"; "p"; "am"; "pm"]%string ->
  parseTimeRange (toString h1 ++ lit m1 ++ lit "-" ++ toString h2 ++ lit m2)
  = None.
Proof.
  intros H1 H2 I1 I2.
  pose proof (forall_clockHours twoMarkers_check twoMarkers_check_all
                h1 h2 H1 H2) as C.
  unfold twoMarkers_check in C. rewrite forallb_forall in C.
  specialize (C m1 I1). rewrite forallb_forall in C.
  specialize (C m2 I2).
  destruct (parseTimeRange _); [discriminate|reflexivity].
Qed.


(** ** What the pattern can capture *)

Lemma matches_no_groups r b w a c c' :
  matches r b w a c c' -> no_groups r = true -> c' = c.
Proof.
  induction 1; simpl; intros G; try reflexivity;
    try (apply andb_prop in G; destruct G as [G1 G2]);
    try discriminate.
  - rewrite IHmatches2, IHmatches1; auto.
  - auto.
  - auto.
  - rewrite IHmatches2, IHmatches1; simpl; auto.
Qed.

Ltac inv H := inversion H; subst; clear H.

(** Invert every hypothesis about a match of a sequence, an alternative,
    a group, a single character or the empty pattern. *)
Ltac inv_matches :=
  repeat match goal with
         | H : matches (Seq _ _) _ _ _ _ _ |- _ => inv H
         | H : matches (Alt _ _) _ _ _ _ _ |- _ => inv H
         | H : matches (Group _ _) _ _ _ _ _ |- _ => inv H
         | H : matches (Chr _) _ _ _ _ _ |- _ => inv H
         | H : matches Eps _ _ _ _ _ |- _ => inv H
         end.

Ltac use_true :=
  repeat match goal with
         | H : _ = true |- _ => rewrite H; clear H
         end.

Lemma matches_d12 b w a c c' :
  matches d12 b w a c c' -> digits12 w = true /\ c' = c.
Proof.
  unfold d12, Opt, digit. intros H. inv_matches; simpl; use_true; auto.
Qed.

Lemma matches_d2 b w a c c' :
  matches d2 b w a c c' -> digits2 w = true /\ c' = c.
Proof.
  unfold d2, digit. intros H. inv_matches; simpl; use_true; auto.
Qed.

Ltac inv_seq :=
  match goal with H : matches (Seq _ _) _ _ _ _ _ |- _ => inv H end.
Ltac inv_chr :=
  match goal with H : matches (Chr _) _ _ _ _ _ |- _ => inv H end.
Ltac inv_group :=
  match goal with H : matches (Group _ _) _ _ _ _ _ |- _ => inv H end.
Ltac inv_eps :=
  match goal with H : matches Eps _ _ _ _ _ |- _ => inv H end.
Ltac inv_alt :=
  match goal with H : matches (Alt _ _) _ _ _ _ _ |- _ => inv H end.

(** A starred or optional character leaves the captures alone. *)
Ltac skip_star :=
  match goal with
  | H : matches (Star _) _ _ _ ?c ?c' |- _ =>
      apply matches_no_groups in H; [|reflexivity]; subst c'
  end.
Ltac skip_opt_chr :=
  match goal with
  | H : matches (Opt (Chr _)) _ _ _ ?c ?c' |- _ =>
      apply matches_no_groups in H; [|reflexivity]; subst c'
  end.

(** An optional [:MM] part either leaves the captures alone or records
    two digits under its group number. *)
Lemma matches_opt_minutes n b w a c c' :
  matches (Opt (Seq (Chr (ci (ch ":"))) (Group n d2))) b w a c c' ->
  c' = c \/ exists g, digits2 g = true /\ c' = (n, g) :: c.
Proof.
  unfold Opt. intros H. inv H.
  - right. inv_seq. inv_chr. inv_group.
    match goal with
    | H : matches d2 _ _ _ _ _ |- _ =>
        apply matches_d2 in H; destruct H as [D ->]
    end.
    eauto.
  - left. inv_eps. reflexivity.
Qed.

(** The five captures of a match of [timeRangeRegex]. *)
Lemma timeRange_captures b w a m :
  matches timeRangeRegex b w a [] m ->
  exists g1 g3 x,
    digits12 g1 = true /\ digits12 g3 = true
    /\ (ci (ch "a") x || ci (ch "p") x) = true
    /\ group m 1 = Some g1 /\ group m 3 = Some g3 /\ group m 5 = Some [x]
    /\ (group m 2 = None \/ exists g, digits2 g = true /\ group m 2 = Some g)
    /\ (group m 4 = None \/ exists g, digits2 g = true /\ group m 4 = Some g).
Proof.
  unfold timeRangeRegex, seqs. intros H.
  (* group 1 *)
  inv_seq. inv_group.
  match goal with
  | H : matches d12 _ _ _ _ _ |- _ =>
      apply matches_d12 in H; destruct H as [D1 ->]
  end.
  (* minutes of the start *)
  inv_seq.
  match goal with
  | H : matches (Opt _) _ _ _ _ _ |- _ =>
      apply matches_opt_minutes in H; destruct H as [->|(g2 & D2 & ->)]
  end.
  all: inv_seq; skip_star.
  all: inv_seq; inv_chr.
  all: inv_seq; skip_star.
  all: inv_seq; inv_group.
  all: match goal with
       | H : matches d12 _ _ _ _ _ |- _ =>
           apply matches_d12 in H; destruct H as [D3 ->]
       end.
  all: inv_seq.
  all: match goal with
       | H : matches (Opt (Seq _ _)) _ _ _ _ _ |- _ =>
           apply matches_opt_minutes in H; destruct H as [->|(g4 & D4 & ->)]
       end.
  all: inv_seq; skip_star.
  all: inv_seq; inv_group; inv_chr.
  all: skip_opt_chr.
  all: simpl; eexists _, _, _; repeat split; eauto.
Qed.

(** ** The numbers behind the captures *)

Lemma is_digit_In x : is_digit x = true -> In x decimalDigits.
Proof.
  unfold is_digit. intros H. apply andb_prop in H. destruct H as [L U].
  apply N.leb_le in L, U. unfold decimalDigits. simpl. lia.
Qed.

Lemma hour_numeral_check_all :
  forallb (fun x => hour_numeral_check [x]
                    && forallb (fun y => hour_numeral_check [x; y])
                               decimalDigits)
          decimalDigits = true.
Proof. vm_compute. reflexivity. Qed.

Lemma parseInt_digits12 g :
  digits12 g = true -> exists n, parseInt g = Some n /\ 0 <= n <= 99.
Proof.
  intros D.
  assert (C : hour_numeral_check g = true).
  { pose proof hour_numeral_check_all as A. rewrite forallb_forall in A.
    destruct g as [|x [|y [|z g]]]; simpl in D; try discriminate.
    - specialize (A x (is_digit_In x D)). now apply andb_prop in A.
    - apply andb_prop in D. destruct D as [Dx Dy].
      specialize (A x (is_digit_In x Dx)). apply andb_prop in A.
      destruct A as [_ A]. rewrite forallb_forall in A.
      exact (A y (is_digit_In y Dy)). }
  unfold hour_numeral_check in C. destruct (parseInt g) as [n|]; [|discriminate].
  exists n. apply andb_prop in C. destruct C as [L U].
  apply Z.leb_le in L, U. auto.
Qed.

Lemma digits12_nonempty g d : digits12 g = true -> or_default (Some g) d = g.
Proof. destruct g; [discriminate|reflexivity]. Qed.

Lemma digits2_nonempty g d : digits2 g = true -> or_default (Some g) d = g.
Proof. destruct g; [discriminate|reflexivity]. Qed.

(** The captured marker is one of a, A, p, P. *)
Lemma period_cases x :
  (ci (ch "a") x || ci (ch "p") x) = true ->
  toLowerCase [x] = lit "a" \/ toLowerCase [x] = lit "p".
Proof.
  intros H.
  assert (C : (x = 97 \/ x = 65 \/ x = 112 \/ x = 80)%N).
  { apply orb_prop in H. unfold ci, char_eqb, fold_case, ch in H.
    unfold is_lower in H. simpl in H.
    destruct ((97 <=? x)%N && (x <=? 122)%N) eqn:E;
      destruct H as [H|H]; apply N.eqb_eq in H;
      try (apply andb_prop in E; destruct E as [E1 E2];
           apply N.leb_le in E1, E2); lia. }
  destruct C as [-> | [-> | [-> | ->]]]; vm_compute; auto.
Qed.

(** What is known of the locals of [parseTimeRange] once the pattern has
    matched. *)
Lemma timeRange_locals s m :
  exec timeRangeRegex s = Some m ->
  exists startHour endHour,
    parseInt (or_default (group m 1) []) = Some startHour
    /\ parseInt (or_default (group m 3) []) = Some endHour
    /\ 0 <= startHour <= 99 /\ 0 <= endHour <= 99
    /\ digits2 (or_default (group m 2) (lit "00")) = true
    /\ digits2 (or_default (group m 4) (lit "00")) = true
    /\ (toLowerCase (or_default (group m 5) []) = lit "a"
        \/ toLowerCase (or_default (group m 5) []) = lit "p").
Proof.
  intros H. apply exec_sound in H. destruct H as (pre & w & a & _ & H).
  apply timeRange_captures in H.
  destruct H as (g1 & g3 & x & D1 & D3 & P & G1 & G3 & G5 & G2 & G4).
  rewrite G1, G3, G5, (digits12_nonempty g1 [] D1),
    (digits12_nonempty g3 [] D3).
  destruct (parseInt_digits12 g1 D1) as (sh & -> & Bs).
  destruct (parseInt_digits12 g3 D3) as (eh & -> & Be).
  exists sh, eh. repeat split; try lia.
  - destruct G2 as [->|(g & D & ->)]; [reflexivity|].
    now rewrite (digits2_nonempty g _ D).
  - destruct G4 as [->|(g & D & ->)]; [reflexivity|].
    now rewrite (digits2_nonempty g _ D).
  - simpl or_default. now apply period_cases.
Qed.

(** The [NaN] branch of the model of [parseTimeRange] is never taken. *)
Lemma timeParts_total_on_match s m :
  exec timeRangeRegex s = Some m -> exists p, timeParts s = Some p.
Proof.
  intros H. unfold timeParts. rewrite H.
  destruct (timeRange_locals s m H) as (sh & eh & -> & -> & _). eauto.
Qed.

Lemma _to24h_bounds h per :
  per = lit "a" \/ per = lit "p" ->
  0 <= h <= 99 ->
  0 <= _to24h h per <= 111 /\ (h <= 12 -> 0 <= _to24h h per <= 23).
Proof.
  intros [-> | ->] B; unfold _to24h;
    [ replace (str_eqb (lit "a") (lit "a")) with true by reflexivity
    | replace (str_eqb (lit "p") (lit "a")) with false by reflexivity ];
    (destruct (h =? 12) eqn:E;
     [apply Z.eqb_eq in E | apply Z.eqb_neq in E]; lia).
Qed.

(** C8 as stated fails on "13-14:75p": the pattern accepts it, and the
    range has hours 25 and 26 and end minutes "75". *)
Lemma parseTimeRange_13_14p_out_of_range :
  parseTimeRange (lit "13-14:75p")
  = Some {| startTime := lit "25:00"; endTime := lit "26:75";
            startDisplay := lit "13:00 PM"; endDisplay := lit "14:75 PM" |}
  /\ exists p, timeParts (lit "13-14:75p") = Some p
               /\ ~ 0 <= startHour24 p <= 23
               /\ ~ 0 <= endHour24 p <= 23
               /\ minute_ok (endMin p) = false
               /\ ~ timeRange_invariant p.
Proof.
  split; [vm_compute; reflexivity|].
  eexists. split; [vm_compute; reflexivity|].
  unfold timeRange_invariant. simpl. repeat split; lia.
Qed.

(** What every successful run of the conversion yields. *)
Lemma timeParts_fields (s : jsstring) (p : TimeParts) :
  timeParts s = Some p ->
  exists m startHour endHour,
    exec timeRangeRegex s = Some m
    /\ parseInt (or_default (group m 1) []) = Some startHour
    /\ parseInt (or_default (group m 3) []) = Some endHour
    /\ startMin p = or_default (group m 2) (lit "00")
    /\ endMin p = or_default (group m 4) (lit "00")
    /\ digits2 (startMin p) = true /\ digits2 (endMin p) = true
    /\ 0 <= startHour24 p <= 111 /\ 0 <= endHour24 p <= 111
    /\ (startHour <= 12 -> 0 <= startHour24 p <= 23)
    /\ (endHour <= 12 -> 0 <= endHour24 p <= 23).
Proof.
  unfold timeParts. intros Hp.
  destruct (exec timeRangeRegex s) as [m|] eqn:Hm; [|discriminate].
  destruct (timeRange_locals s m Hm)
    as (sh & eh & Hs & He & Bs & Be & D2 & D4 & Per).
  rewrite Hs, He in Hp. injection Hp as <-. simpl.
  exists m, sh, eh.
  set (per := toLowerCase (or_default (group m 5) [])) in *.
  pose proof (_to24h_bounds eh per Per Be) as [E1 E2].
  pose proof (_to24h_bounds sh per Per Bs) as [S1 S2].
  assert (Opp : (if str_eqb per (lit "p") then lit "a" else lit "p") = lit "a"
                \/ (if str_eqb per (lit "p") then lit "a" else lit "p")
                   = lit "p").
  { destruct (str_eqb per (lit "p")); auto. }
  pose proof (_to24h_bounds sh _ Opp Bs) as [F1 F2].
  repeat split; auto; try lia;
    destruct (_to24h sh per >=? _to24h eh per); try lia;
    intros; try apply S2; try apply F2; lia.
Qed.

(** C8, as amended.  Every range [parseTimeRange] constructs has minute
    fields of exactly two decimal digits ("00" when the text has none,
    otherwise the two digits as written) and hours between 0 and 111.
    An hour lies in 0..23 whenever its numeral in the text is at most
    12; nothing in the parser checks the numerals or the minutes against
    a range. *)
Theorem parseTimeRange_fields (s : jsstring) (t : TimeRange) :
  parseTimeRange s = Some t ->
  exists p m startHour endHour,
    timeParts s = Some p /\ t = render p
    /\ exec timeRangeRegex s = Some m
    /\ parseInt (or_default (group m 1) []) = Some startHour
    /\ parseInt (or_default (group m 3) []) = Some endHour
    /\ startMin p = or_default (group m 2) (lit "00")
    /\ endMin p = or_default (group m 4) (lit "00")
    /\ digits2 (startMin p) = true /\ digits2 (endMin p) = true
    /\ 0 <= startHour24 p <= 111 /\ 0 <= endHour24 p <= 111
    /\ (startHour <= 12 -> 0 <= startHour24 p <= 23)
    /\ (endHour <= 12 -> 0 <= endHour24 p <= 23).
Proof.
  unfold parseTimeRange. intros H.
  destruct (timeParts s) as [p|] eqn:Hp; [|discriminate].
  injection H as <-.
  destruct (timeParts_fields s p Hp) as (m & sh & eh & F).
  exists p, m, sh, eh. split; [reflexivity|]. split; [reflexivity|]. exact F.
Qed.

(** The theorem at "9:30-11p". *)
Lemma parseTimeRange_fields_at_9_30 :
  parseTimeRange (lit "9:30-11p") = Some range_9_30_to_11
  /\ exists p m startHour endHour,
      timeParts (lit "9:30-11p") = Some p
      /\ range_9_30_to_11 = render p
      /\ exec timeRangeRegex (lit "9:30-11p") = Some m
      /\ parseInt (or_default (group m 1) []) = Some startHour
      /\ parseInt (or_default (group m 3) []) = Some endHour
      /\ startMin p = or_default (group m 2) (lit "00")
      /\ endMin p = or_default (group m 4) (lit "00")
      /\ digits2 (startMin p) = true /\ digits2 (endMin p) = true
      /\ 0 <= startHour24 p <= 111 /\ 0 <= endHour24 p <= 111
      /\ (startHour <= 12 -> 0 <= startHour24 p <= 23)
      /\ (endHour <= 12 -> 0 <= endHour24 p <= 23).
Proof.
  assert (H : parseTimeRange (lit "9:30-11p") = Some range_9_30_to_11)
    by (vm_compute; reflexivity).
  split; [exact H|].
  exact (parseTimeRange_fields (lit "9:30-11p") range_9_30_to_11 H).
Defined.

(** ** From the parsed range to the hour the bookers look for *)

(** The first field of a text is what stands before its first
    separator, and the second field is the first field of what
    follows. *)
Lemma split_on_fields (sep : char) (w rest : jsstring) :
  forallb (fun c => negb (char_eqb c sep)) w = true ->
  nth 0 (split_on sep (w ++ sep :: rest)) [] = w
  /\ nth_error (split_on sep (w ++ sep :: rest)) 1
     = nth_error (split_on sep rest) 0.
Proof.
  induction w as [|c w IH]; simpl; intros H.
  - unfold char_eqb. rewrite N.eqb_refl. simpl. auto.
  - apply andb_prop in H. destruct H as [Hc Hw].
    apply negb_true_iff in Hc. rewrite Hc.
    destruct (IH Hw) as [I0 I1].
    destruct (split_on sep (w ++ sep :: rest)) as [|f fs]; simpl in *.
    + subst w. auto.
    + subst f. auto.
Qed.

Lemma split_on_no_separator (sep : char) (w : jsstring) :
  forallb (fun c => negb (char_eqb c sep)) w = true ->
  nth_error (split_on sep w) 0 = Some w.
Proof.
  induction w as [|c w IH]; simpl; intros H; [reflexivity|].
  apply andb_prop in H. destruct H as [Hc Hw].
  apply negb_true_iff in Hc. rewrite Hc.
  specialize (IH Hw).
  destruct (split_on sep w) as [|f fs]; simpl in *; [discriminate|].
  now injection IH as ->.
Qed.

Lemma hour_field_reads_back_all :
  forallb (fun h => hour_field_check h) hoursParsed = true.
Proof. vm_compute. reflexivity. Qed.

Lemma hoursParsed_spec h : 0 <= h <= 111 -> In h hoursParsed.
Proof.
  intros H. unfold hoursParsed. apply in_map_iff.
  exists (Z.to_nat h). split; [lia|]. apply in_seq. lia.
Qed.

Lemma digits2_no_colon (g : jsstring) :
  digits2 g = true ->
  forallb (fun c => negb (char_eqb c (ch ":"))) g = true.
Proof.
  destruct g as [|x [|y [|z g]]]; simpl; try discriminate.
  intros H. apply andb_prop in H. destruct H as [Hx Hy].
  apply is_digit_In in Hx. apply is_digit_In in Hy.
  unfold decimalDigits in *. simpl in Hx, Hy.
  repeat (destruct Hx as [<-|Hx]; [|]);
    repeat (destruct Hy as [<-|Hy]; [|]);
    try reflexivity; try contradiction.
Qed.

(** The bookers recover the start hour of a parsed range from the text
    of [startTime], and the match data of the second booker are those of
    the start hour and start minutes the parser computed. *)
Lemma matchData_of_parsed_range (s : jsstring) (t : TimeRange) :
  parseTimeRange s = Some t ->
  exists p,
    timeParts s = Some p
    /\ startHourOf t = Some (startHour24 p)
    /\ BookingV2._buildTimeMatchData t
       = Some (BookingV2.buildTimeMatchData (startHour24 p) (startMin p)).
Proof.
  unfold parseTimeRange. intros H.
  destruct (timeParts s) as [p|] eqn:Hp; [|discriminate].
  injection H as <-. exists p. split; [reflexivity|].
  destruct (timeParts_fields s p Hp)
    as (m & sh & eh & _ & _ & _ & _ & _ & D2 & _ & Bs & _).
  pose proof hour_field_reads_back_all as A. rewrite forallb_forall in A.
  specialize (A _ (hoursParsed_spec _ Bs)). unfold hour_field_check in A.
  apply andb_prop in A. destruct A as [A1 A2].
  destruct (parseInt (padStart0 2 (toString (startHour24 p)))) as [h|] eqn:P;
    [|discriminate].
  apply Z.eqb_eq in A1. subst h.
  destruct (split_on_fields (ch ":") _ (startMin p) A2) as [F0 F1].
  unfold startHourOf, BookingV2._buildTimeMatchData, render.
  cbn [startTime]. change (lit ":" ++ startMin p) with (ch ":" :: startMin p).
  rewrite F0, F1, P. split; [reflexivity|].
  rewrite (split_on_no_separator _ _ (digits2_no_colon _ D2)).
  now rewrite (digits2_nonempty _ (lit "00") D2).
Qed.

End TimeRangeParser.

(* ================================================================== *)
(** * The date resolver *)
(* ================================================================== *)

Section DateResolverFacts.

(** Whenever the clock is past midnight, the date is rolled to the next
    year when it is on or before today, not only when it is before
    today: the game date is a midnight, and [now] carries the time of
    day. *)
Lemma gameDateFor_rolls_on_or_before_today (now month day : Z) :
  0 < TimeWithinDay now ->
  gameDateFor now month day
  = let gameDate := newDate (getFullYear now) (month - 1) day in
    if gameDate <=? startOfDay now
    then setFullYear gameDate (getFullYear now + 1)
    else gameDate.
Proof.
  intros Hpos. unfold gameDateFor. cbv zeta.
  set (g := newDate (getFullYear now) (month - 1) day).
  assert (Hg : exists k, g = k * msPerDay) by (unfold g, newDate; eauto).
  destruct Hg as [k Hg].
  unfold startOfDay, TimeWithinDay, Day, msPerDay in *.
  pose proof (Z.div_mod now 86400000 ltac:(lia)) as Hdm.
  pose proof (Z.mod_pos_bound now 86400000 ltac:(lia)) as Hb.
  destruct (g <? now) eqn:E1; destruct (g <=? now / 86400000 * 86400000) eqn:E2;
    try reflexivity; exfalso;
    [ apply Z.ltb_lt in E1; apply Z.leb_gt in E2
    | apply Z.ltb_ge in E1; apply Z.leb_le in E2 ]; nia.
Qed.

(** The lemma at 10:30 on 24 February 2026. *)
Lemma gameDateFor_rolls_on_feb_24 :
  0 < TimeWithinDay (at_time 2026 1 24 10 30)
  /\ gameDateFor (at_time 2026 1 24 10 30) 2 24
     = let gameDate := newDate (getFullYear (at_time 2026 1 24 10 30)) (2 - 1) 24 in
       if gameDate <=? startOfDay (at_time 2026 1 24 10 30)
       then setFullYear gameDate (getFullYear (at_time 2026 1 24 10 30) + 1)
       else gameDate.
Proof.
  split; [vm_compute; reflexivity|].
  apply gameDateFor_rolls_on_or_before_today. vm_compute. reflexivity.
Defined.

(** C5.  At 10:30 on 24 February 2026, "2/24" resolves to 24 February
    2027: the game date is the midnight that began the day, which is
    before [now], so the year is rolled although the day is today.  At
    midnight sharp, and on the day before, it stays in 2026. *)
Theorem formatDateForBooking_same_day_next_year :
  getFullYear (at_time 2026 1 24 10 30) = 2026
  /\ getMonth (at_time 2026 1 24 10 30) = 1
  /\ getDate (at_time 2026 1 24 10 30) = 24
  /\ formatDateForBooking (at_time 2026 1 24 10 30) (lit "2/24")
     = Some (newDate 2027 1 24)
  /\ formatDateForBooking (at_time 2026 1 24 0 0) (lit "2/24")
     = Some (newDate 2026 1 24)
  /\ formatDateForBooking (at_time 2026 1 23 23 59) (lit "2/24")
     = Some (newDate 2026 1 24)
  /\ formatDateForBooking (at_time 2026 1 25 0 0) (lit "2/24")
     = Some (newDate 2027 1 24).
Proof. vm_compute. repeat split; reflexivity. Qed.

End DateResolverFacts.

(* ================================================================== *)
(** * Slot classification *)
(* ================================================================== *)

Section SlotClassification.

Lemma forOf_existsb {A R} (f : A -> bool) (v : R) (l : list A) :
  forOf (fun x => if f x then Some v else None) l
  = if existsb f l then Some v else None.
Proof.
  induction l as [|x l IH]; simpl; [reflexivity|].
  destruct (f x); simpl; auto.
Qed.

Lemma slotStatus_precedence (h : Z) (dom : Page.Dom) :
  Page.slotStatus h dom
  = if existsb (Page.noneAvailableMatches h) (Page.noneAvailable dom)
    then unavailable
    else if existsb (Page.reserveButtonMatches h) (Page.reserveButtons dom)
         then available
         else unknown.
Proof.
  unfold Page.slotStatus. rewrite !forOf_existsb.
  destruct (existsb _ (Page.noneAvailable dom)); [reflexivity|].
  destruct (existsb _ (Page.reserveButtons dom)); reflexivity.
Qed.

(** C4.  In [_getSlotStatus], in the [checkAvailability] of
    src/booking.js and in the [checkAvailability] with centralised
    matching alike, the verdict is [unavailable] as soon as one indicator
    matches, whatever the candidates; otherwise [available] when a
    candidate matches; otherwise [unknown]. *)
Theorem slot_status_three_way :
  (forall dom h,
      BookingV3._getSlotStatus dom h
      = if existsb (Page.noneAvailableMatches h) (Page.noneAvailable dom)
        then unavailable
        else if existsb (Page.reserveButtonMatches h)
                        (Page.reserveButtons dom)
             then available
             else unknown)
  /\ (forall dom h,
         Availability.status (BookingV1.checkAvailability (inr dom) h)
         = if existsb (Page.noneAvailableMatches h) (Page.noneAvailable dom)
           then unavailable
           else if existsb (Page.reserveButtonMatches h)
                           (Page.reserveButtons dom)
                then available
                else unknown)
  /\ (forall sched matchData,
         Availability.status
           (BookingV2.checkAvailability (inr sched) matchData)
         = if existsb (fun s => BookingV2._unavailableMatchesTime s matchData)
                      (BookingV2.unavailableSlots sched)
           then unavailable
           else if existsb (fun s => BookingV2._slotMatchesTime s matchData)
                           (BookingV2._getAllSlotButtons
                              (BookingV2.buttons sched))
                then available
                else unknown).
Proof.
  split; [|split].
  - intros. apply slotStatus_precedence.
  - intros. simpl. apply slotStatus_precedence.
  - intros. unfold BookingV2.checkAvailability, BookingV2.some.
    destruct (existsb _ (BookingV2.unavailableSlots sched)); [reflexivity|].
    destruct (existsb _ _); reflexivity.
Qed.

(** The candidates have no say once an indicator matches, and nothing is
    made up when neither collection matches. *)
Lemma unavailable_wins (sched sched' : BookingV2.Scheduler) matchData :
  BookingV2.unavailableSlots sched = BookingV2.unavailableSlots sched' ->
  BookingV2.some (fun s => BookingV2._unavailableMatchesTime s matchData)
                 (BookingV2.unavailableSlots sched) = true ->
  BookingV2.checkAvailability (inr sched) matchData
  = BookingV2.checkAvailability (inr sched') matchData
  /\ Availability.status (BookingV2.checkAvailability (inr sched) matchData)
     = unavailable.
Proof.
  intros E H. unfold BookingV2.checkAvailability. rewrite <- E, H. auto.
Qed.

Lemma unknown_when_nothing_matches (dom : Page.Dom) (h : Z) :
  existsb (Page.noneAvailableMatches h) (Page.noneAvailable dom) = false ->
  existsb (Page.reserveButtonMatches h) (Page.reserveButtons dom) = false ->
  BookingV3._getSlotStatus dom h = unknown.
Proof.
  intros H1 H2. unfold BookingV3._getSlotStatus.
  now rewrite slotStatus_precedence, H1, H2.
Qed.

End SlotClassification.

(* ================================================================== *)
(** * Range labels and the end-time guard *)
(* ================================================================== *)

Section EndTimeGuard.

(** C3.  In src/booking.js (and in [_getSlotStatus], which has the same
    body) the label of the 9 PM row makes the 10 PM hour [unavailable]
    too: [\b10:00 PM\b] matches the end of the range, there is no guard
    on the word "to". *)
Theorem end_time_matches_without_guard :
  test (Page.exactHourRegex 22) rangeLabel = true
  /\ Availability.status (BookingV1.checkAvailability (inr bookedAtNine) 21)
     = unavailable
  /\ Availability.status (BookingV1.checkAvailability (inr bookedAtNine) 22)
     = unavailable
  /\ BookingV3._getSlotStatus bookedAtNine 22 = unavailable.
Proof. vm_compute. repeat split; reflexivity. Qed.

(** The matcher of the second booker does what C3 says on that label,
    also when the hours come from parsed ranges. *)
Lemma end_time_guard_on_rangeLabel :
  test (BookingV2.strictStartTimeRegex
          (BookingV2.buildTimeMatchData 21 (lit "00"))) rangeLabel = true
  /\ test (BookingV2.strictStartTimeRegex
             (BookingV2.buildTimeMatchData 22 (lit "00"))) rangeLabel = false
  /\ Availability.status
       (BookingV2.checkAvailability (inr bookedAtNineV2)
          (BookingV2.buildTimeMatchData 21 (lit "00"))) = unavailable
  /\ Availability.status
       (BookingV2.checkAvailability (inr bookedAtNineV2)
          (BookingV2.buildTimeMatchData 22 (lit "00"))) = unknown
  /\ option_map BookingV2._buildTimeMatchData (parseTimeRange (lit "9-10p"))
     = Some (Some (BookingV2.buildTimeMatchData 21 (lit "00")))
  /\ option_map BookingV2._buildTimeMatchData (parseTimeRange (lit "10-11p"))
     = Some (Some (BookingV2.buildTimeMatchData 22 (lit "00"))).
Proof. vm_compute. repeat split; reflexivity. Qed.

Lemma hoursOfDay_spec h : 0 <= h <= 23 -> In h hoursOfDay.
Proof.
  intros H. unfold hoursOfDay. apply in_map_iff.
  exists (Z.to_nat h). split; [lia|]. apply in_seq. lia.
Qed.

Lemma row_marks_its_own_hour_all :
  forallb
    (fun h =>
       forallb
         (fun k =>
            Bool.eqb
              (BookingV2._unavailableMatchesTime
                 (markerInRow h) (BookingV2.buildTimeMatchData k (lit "00")))
              (k =? h))
         hoursOfDay)
    hoursOfDay = true.
Proof. vm_compute. reflexivity. Qed.

(** With the guard, the row "H to H+1" makes hour H unavailable and no
    other hour of the day. *)
Lemma row_marks_its_own_hour (h k : Z) :
  0 <= h <= 23 -> 0 <= k <= 23 ->
  BookingV2._unavailableMatchesTime
    (markerInRow h) (BookingV2.buildTimeMatchData k (lit "00"))
  = (k =? h).
Proof.
  intros Hh Hk. pose proof row_marks_its_own_hour_all as A.
  rewrite forallb_forall in A. specialize (A h (hoursOfDay_spec h Hh)).
  rewrite forallb_forall in A. specialize (A k (hoursOfDay_spec k Hk)).
  now apply eqb_prop in A.
Qed.

(** Whatever the text, a match of the strict start-time pattern never
    has its label right after "to" and a white space: the text splits
    into what precedes the label, the label as matched, and the rest,
    and what precedes does not end in t, o, white space. *)
Lemma strict_match_never_follows_to (h : Z) (min text : jsstring) :
  test (BookingV2.strictStartTimeRegex (BookingV2.buildTimeMatchData h min))
       text = true ->
  exists pre w post c,
    text = pre ++ w ++ post
    /\ matches (labelPattern (BookingV2.buildTimeMatchData h min))
               (rev pre) w post [] c
    /\ behind [is_space; ci (ch "o"); ci (ch "t")] (rev pre) = false.
Proof.
  unfold test. intros H.
  destruct (search _ [] text) as [st|] eqn:S; [|discriminate]. clear H.
  apply search_sound in S. destruct S as (pre & w & post & -> & M).
  rewrite app_nil_r in M.
  unfold BookingV2.buildTimeMatchData, BookingV2.strictStartTimeRegex in M.
  cbv [seqs] in M.
  inversion M as [| |r1 r2 b w1 w2 a c c1 c2 M1 M2| | | | | | | | |]; subst.
  inversion M2 as [| |r1' r2' b' w3 w4 a' c' c1' c2' M3 M4| | | | | | | | |];
    subst.
  inversion M3; subst.
  assert (C1 : c1' = []).
  { apply (matches_no_groups _ _ _ _ _ _ M1). reflexivity. }
  subst c1'.
  exists (pre ++ w1), w4, post, (caps st). split; [|split].
  - simpl. now rewrite <- !app_assoc.
  - rewrite rev_app_distr. exact M4.
  - rewrite rev_app_distr. exact H0.
Qed.

End EndTimeGuard.

(* ================================================================== *)
(** * Which candidate is clicked *)
(* ================================================================== *)

Section FirstMatch.

Lemma findIndex_is_first {A} (f : A -> bool) (l : list A) : forall i,
  BookingV2.findIndex f l = Some i -> first_at f l i.
Proof.
  induction l as [|x l IH]; intros i H; simpl in H; [discriminate|].
  destruct (f x) eqn:Fx.
  - injection H as <-. split; [exists x; auto|]. intros j y Hj. lia.
  - destruct (BookingV2.findIndex f l) as [k|]; simpl in H; [|discriminate].
    injection H as <-. destruct (IH k eq_refl) as [(y & Hy & Fy) Hmin]. split.
    + exists y. auto.
    + intros [|j] z Hj Hz; simpl in Hz.
      * now injection Hz as <-.
      * apply (Hmin j z); [lia|exact Hz].
Qed.

Lemma first_is_findIndex {A} (f : A -> bool) (l : list A) : forall i,
  first_at f l i -> BookingV2.findIndex f l = Some i.
Proof.
  induction l as [|x l IH]; intros i [(y & Hy & Fy) Hmin].
  - now destruct i.
  - simpl. destruct i as [|i]; simpl in Hy.
    + injection Hy as <-. now rewrite Fy.
    + rewrite (Hmin O x ltac:(lia) eq_refl).
      rewrite (IH i); [reflexivity|]. split; [eauto|].
      intros j z Hj Hz. apply (Hmin (S j) z); [lia|exact Hz].
Qed.

Lemma findIndex_first_at {A} (f : A -> bool) (l : list A) (i : nat) :
  BookingV2.findIndex f l = Some i <-> first_at f l i.
Proof. split; [apply findIndex_is_first|apply first_is_findIndex]. Qed.

(** The loop of step 8 returns the [index] field of the first match, and
    the scrape numbers the entries by position. *)
Lemma forOf_scrape (P : BookingV2.SlotData -> bool) buttons : forall k,
  forOf (fun slot => if P slot then Some (BookingV2.index slot) else None)
        (BookingV2.scrape_from k buttons)
  = option_map (fun i => k + Z.of_nat i)
               (BookingV2.findIndex P (BookingV2.scrape_from k buttons)).
Proof.
  induction buttons as [|b l IH]; intros k; simpl; [reflexivity|].
  match goal with |- context [P ?x] => destruct (P x) end; simpl.
  - f_equal. lia.
  - rewrite IH. destruct (BookingV2.findIndex P _); simpl; [|reflexivity].
    f_equal. lia.
Qed.

Lemma targetSlotIndex_first buttons matchData :
  BookingV2.targetSlotIndex (BookingV2._getAllSlotButtons buttons) matchData
  = match BookingV2.findIndex
            (fun s => BookingV2._slotMatchesTime s matchData)
            (BookingV2._getAllSlotButtons buttons) with
    | Some i => Z.of_nat i
    | None => -1
    end.
Proof.
  unfold BookingV2.targetSlotIndex, BookingV2._getAllSlotButtons.
  rewrite (forOf_scrape (fun s => BookingV2._slotMatchesTime s matchData)).
  destruct (BookingV2.findIndex _ _); reflexivity.
Qed.

Lemma positions_In {A} (f : A -> bool) (l : list A) : forall i p,
  In p (positions f i l) ->
  (i <= p)%nat /\ exists x, nth_error l (p - i) = Some x /\ f x = true.
Proof.
  induction l as [|x l IH]; intros i p H; cbn [positions] in H; [destruct H|].
  destruct (f x) eqn:Fx.
  - destruct H as [<- | H].
    + split; [lia|]. exists x. rewrite Nat.sub_diag. auto.
    + destruct (IH _ _ H) as (L & y & Hy & Fy). split; [lia|].
      exists y. replace (p - i)%nat with (S (p - S i)) by lia. auto.
  - destruct (IH _ _ H) as (L & y & Hy & Fy). split; [lia|].
    exists y. replace (p - i)%nat with (S (p - S i)) by lia. auto.
Qed.

Lemma In_positions {A} (f : A -> bool) (l : list A) : forall i q x,
  nth_error l q = Some x -> f x = true -> In (i + q)%nat (positions f i l).
Proof.
  induction l as [|y l IH]; intros i q x Hq Fx; [destruct q; discriminate|].
  cbn [positions]. destruct q as [|q]; cbn [nth_error] in Hq.
  - injection Hq as ->. rewrite Fx. left. lia.
  - replace (i + S q)%nat with (S i + q)%nat by lia.
    destruct (f y); [right|]; exact (IH (S i) q x Hq Fx).
Qed.

Lemma nth_error_firstn_Some {A} (l : list A) : forall n q x,
  nth_error (firstn n l) q = Some x -> (q < n)%nat /\ nth_error l q = Some x.
Proof.
  induction l as [|y l IH]; intros n q x H.
  - rewrite firstn_nil in H. destruct q; discriminate.
  - destruct n as [|n]; [destruct q; discriminate|].
    cbn [firstn] in H. destruct q as [|q]; cbn [nth_error] in *.
    + split; [lia | exact H].
    + destruct (IH n q x H). split; [lia | assumption].
Qed.

Lemma nth_error_firstn_lt {A} (l : list A) : forall n q,
  (q < n)%nat -> nth_error (firstn n l) q = nth_error l q.
Proof.
  induction l as [|y l IH]; intros n q H.
  - rewrite firstn_nil. reflexivity.
  - destruct n as [|n]; [lia|]. cbn [firstn].
    destruct q as [|q]; cbn [nth_error]; [reflexivity|]. apply IH. lia.
Qed.

(** The click loop of [_doBookCourt] gets as far as the first button on
    which its whole body completes, or to the end of the list; on the
    buttons it gets to, [click()] is called on the matches that can be
    scrolled to, and [timeSlotClicked] is set as soon as one of these
    clicks completes. *)
Lemma clickLoop_spec h l : forall i,
  BookingV3.visited (BookingV3.clickLoop h i l)
  = match BookingV2.findIndex (bodyCompleted h) l with
    | Some k => S k
    | None => List.length l
    end
  /\ BookingV3.called (BookingV3.clickLoop h i l)
     = positions (clickCalled h) i
         (firstn (BookingV3.visited (BookingV3.clickLoop h i l)) l)
  /\ BookingV3.clicked (BookingV3.clickLoop h i l)
     = positions (clickCompleted h) i
         (firstn (BookingV3.visited (BookingV3.clickLoop h i l)) l)
  /\ BookingV3.timeSlotClicked (BookingV3.clickLoop h i l)
     = existsb (clickCompleted h)
         (firstn (BookingV3.visited (BookingV3.clickLoop h i l)) l).
Proof.
  induction l as [|b l IH]; intros i; [cbn; auto|].
  destruct (IH (S i)) as (V & C & K & T).
  cbn [BookingV3.clickLoop BookingV2.findIndex List.length].
  pose proof (eq_refl (bodyCompleted h b)) as E1.
  pose proof (eq_refl (clickCalled h b)) as E2.
  pose proof (eq_refl (clickCompleted h b)) as E3.
  unfold bodyCompleted at 2 in E1. unfold clickCalled at 2 in E2.
  unfold clickCompleted at 2 in E3. unfold found in E1, E2, E3.
  destruct (BookingV3.throwsAt b) as [[ | | | ]|];
    destruct (BookingV3.matchesTime h b);
    cbn [andb] in E1, E2, E3;
    cbn [BookingV3.visited BookingV3.called BookingV3.clicked
         BookingV3.timeSlotClicked firstn positions existsb];
    rewrite ?E1, ?E2, ?E3; cbn [orb];
    rewrite <- ?C, <- ?K, <- ?T; rewrite ?V;
    destruct (BookingV2.findIndex (bodyCompleted h) l);
    cbn [option_map]; auto.
Qed.

(** C10, as amended.  With centralised matching, [bookCourt] identifies
    the first matching candidate in scraped order and clicks the button
    at that index of the document.  In [_doBookCourt] the scan stops at
    the first matching button on which the whole loop body completes
    (scroll, click and both waits) and goes no further; up to there,
    [click()] is called on every matching button that can be scrolled
    to and on no other, and every such click that completes counts as
    the slot clicked: an error of any step is swallowed by the try block
    around the loop body and the scan goes on. *)
Theorem first_matching_candidate (sched : BookingV2.Scheduler)
        (matchData : BookingV2.MatchData)
        (h : Z) (handles : list BookingV3.ElementHandle) (i j k : nat) :
  BookingV2.some (fun s => BookingV2._unavailableMatchesTime s matchData)
                 (BookingV2.unavailableSlots sched) = false ->
  first_at (fun s => BookingV2._slotMatchesTime s matchData)
           (BookingV2._getAllSlotButtons (BookingV2.buttons sched)) i ->
  first_at (found h) handles j ->
  first_at (bodyCompleted h) handles k ->
  BookingV2.targetSlotIndex
    (BookingV2._getAllSlotButtons (BookingV2.buttons sched)) matchData
  = Z.of_nat i
  /\ BookingV2.bookCourt_slot sched matchData
     = BookingV2.Click (Z.of_nat i) (nth_error (BookingV2.buttons sched) i)
  /\ BookingV3.visited (BookingV3.clickLoop h 0 handles) = S k
  /\ BookingV3.called (BookingV3.clickLoop h 0 handles)
     = positions (clickCalled h) 0 (firstn (S k) handles)
  /\ BookingV3.clicked (BookingV3.clickLoop h 0 handles)
     = positions (clickCompleted h) 0 (firstn (S k) handles)
  /\ BookingV3.timeSlotClicked (BookingV3.clickLoop h 0 handles) = true
  /\ In k (BookingV3.clicked (BookingV3.clickLoop h 0 handles))
  /\ (forall p, In p (BookingV3.called (BookingV3.clickLoop h 0 handles)) ->
                 (j <= p <= k)%nat)
  /\ (j <= k)%nat.
Proof.
  intros U Fi Fj Fk.
  apply findIndex_first_at in Fi.
  pose proof Fk as Fk'. apply findIndex_first_at in Fk.
  assert (T : BookingV2.targetSlotIndex
                (BookingV2._getAllSlotButtons (BookingV2.buttons sched))
                matchData = Z.of_nat i).
  { now rewrite targetSlotIndex_first, Fi. }
  destruct (clickLoop_spec h handles 0) as (V & C & K & B).
  rewrite Fk in V. rewrite V in C, K, B.
  destruct Fk' as [(b & Hb & Fb) _].
  assert (Done : clickCompleted h b = true).
  { unfold bodyCompleted, clickCompleted in *.
    apply andb_prop in Fb as [F1 F2]. rewrite F1.
    destruct (BookingV3.throwsAt b) as [[ | | | ]|];
      try discriminate F2; reflexivity. }
  assert (Hb' : nth_error (firstn (S k) handles) k = Some b)
    by (rewrite nth_error_firstn_lt by lia; exact Hb).
  assert (Among : forall p,
             In p (BookingV3.called (BookingV3.clickLoop h 0 handles)) ->
             (j <= p <= k)%nat).
  { intros p Hp. rewrite C in Hp.
    apply positions_In in Hp. destruct Hp as (_ & x & Hx & Fx).
    rewrite Nat.sub_0_r in Hx.
    apply nth_error_firstn_Some in Hx. destruct Hx as [Lt Hx].
    split; [|lia].
    destruct Fj as [_ Hmin].
    destruct (Nat.le_gt_cases j p) as [L|G]; [exact L|].
    specialize (Hmin p x G Hx).
    unfold clickCalled in Fx. apply andb_prop in Fx as [Fx _]. congruence. }
  assert (Ink : In k (BookingV3.clicked (BookingV3.clickLoop h 0 handles))).
  { rewrite K. exact (In_positions (clickCompleted h) _ 0 k b Hb' Done). }
  split; [exact T|]. split; [|split; [exact V|split; [exact C|split; [exact K|]]]].
  - unfold BookingV2.bookCourt_slot. rewrite U, T.
    replace (Z.of_nat i =? -1) with false by (symmetry; apply Z.eqb_neq; lia).
    now rewrite Nat2Z.id.
  - split.
    { rewrite B. apply existsb_exists. exists b.
      split; [exact (nth_error_In _ _ Hb') | exact Done]. }
    split; [exact Ink|]. split; [exact Among|].
    assert (Ck : In k (BookingV3.called (BookingV3.clickLoop h 0 handles))).
    { rewrite C. apply (In_positions (clickCalled h) _ 0 k b Hb').
      unfold clickCalled, bodyCompleted in *.
      apply andb_prop in Fb as [F1 F2]. rewrite F1.
      destruct (BookingV3.throwsAt b) as [[ | | | ]|];
        try discriminate F2; reflexivity. }
    exact (proj1 (Among k Ck)).
Qed.

End FirstMatch.

(* ================================================================== *)
(** * The navigation loop stops *)
(* ================================================================== *)

Section NavigationStops.

Variable S : Type.
Variable dateText : S -> jsstring.
Variable click : BookingV2.Direction -> S -> bool * S.
Variable gameDate : Z.

Let patterns := BookingV2._buildDatePatterns gameDate.

(** From any value of [attempts] up to 90, fuel beyond the number of
    iterations left makes the loop return; the report counts at most
    those iterations, says [confirmed] only on a surface whose date text
    matches, and when the loop ran out without a failed click it ran all
    of them. *)
Ltac nav_fields :=
  cbn [BookingV2.iterations BookingV2.confirmed BookingV2.clickFailed
       BookingV2.surface].

Lemma navigateFrom_returns : forall fuel attempts n log s,
  0 <= attempts <= 90 ->
  (Z.to_nat (90 - attempts) < fuel)%nat ->
  exists r,
    BookingV2.navigateFrom dateText click gameDate fuel attempts n log s
    = Some r
    /\ (BookingV2.iterations r <= n + Z.to_nat (90 - attempts))%nat
    /\ (BookingV2.confirmed r = true ->
        BookingV2.clickFailed r = false
        /\ BookingV2._dateTextMatches (dateText (BookingV2.surface r))
                                      patterns = true)
    /\ (BookingV2.confirmed r = false ->
        BookingV2.clickFailed r = false ->
        BookingV2.iterations r = (n + Z.to_nat (90 - attempts))%nat)
    /\ ((forall s', BookingV2._dateTextMatches (dateText s') patterns = false)
        -> BookingV2.confirmed r = false).
Proof.
  induction fuel as [|fuel IH]; intros attempts n log s Ha Hf; [lia|].
  cbn [BookingV2.navigateFrom]. destruct (attempts <? 90) eqn:Lt.
  - apply Z.ltb_lt in Lt.
    destruct (BookingV2._dateTextMatches (dateText s)
                (BookingV2._buildDatePatterns gameDate)) eqn:Hm.
    + eexists. split; [reflexivity|]. nav_fields.
      split; [lia|]. split; [intros _; split; [reflexivity|exact Hm]|].
      split; [discriminate|].
      intros Never. unfold patterns in Never. now rewrite Never in Hm.
    + destruct (click _ s) as [[|] s'] eqn:Hc.
      * destruct (IH (attempts + 1) (Datatypes.S n)
                     (log ++ [match BookingV2._parseDateFromToolbar (dateText s) with
                              | Some d => if d <? gameDate
                                          then BookingV2.next else BookingV2.prev
                              | None => BookingV2.next
                              end]) s')
          as (r & Hr & Hi & Hc1 & Hc2 & Hn); [lia|lia|].
        exists r. split; [exact Hr|].
        replace (n + Z.to_nat (90 - attempts))%nat
          with (Datatypes.S n + Z.to_nat (90 - (attempts + 1)))%nat by lia.
        auto.
      * eexists. split; [reflexivity|]. nav_fields.
        split; [lia|]. split; [discriminate|].
        split; [discriminate|]. reflexivity.
  - apply Z.ltb_ge in Lt. eexists. split; [reflexivity|]. nav_fields.
    split; [lia|]. split; [discriminate|].
    split; [intros _ _; lia|]. reflexivity.
Qed.

(** More fuel never changes the result. *)
Lemma navigateFrom_fuel : forall fuel attempts n log s r,
  BookingV2.navigateFrom dateText click gameDate fuel attempts n log s = Some r ->
  forall fuel', (fuel <= fuel')%nat ->
  BookingV2.navigateFrom dateText click gameDate fuel' attempts n log s
  = Some r.
Proof.
  induction fuel as [|fuel IH]; intros attempts n log s r H fuel' Hle;
    [discriminate|].
  destruct fuel' as [|fuel']; [lia|]. cbn [BookingV2.navigateFrom] in *.
  destruct (attempts <? 90); [|exact H].
  destruct (BookingV2._dateTextMatches _ _); [exact H|].
  destruct (click _ s) as [[|] s']; [|exact H].
  apply (IH _ _ _ _ _ H). lia.
Qed.


End NavigationStops.


(* ================================================================== *)
(** * The retry loop *)
(* ================================================================== *)

Section RetryFacts.

Variable E : Type.
Variable R : Type.
Variable env_launch : E -> (jsstring + nat) * E.
Variable env_login : nat -> E -> (jsstring + unit) * E.
Variable env_close : nat -> E -> E.
Variable env_attempt : option nat -> E -> (jsstring + R) * E.
Variable failure : jsstring -> R.

Let retrying :=
  BookingV3.retrying env_launch env_login env_close env_attempt failure.

Let booker (b : option nat) (e : E) (t : list BookingV3.Event) :=
  {| BookingV3.browser := b; BookingV3.env := e; BookingV3.trace := t |}.

Ltac retry_unfold :=
  cbv [retrying booker BookingV3.retrying BookingV3.retryFrom
       BookingV3.attempt_body BookingV3.try_catch BookingV3.bind
       BookingV3.ret BookingV3.attempt_once BookingV3.close
       BookingV3.initialize BookingV3.MAX_RETRIES
       BookingV3.browser BookingV3.env BookingV3.trace
       Z.gtb Z.eqb Z.leb Z.compare Pos.compare Pos.compare_cont
       Z.add Pos.add Pos.succ Pos.eqb].

(** The first attempt returns: its value is the result, nothing else
    runs. *)
Lemma retry_first_attempt_returns fuel b e t r e1 :
  env_attempt b e = (inr r, e1) ->
  retrying (S fuel) (booker b e t)
  = Some (inr (Some r), booker b e1 (t ++ [BookingV3.Attempted b])).
Proof. intros H. retry_unfold. rewrite H. reflexivity. Qed.

(** The first attempt throws, the session is closed and a new one
    initialized, and the second attempt decides: its value, or the
    failure that carries its message. *)
Lemma retry_second_attempt fuel b0 e t m1 e1 b1 e2 e3 res e4 :
  env_attempt (Some b0) e = (inl m1, e1) ->
  env_launch (env_close b0 e1) = (inr b1, e2) ->
  env_login b1 e2 = (inr tt, e3) ->
  env_attempt (Some b1) e3 = (res, e4) ->
  retrying (S (S fuel)) (booker (Some b0) e t)
  = Some (inr (Some (match res with
                     | inr r => r
                     | inl m2 => failure m2
                     end)),
          booker (Some b1) e4
                 (t ++ [BookingV3.Attempted (Some b0); BookingV3.Closed b0;
                        BookingV3.Launched b1;
                        BookingV3.Attempted (Some b1)])).
Proof.
  intros H1 H2 H3 H4. retry_unfold. rewrite H1.
  retry_unfold. rewrite H2, H3. cbn [BookingV3.browser BookingV3.env
                                      BookingV3.trace].
  rewrite H4. rewrite <- !app_assoc. destruct res; reflexivity.
Qed.

(** The first attempt throws and the new session cannot be set up: the
    failure carries the message of [initialize], and no second run
    happens. *)
Lemma retry_initialize_throws fuel b0 e t m1 e1 :
  env_attempt (Some b0) e = (inl m1, e1) ->
  forall m e2,
    (env_launch (env_close b0 e1) = (inl m, e2)
     \/ exists b1 e', env_launch (env_close b0 e1) = (inr b1, e')
                      /\ env_login b1 e' = (inl m, e2)) ->
    exists w',
      retrying (S (S fuel)) (booker (Some b0) e t)
      = Some (inr (Some (failure m)), w')
      /\ attemptsIn (BookingV3.trace w') = (attemptsIn t + 1)%nat.
Proof.
  intros H1 m e2 [H2|(b1 & e' & H2 & H3)]; retry_unfold; rewrite H1;
    retry_unfold; rewrite H2; try rewrite H3;
    eexists; (split; [reflexivity|]);
    cbn [BookingV3.trace]; unfold attemptsIn;
    rewrite <- ?app_assoc, !filter_app, !length_app; simpl; lia.
Qed.

(** The loop always returns a value: it neither throws nor falls out of
    the loop, three evaluations of its test are always enough, and it
    runs the attempt once or twice. *)
Lemma retry_returns fuel (w : BookingV3.Booker E) :
  exists r w',
    retrying (S (S (S fuel))) w = Some (inr (Some r), w')
    /\ retrying 3 w = Some (inr (Some r), w')
    /\ (attemptsIn (BookingV3.trace w) + 1
        <= attemptsIn (BookingV3.trace w')
        <= attemptsIn (BookingV3.trace w) + 2)%nat.
Proof.
  destruct w as [b e t]. retry_unfold.
  destruct (env_attempt b e) as [[m1|r] e1].
  - retry_unfold.
    destruct b as [b0|]; cbn [BookingV3.browser BookingV3.env BookingV3.trace].
    + destruct (env_launch (env_close b0 e1)) as [[m|b1] e2].
      * eexists _, _. split; [reflexivity|]. split; [reflexivity|].
        cbn [BookingV3.trace]. unfold attemptsIn.
        rewrite !filter_app, !length_app. simpl. lia.
      * destruct (env_login b1 e2) as [[m|[]] e3].
        -- eexists _, _. split; [reflexivity|]. split; [reflexivity|].
           cbn [BookingV3.trace]. unfold attemptsIn.
           rewrite !filter_app, !length_app. simpl. lia.
        -- cbn [BookingV3.browser BookingV3.env BookingV3.trace].
           destruct (env_attempt (Some b1) e3) as [[m2|r2] e4];
             (eexists _, _; split; [reflexivity|]; split; [reflexivity|]);
             cbn [BookingV3.trace]; unfold attemptsIn;
             rewrite !filter_app, !length_app; simpl; lia.
    + destruct (env_launch e1) as [[m|b1] e2].
      * eexists _, _. split; [reflexivity|]. split; [reflexivity|].
        cbn [BookingV3.trace]. unfold attemptsIn.
        rewrite !filter_app, !length_app. simpl. lia.
      * destruct (env_login b1 e2) as [[m|[]] e3].
        -- eexists _, _. split; [reflexivity|]. split; [reflexivity|].
           cbn [BookingV3.trace]. unfold attemptsIn.
           rewrite !filter_app, !length_app. simpl. lia.
        -- cbn [BookingV3.browser BookingV3.env BookingV3.trace].
           destruct (env_attempt (Some b1) e3) as [[m2|r2] e4];
             (eexists _, _; split; [reflexivity|]; split; [reflexivity|]);
             cbn [BookingV3.trace]; unfold attemptsIn;
             rewrite !filter_app, !length_app; simpl; lia.
  - eexists _, _. split; [reflexivity|]. split; [reflexivity|].
    cbn [BookingV3.trace]. unfold attemptsIn.
    rewrite !filter_app, !length_app. simpl. lia.
Qed.

End RetryFacts.

Section RetryEntryPoints.

Variable E : Type.
Variable env_launch : E -> (jsstring + nat) * E.
Variable env_login : nat -> E -> (jsstring + unit) * E.
Variable env_close : nat -> E -> E.

(** C6.  [bookCourt] and [checkAvailability] run their attempt at most
    twice and always return a value.  When the first attempt throws, the
    browser is closed and a new one initialized before the second
    attempt; the result is the value of the second attempt when it
    returns.  When the second attempt throws as well, the value returned
    has [success] false (for a check, [status] ['error']) and carries
    the message of the second failure, the attempt has run exactly twice
    and nothing runs after it. *)
Theorem retry_two_attempts
        (_doBookCourt :
           option nat -> E -> (jsstring + BookingV3.BookingOutcome) * E)
        (_doCheckAvailability :
           option nat -> E -> (jsstring + Availability.Outcome) * E) :
  two_attempts_policy E env_launch env_login env_close
    BookingV3.BookingOutcome
    (BookingV3.bookCourt env_launch env_login env_close _doBookCourt)
    _doBookCourt BookingV3.bookingFailure
  /\ two_attempts_policy E env_launch env_login env_close
       Availability.Outcome
       (BookingV3.checkAvailability env_launch env_login env_close
                                    _doCheckAvailability)
       _doCheckAvailability BookingV3.checkFailure
  /\ (forall fuel b0 e t m1 e1 b1 e2 e3 m2 e4,
         _doBookCourt (Some b0) e = (inl m1, e1) ->
         env_launch (env_close b0 e1) = (inr b1, e2) ->
         env_login b1 e2 = (inr tt, e3) ->
         _doBookCourt (Some b1) e3 = (inl m2, e4) ->
         exists r w',
           BookingV3.bookCourt env_launch env_login env_close _doBookCourt
             (2 + fuel)%nat
             {| BookingV3.browser := Some b0; BookingV3.env := e;
                BookingV3.trace := t |}
           = Some (inr (Some r), w')
           /\ BookingV3.success r = false
           /\ BookingV3.alreadyBooked r = false
           /\ BookingV3.message r = None
           /\ BookingV3.error_message r = Some m2
           /\ BookingV3.env w' = e4
           /\ BookingV3.trace w'
              = t ++ [BookingV3.Attempted (Some b0); BookingV3.Closed b0;
                      BookingV3.Launched b1; BookingV3.Attempted (Some b1)]
           /\ attemptsIn (BookingV3.trace w') = (attemptsIn t + 2)%nat)
  /\ (forall fuel b0 e t m1 e1 b1 e2 e3 m2 e4,
         _doCheckAvailability (Some b0) e = (inl m1, e1) ->
         env_launch (env_close b0 e1) = (inr b1, e2) ->
         env_login b1 e2 = (inr tt, e3) ->
         _doCheckAvailability (Some b1) e3 = (inl m2, e4) ->
         exists r w',
           BookingV3.checkAvailability env_launch env_login env_close
             _doCheckAvailability (2 + fuel)%nat
             {| BookingV3.browser := Some b0; BookingV3.env := e;
                BookingV3.trace := t |}
           = Some (inr (Some r), w')
           /\ Availability.status r = error m2
           /\ BookingV3.env w' = e4
           /\ BookingV3.trace w'
              = t ++ [BookingV3.Attempted (Some b0); BookingV3.Closed b0;
                      BookingV3.Launched b1; BookingV3.Attempted (Some b1)]
           /\ attemptsIn (BookingV3.trace w') = (attemptsIn t + 2)%nat).
Proof.
  assert (Twice : forall t b0 b1,
            attemptsIn (t ++ [BookingV3.Attempted (Some b0);
                              BookingV3.Closed b0; BookingV3.Launched b1;
                              BookingV3.Attempted (Some b1)])
            = (attemptsIn t + 2)%nat).
  { intros. unfold attemptsIn. rewrite filter_app, length_app.
    reflexivity. }
  split; [|split; [|split]].
  - split; [|split].
    + intros. apply retry_returns.
    + intros. now apply retry_first_attempt_returns.
    + intros. eapply retry_second_attempt; eassumption.
  - split; [|split].
    + intros. apply retry_returns.
    + intros. now apply retry_first_attempt_returns.
    + intros. eapply retry_second_attempt; eassumption.
  - intros fuel b0 e t m1 e1 b1 e2 e3 m2 e4 H1 H2 H3 H4.
    eexists _, _. split.
    + exact (retry_second_attempt E BookingV3.BookingOutcome env_launch
               env_login env_close _doBookCourt BookingV3.bookingFailure
               fuel b0 e t m1 e1 b1 e2 e3 (inl m2) e4 H1 H2 H3 H4).
    + cbn [BookingV3.bookingFailure BookingV3.success
           BookingV3.alreadyBooked BookingV3.message
           BookingV3.error_message BookingV3.env BookingV3.trace].
      rewrite Twice. repeat split.
  - intros fuel b0 e t m1 e1 b1 e2 e3 m2 e4 H1 H2 H3 H4.
    eexists _, _. split.
    + exact (retry_second_attempt E Availability.Outcome env_launch
               env_login env_close _doCheckAvailability
               BookingV3.checkFailure
               fuel b0 e t m1 e1 b1 e2 e3 (inl m2) e4 H1 H2 H3 H4).
    + cbn [BookingV3.checkFailure Availability.status BookingV3.env
           BookingV3.trace].
      rewrite Twice. repeat split.
Qed.

End RetryEntryPoints.

(** The theorem on that site: the booking succeeds at the second
    attempt, on the browser launched after the first one was closed; the
    check fails twice and reports the second message; and a booking that
    fails twice returns [success] false with the message of the second
    failure, after two runs. *)
Lemma retry_two_attempts_on_flaky_site :
  BookingV3.bookCourt (fun n => (inr 7%nat, n)) (fun _ n => (inr tt, n))
                      (fun _ n => n) flakyBook 3
    {| BookingV3.browser := Some 1%nat; BookingV3.env := O;
       BookingV3.trace := [] |}
  = Some (inr (Some booked),
          {| BookingV3.browser := Some 7%nat; BookingV3.env := 2%nat;
             BookingV3.trace :=
               [BookingV3.Attempted (Some 1%nat); BookingV3.Closed 1;
                BookingV3.Launched 7; BookingV3.Attempted (Some 7%nat)] |})
  /\ BookingV3.checkAvailability (fun n => (inr 7%nat, n))
       (fun _ n => (inr tt, n)) (fun _ n => n) neverChecks 3
       {| BookingV3.browser := Some 1%nat; BookingV3.env := O;
          BookingV3.trace := [] |}
     = Some (inr (Some (BookingV3.checkFailure
                          (lit "Timeout 30000ms exceeded"))),
             {| BookingV3.browser := Some 7%nat; BookingV3.env := 2%nat;
                BookingV3.trace :=
                  [BookingV3.Attempted (Some 1%nat); BookingV3.Closed 1;
                   BookingV3.Launched 7;
                   BookingV3.Attempted (Some 7%nat)] |})
  /\ (exists r w',
        BookingV3.bookCourt (fun n => (inr 7%nat, n))
          (fun _ n => (inr tt, n)) (fun _ n => n) neverBooks 3
          {| BookingV3.browser := Some 1%nat; BookingV3.env := O;
             BookingV3.trace := [] |}
        = Some (inr (Some r), w')
        /\ BookingV3.success r = false
        /\ BookingV3.error_message r = Some (lit "Timeout 30000ms exceeded")
        /\ attemptsIn (BookingV3.trace w') = 2%nat)
  /\ (exists r w',
        BookingV3.checkAvailability (fun n => (inr 7%nat, n))
          (fun _ n => (inr tt, n)) (fun _ n => n) neverChecks 3
          {| BookingV3.browser := Some 1%nat; BookingV3.env := O;
             BookingV3.trace := [] |}
        = Some (inr (Some r), w')
        /\ Availability.status r = error (lit "Timeout 30000ms exceeded")
        /\ attemptsIn (BookingV3.trace w') = 2%nat).
Proof.
  destruct (retry_two_attempts nat (fun n => (inr 7%nat, n))
              (fun _ n => (inr tt, n)) (fun _ n => n) flakyBook neverChecks)
    as [(_ & _ & B) [(_ & _ & C) [_ CF]]].
  destruct (retry_two_attempts nat (fun n => (inr 7%nat, n))
              (fun _ n => (inr tt, n)) (fun _ n => n) neverBooks neverChecks)
    as [_ [_ [BF _]]].
  split; [|split; [|split]].
  - apply (B 1%nat 1%nat O []
             (lit "Target page, context or browser has been closed")
             1%nat 7%nat 1%nat 1%nat (inr booked) 2%nat);
      reflexivity.
  - apply (C 1%nat 1%nat O [] (lit "Timeout 30000ms exceeded")
             1%nat 7%nat 1%nat 1%nat
             (inl (lit "Timeout 30000ms exceeded")) 2%nat);
      reflexivity.
  - destruct (BF 1%nat 1%nat O []
                (lit "Target page, context or browser has been closed")
                1%nat 7%nat 1%nat 1%nat
                (lit "Timeout 30000ms exceeded") 2%nat
                eq_refl eq_refl eq_refl eq_refl)
      as (r & w' & H & S1 & _ & _ & S2 & _ & _ & S3).
    exists r, w'. repeat split; assumption.
  - destruct (CF 1%nat 1%nat O [] (lit "Timeout 30000ms exceeded")
                1%nat 7%nat 1%nat 1%nat
                (lit "Timeout 30000ms exceeded") 2%nat
                eq_refl eq_refl eq_refl eq_refl)
      as (r & w' & H & S1 & _ & _ & S3).
    exists r, w'. repeat split; assumption.
Defined.

(* ================================================================== *)
(** * Two matching candidates *)
(* ================================================================== *)

(** C10 as stated fails in [_doBookCourt]: both buttons match 9 PM, the
    click on the first throws and is swallowed, the scan goes on and the
    second button is the one clicked.  When the click on the first goes
    through and the wait after it throws, both buttons are clicked; and
    a first match that cannot be scrolled to is passed over without a
    click. *)
Lemma second_match_clicked_when_first_throws :
  BookingV2.findIndex (BookingV3.matchesTime 21) coveredThenFree = Some 0%nat
  /\ BookingV3.clickLoop 21 0 coveredThenFree
     = {| BookingV3.called := [0; 1]%nat; BookingV3.clicked := [1%nat];
          BookingV3.timeSlotClicked := true; BookingV3.visited := 2 |}
  /\ BookingV3.clicked (BookingV3.clickLoop 21 0 coveredThenFree)
     <> [0%nat]
  /\ BookingV3.clickLoop 21 0 clickedThenFree
     = {| BookingV3.called := [0; 1]%nat; BookingV3.clicked := [0; 1]%nat;
          BookingV3.timeSlotClicked := true; BookingV3.visited := 2 |}
  /\ BookingV3.clickLoop 21 0 hiddenThenFree
     = {| BookingV3.called := [1%nat]; BookingV3.clicked := [1%nat];
          BookingV3.timeSlotClicked := true; BookingV3.visited := 2 |}.
Proof.
  split; [vm_compute; reflexivity|].
  split; [vm_compute; reflexivity|].
  split; [vm_compute; discriminate|].
  split; vm_compute; reflexivity.
Qed.

(** The theorem on these two rows. *)
Lemma first_matching_candidate_of_two :
  BookingV2.targetSlotIndex
    (BookingV2._getAllSlotButtons (BookingV2.buttons twoCourts))
    (BookingV2.buildTimeMatchData 21 (lit "00"))
  = Z.of_nat 0
  /\ BookingV2.bookCourt_slot twoCourts
       (BookingV2.buildTimeMatchData 21 (lit "00"))
     = BookingV2.Click (Z.of_nat 0)
                       (nth_error (BookingV2.buttons twoCourts) 0)
  /\ BookingV3.visited (BookingV3.clickLoop 21 0 hiddenThenFree) = 2%nat
  /\ BookingV3.called (BookingV3.clickLoop 21 0 hiddenThenFree)
     = positions (clickCalled 21) 0 (firstn 2 hiddenThenFree)
  /\ BookingV3.clicked (BookingV3.clickLoop 21 0 hiddenThenFree)
     = positions (clickCompleted 21) 0 (firstn 2 hiddenThenFree)
  /\ BookingV3.timeSlotClicked (BookingV3.clickLoop 21 0 hiddenThenFree)
     = true
  /\ In 1%nat (BookingV3.clicked (BookingV3.clickLoop 21 0 hiddenThenFree))
  /\ (forall p,
         In p (BookingV3.called (BookingV3.clickLoop 21 0 hiddenThenFree)) ->
         (0 <= p <= 1)%nat)
  /\ (0 <= 1)%nat.
Proof.
  apply (first_matching_candidate twoCourts
           (BookingV2.buildTimeMatchData 21 (lit "00"))
           21 hiddenThenFree 0 0 1).
  - vm_compute. reflexivity.
  - apply findIndex_is_first. vm_compute. reflexivity.
  - apply findIndex_is_first. vm_compute. reflexivity.
  - apply findIndex_is_first. vm_compute. reflexivity.
Defined.
(* ================================================================== *)
(** * The matcher finds a match whenever there is one *)
(* ================================================================== *)

Section MatcherCompleteness.

Lemma orelse_left {A} (x y : option A) : succeeds x -> succeeds (orelse x y).
Proof. intros [a ->]. exists a. reflexivity. Qed.

Lemma orelse_right {A} (x y : option A) : succeeds y -> succeeds (orelse x y).
Proof. intros [a ->]. destruct x as [b|]; [exists b | exists a]; reflexivity. Qed.

Lemma star_loop_complete (r : regex) :
  complete_for r ->
  forall r' b w a c c',
    matches r' b w a c c' -> r' = Star r ->
    forall k fuel,
      (List.length (w ++ a) <= fuel)%nat ->
      succeeds (k (MState (rev w ++ b) a c')) ->
      succeeds (star_loop (rmatch r) k fuel (MState b (w ++ a) c)).
Proof.
  intros Hr r' b w a c c' M.
  induction M; intros E k fuel Hf Hk; try discriminate E.
  - destruct fuel; cbn [star_loop]; [exact Hk | apply orelse_right; exact Hk].
  - injection E as ->.
    destruct fuel as [|f].
    { destruct w1; [congruence | rewrite !length_app in Hf; cbn [List.length] in Hf; lia]. }
    cbn [star_loop]. apply orelse_left.
    rewrite <- app_assoc.
    apply (Hr b w1 (w2 ++ a) c c1); [exact M1 |].
    cbn [rest].
    replace (List.length (w2 ++ a) <? List.length (w1 ++ w2 ++ a))%nat with true.
    2:{ symmetry. apply Nat.ltb_lt. rewrite (length_app w1).
        destruct w1; [congruence | cbn; lia]. }
    apply IHM2; [reflexivity | |].
    + rewrite <- app_assoc, (length_app w1) in Hf.
      destruct w1; [congruence | cbn [List.length] in Hf; lia].
    + rewrite rev_app_distr, <- app_assoc in Hk. exact Hk.
Qed.

Lemma rmatch_complete (r : regex) : complete_for r.
Proof.
  induction r as [|p|r1 IH1 r2 IH2|r1 IH1 r2 IH2|r1 IH1|n r1 IH1| | | |ps];
    intros b w a c c' k M Hk.
  - inversion M; subst. exact Hk.
  - inversion M; subst. cbn.
    match goal with H : p _ = true |- _ => rewrite H end. exact Hk.
  - inversion M; subst. cbn [rmatch]. rewrite <- app_assoc.
    eapply IH1; [eassumption |].
    eapply IH2; [eassumption |].
    rewrite rev_app_distr, <- app_assoc in Hk. exact Hk.
  - inversion M; subst; cbn [rmatch].
    + apply orelse_left. eapply IH1; eassumption.
    + apply orelse_right. eapply IH2; eassumption.
  - cbn [rmatch rest].
    eapply star_loop_complete; [exact IH1 | exact M | reflexivity | lia | exact Hk].
  - inversion M; subst. cbn [rmatch].
    eapply IH1; [eassumption |].
    cbn [rest before caps].
    replace (firstn (List.length (w ++ a) - List.length a) (w ++ a)) with w; [exact Hk |].
    rewrite length_app, Nat.add_sub, firstn_app, Nat.sub_diag, firstn_all.
    cbn. rewrite app_nil_r. reflexivity.
  - inversion M; subst. exact Hk.
  - inversion M; subst. exact Hk.
  - inversion M; subst. cbn. cbn in Hk.
    match goal with H : xorb _ _ = true |- _ => rewrite H end. exact Hk.
  - inversion M; subst. cbn. cbn in Hk.
    match goal with H : behind _ _ = false |- _ => rewrite H end. exact Hk.
Qed.

Lemma search_complete (r : regex) (pre : jsstring) :
  forall b w a c',
    matches r (rev pre ++ b) w a [] c' ->
    succeeds (search r b (pre ++ w ++ a)).
Proof.
  induction pre as [|x pre IH]; intros b w a c' M.
  - cbn [app rev] in *.
    assert (S : succeeds (rmatch r (MState b (w ++ a) []) Some)).
    { eapply (rmatch_complete r); [exact M | eexists; reflexivity]. }
    destruct S as [st S].
    destruct (w ++ a); cbn [search]; rewrite S; eexists; reflexivity.
  - cbn [app search].
    destruct (rmatch r (MState b (x :: pre ++ w ++ a) []) Some) as [st|];
      [eexists; reflexivity |].
    apply (IH (x :: b) w a c').
    cbn [rev] in M. rewrite <- app_assoc in M. exact M.
Qed.

Lemma test_complete (r : regex) (pre w a : jsstring) (c' : captures) :
  matches r (rev pre) w a [] c' -> test r (pre ++ w ++ a) = true.
Proof.
  intros M. unfold test.
  destruct (search_complete r pre [] w a c') as [st ->];
    [rewrite app_nil_r; exact M | reflexivity].
Qed.

Lemma exec_complete (r : regex) (pre w a : jsstring) (c' : captures) :
  matches r (rev pre) w a [] c' -> exists m, exec r (pre ++ w ++ a) = Some m.
Proof.
  intros M. unfold exec.
  destruct (search_complete r pre [] w a c') as [st ->];
    [rewrite app_nil_r; exact M | eexists; reflexivity].
Qed.

(** A match of a pattern without its groups is a match of the pattern,
    and where nothing looks at the context, in every context. *)
Lemma star_regroup (r : regex) :
  regroups r ->
  forall r0 b w a c c',
    matches r0 b w a c c' -> r0 = Star (strip r) ->
    forall b' a' d, exists d', matches (Star r) b' w a' d d'.
Proof.
  intros Hr r0 b w a c c' M.
  induction M; intros E b' a' d; try discriminate E.
  - exists d. constructor.
  - injection E as ->.
    destruct (Hr _ _ _ _ _ M1 b' (w2 ++ a') d) as [d1 N1].
    destruct (IHM2 eq_refl (rev w1 ++ b') a' d1) as [d2 N2].
    exists d2. econstructor; eassumption.
Qed.

Lemma matches_regroup (r : regex) : context_free r = true -> regroups r.
Proof.
  induction r as [|p|r1 IH1 r2 IH2|r1 IH1 r2 IH2|r1 IH1|n r1 IH1| | | |ps];
    cbn [context_free strip]; intros CF b w a c c' M b' a' d;
    try discriminate CF.
  - inversion M; subst. exists d. constructor.
  - inversion M; subst. exists d. constructor. assumption.
  - apply andb_prop in CF as [CF1 CF2]. inversion M; subst.
    match goal with
    | H1 : matches (strip r1) _ _ _ _ _, H2 : matches (strip r2) _ _ _ _ _ |- _ =>
        destruct (IH1 CF1 _ _ _ _ _ H1 b' (w2 ++ a') d) as [d1 N1];
        destruct (IH2 CF2 _ _ _ _ _ H2 (rev w1 ++ b') a' d1) as [d2 N2]
    end.
    exists d2. econstructor; eassumption.
  - apply andb_prop in CF as [CF1 CF2]. inversion M; subst.
    + match goal with H1 : matches (strip r1) _ _ _ _ _ |- _ =>
        destruct (IH1 CF1 _ _ _ _ _ H1 b' a' d) as [d1 N1] end.
      exists d1. apply M_AltL. exact N1.
    + match goal with H1 : matches (strip r2) _ _ _ _ _ |- _ =>
        destruct (IH2 CF2 _ _ _ _ _ H1 b' a' d) as [d1 N1] end.
      exists d1. apply M_AltR. exact N1.
  - exact (star_regroup r1 (IH1 CF) _ _ _ _ _ _ M eq_refl b' a' d).
  - destruct (IH1 CF _ _ _ _ _ M b' a' d) as [d1 N1].
    exists ((n, w) :: d1). constructor. exact N1.
Qed.

End MatcherCompleteness.

(* ================================================================== *)
(** * What the commands and announcements hand on *)
(* ================================================================== *)

Section ParsedTexts.

Import Messages.

Ltac inv H := inversion H; subst; clear H.

(** Split a sequence whose first part has no group. *)
Ltac seq_plain :=
  match goal with
  | H : matches (Seq _ _) _ _ _ _ _ |- _ =>
      inversion H; subst; clear H;
      match goal with
      | H1 : matches _ _ _ (_ ++ _) ?c ?c1 |- _ =>
          apply matches_no_groups in H1; [subst c1 | reflexivity]
      end
  end.

(** Split a sequence whose first part is a group. *)
Ltac seq_group :=
  match goal with
  | H : matches (Seq (Group _ _) _) _ _ _ _ _ |- _ =>
      inversion H; subst; clear H;
      match goal with
      | H1 : matches (Group _ _) _ _ _ _ _ |- _ =>
          inversion H1; subst; clear H1
      end
  end.

Lemma timeText_parses (b w a : jsstring) (c c' : captures) :
  matches timeText b w a c c' -> exists r, parseTimeRange w = Some r.
Proof.
  intros M.
  destruct (matches_regroup timeRangeRegex eq_refl _ _ _ _ _ M [] [] []) as [d N].
  destruct (exec_complete timeRangeRegex [] w [] d N) as [m E].
  cbn [app] in E. rewrite app_nil_r in E.
  destruct (timeParts_total_on_match w m E) as [p P].
  exists (render p). unfold parseTimeRange. rewrite P. reflexivity.
Qed.

Lemma timeText_nonempty (b w a : jsstring) (c c' : captures) :
  matches timeText b w a c c' -> c' = c /\ or_default (Some w) [] = w.
Proof.
  intros M. split; [exact (matches_no_groups _ _ _ _ _ _ M eq_refl)|].
  unfold timeText, seqs, d12, digit in M.
  inversion M; subst. 
  match goal with H : matches (Seq (Chr _) _) _ _ _ _ _ |- _ => inversion H; subst end.
  match goal with H : matches (Chr _) _ _ _ _ _ |- _ => inversion H; subst end.
  reflexivity.
Qed.

Lemma digits12_no_slash (g : jsstring) :
  digits12 g = true ->
  forallb (fun c => negb (char_eqb c (ch "/"))) g = true.
Proof.
  intros D. apply forallb_forall. intros x Hx.
  assert (Dx : is_digit x = true).
  { destruct g as [|y [|z [|u g]]]; cbn in D; try discriminate.
    - destruct Hx as [<-|[]]. exact D.
    - apply andb_prop in D as [Dy Dz].
      destruct Hx as [<- | [<- | []]]; assumption. }
  unfold is_digit in Dx. apply andb_prop in Dx as [L U].
  apply N.leb_le in L, U. apply negb_true_iff, N.eqb_neq.
  unfold ch. cbn. lia.
Qed.

Lemma slash_cases (f : char -> char -> bool) (x : char) :
  f = ci \/ f = cs -> f (ch "/") x = true -> x = ch "/".
Proof.
  intros [-> | ->]; unfold ci, cs, char_eqb, fold_case, is_lower, ch; cbn;
    intros H.
  - destruct ((97 <=? x)%N && (x <=? 122)%N) eqn:E; apply N.eqb_eq in H.
    + apply andb_prop in E as [E1 E2]. apply N.leb_le in E1, E2. lia.
    + exact H.
  - apply N.eqb_eq in H. exact H.
Qed.

Lemma dateText_shape (f : char -> char -> bool) (b w a : jsstring)
      (c c' : captures) :
  f = ci \/ f = cs ->
  matches (dateText f) b w a c c' ->
  exists g1 g2,
    w = g1 ++ ch "/" :: g2 /\ digits12 g1 = true /\ digits12 g2 = true
    /\ c' = c.
Proof.
  intros Hf M. unfold dateText, seqs in M.
  inversion M; subst; clear M.
  match goal with H : matches d12 _ ?g _ _ _ |- _ =>
    apply matches_d12 in H; destruct H as [D1 ->]; exists g end.
  match goal with H : matches (Seq _ _) _ _ _ _ _ |- _ => inversion H; subst; clear H end.
  match goal with H : matches (Chr _) _ _ _ _ _ |- _ => inversion H; subst; clear H end.
  match goal with H : matches d12 _ ?g _ _ _ |- _ =>
    apply matches_d12 in H; destruct H as [D2 ->]; exists g end.
  match goal with H : f _ ?x = true |- _ => apply (slash_cases f x Hf) in H; subst x end.
  repeat split; assumption.
Qed.

Lemma dateText_resolves (f : char -> char -> bool) (b w a : jsstring)
      (c c' : captures) :
  f = ci \/ f = cs ->
  matches (dateText f) b w a c c' ->
  c' = c /\ or_default (Some w) [] = w
  /\ exists month day,
       0 <= month <= 99 /\ 0 <= day <= 99
       /\ forall now, formatDateForBooking now w = Some (gameDateFor now month day).
Proof.
  intros Hf M.
  destruct (dateText_shape f b w a c c' Hf M) as (g1 & g2 & -> & D1 & D2 & ->).
  split; [reflexivity|]. split.
  { destruct g1; [discriminate D1 | reflexivity]. }
  destruct (parseInt_digits12 g1 D1) as (month & P1 & B1).
  destruct (parseInt_digits12 g2 D2) as (day & P2 & B2).
  exists month, day. repeat split; try lia.
  intros now. unfold formatDateForBooking.
  destruct (split_on_fields (ch "/") g1 g2 (digits12_no_slash g1 D1)) as [F0 F1].
  pose proof (split_on_no_separator (ch "/") g2 (digits12_no_slash g2 D2)) as F2.
  rewrite F2 in F1.
  destruct (split_on (ch "/") (g1 ++ ch "/" :: g2)) as [|x0 [|x1 xs]];
    cbn [nth nth_error] in F0, F1; try discriminate.
  injection F1 as ->. subst x0. cbn [map]. rewrite P1, P2. reflexivity.
Qed.

Lemma checkCommand_captures (b w a : jsstring) (m : captures) :
  matches checkCommandRegex b w a [] m ->
  exists wd wt b1 a1 b2 a2,
    matches (dateText ci) b1 wd a1 [] [] 
    /\ matches timeText b2 wt a2 [(1%nat, wd)] [(1%nat, wd)]
    /\ m = [(2%nat, wt); (1%nat, wd)].
Proof.
  unfold checkCommandRegex, seqs. intros M.
  do 3 seq_plain. seq_group.
  seq_plain.
  match goal with H : matches (Group _ _) _ _ _ _ _ |- _ => inversion H; subst; clear H end.
  match goal with H : matches (dateText _) _ _ _ _ _ |- _ =>
    pose proof (matches_no_groups _ _ _ _ _ _ H eq_refl); subst end.
  match goal with H : matches timeText _ _ _ _ _ |- _ =>
    pose proof (matches_no_groups _ _ _ _ _ _ H eq_refl); subst end.
  eexists _, _, _, _, _, _. repeat split; eassumption.
Qed.

Lemma announcement_captures (b w a : jsstring) (m : captures) :
  matches gameAnnouncementPattern b w a [] m ->
  exists wd wt b1 a1 b2 a2 c,
    matches (dateText ci) b1 wd a1 [] []
    /\ matches timeText b2 wt a2 c c
    /\ group m 1 = Some wd /\ group m 3 = Some wt.
Proof.
  unfold gameAnnouncementPattern, seqs. intros M.
  do 2 seq_plain. seq_group. seq_plain. seq_group. seq_plain. seq_group.
  do 2 seq_plain. seq_group.
  repeat match goal with
  | H : matches (dateText _) _ _ _ _ _ |- _ =>
      pose proof (matches_no_groups _ _ _ _ _ _ H eq_refl); subst;
      revert H
  | H : matches timeText _ _ _ _ _ |- _ =>
      pose proof (matches_no_groups _ _ _ _ _ _ H eq_refl); subst;
      revert H
  | H : matches _ _ _ _ _ _ |- _ =>
      apply matches_no_groups in H; [subst | reflexivity]
  end.
  intros T D.
  eexists _, _, _, _, _, _, _. split; [exact D|]. split; [exact T|].
  split; reflexivity.
Qed.

(** X1.  Whatever [parseCheckCommand] extracts, [parseTimeRange] accepts the
    time and [formatDateForBooking] yields a date: the replies of
    [handleCheckCommand] for a time that cannot be parsed are never
    sent, and the month and day numbers are below 100. *)
Theorem parseCheckCommand_parts_parse (messageText date time : jsstring) :
  parseCheckCommand messageText = Some (date, time) ->
  (exists range, parseTimeRange time = Some range)
  /\ exists month day,
       0 <= month <= 99 /\ 0 <= day <= 99
       /\ forall now,
            formatDateForBooking now date = Some (gameDateFor now month day).
Proof.
  unfold parseCheckCommand. intros H.
  destruct (exec checkCommandRegex (trim messageText)) as [m|] eqn:E;
    [|discriminate].
  injection H as <- <-.
  apply exec_sound in E. destruct E as (pre & w & a & _ & M).
  apply checkCommand_captures in M.
  destruct M as (wd & wt & b1 & a1 & b2 & a2 & MD & MT & ->).
  cbn [group Nat.eqb].
  destruct (timeText_nonempty _ _ _ _ _ MT) as [_ ->].
  destruct (dateText_resolves ci _ _ _ _ _ (or_introl eq_refl) MD)
    as (_ & -> & R).
  split; [exact (timeText_parses _ _ _ _ _ MT) | exact R].
Qed.

Lemma parseCheckCommand_parts_parse_example :
  parseCheckCommand (lit " !check 2/24 9-11p ") = Some (lit "2/24", lit "9-11p")
  /\ (exists range, parseTimeRange (lit "9-11p") = Some range)
  /\ exists month day,
       0 <= month <= 99 /\ 0 <= day <= 99
       /\ forall now,
            formatDateForBooking now (lit "2/24") = Some (gameDateFor now month day).
Proof.
  split; [vm_compute; reflexivity|].
  apply (parseCheckCommand_parts_parse (lit " !check 2/24 9-11p ")).
  vm_compute. reflexivity.
Defined.

(** X2.  The same for announcements, whichever of the two ways
    [parseGameAnnouncement] read the message: the time it returns is one
    [parseTimeRange] accepts and the date one [formatDateForBooking]
    resolves. *)
Theorem parseGameAnnouncement_parts_parse (messageText : jsstring)
        (info : GameInfo) :
  parseGameAnnouncement messageText = Some info ->
  (exists range, parseTimeRange (time info) = Some range)
  /\ exists month day,
       0 <= month <= 99 /\ 0 <= day <= 99
       /\ forall now,
            formatDateForBooking now (date info)
            = Some (gameDateFor now month day).
Proof.
  unfold parseGameAnnouncement. intros H.
  destruct (exec gameAnnouncementPattern messageText) as [m|] eqn:E.
  - injection H as <-. cbn [time date].
    apply exec_sound in E. destruct E as (pre & w & a & _ & M).
    apply announcement_captures in M.
    destruct M as (wd & wt & b1 & a1 & b2 & a2 & c & MD & MT & -> & ->).
    destruct (timeText_nonempty _ _ _ _ _ MT) as [_ ->].
    destruct (dateText_resolves ci _ _ _ _ _ (or_introl eq_refl) MD)
      as (_ & -> & R).
    split; [exact (timeText_parses _ _ _ _ _ MT) | exact R].
  - cbv zeta in H.
    destruct (exec (Group 1 (dateText cs)) _) as [dm|] eqn:ED; [|discriminate].
    destruct (exec (Group 1 timeText) _) as [tm|] eqn:ET; [|discriminate].
    injection H as <-. cbn [time date].
    apply exec_sound in ED. destruct ED as (pre & w & a & _ & MD).
    apply exec_sound in ET. destruct ET as (pre' & w' & a' & _ & MT).
    inversion MD; subst; clear MD. inversion MT; subst; clear MT.
    cbn [group Nat.eqb].
    match goal with H : matches timeText _ _ _ _ _ |- _ =>
      destruct (timeText_nonempty _ _ _ _ _ H) as [_ ->];
      split; [exact (timeText_parses _ _ _ _ _ H)|] end.
    match goal with H : matches (dateText cs) _ _ _ _ _ |- _ =>
      destruct (dateText_resolves cs _ _ _ _ _ (or_intror eq_refl) H)
        as (_ & -> & R) end.
    exact R.
Qed.

End ParsedTexts.

(* ================================================================== *)
(** * The roster of an announcement *)
(* ================================================================== *)

Section RosterFacts.

Import Messages.

Lemma includes_In (c : char) (p : jsstring) : forall s,
  includes s (c :: p) = true -> In c s.
Proof.
  induction s as [|x s IH]; cbn [includes startsWith]; intros H.
  - discriminate.
  - apply orb_prop in H. destruct H as [H | H].
    + apply andb_prop in H as [H _]. apply N.eqb_eq in H. left. exact H.
    + right. exact (IH H).
Qed.

Lemma star_chr_forallb (p : char -> bool) :
  forall r b w a c c',
    matches r b w a c c' -> r = Star (Chr p) -> forallb p w = true.
Proof.
  intros r b w a c c' M.
  induction M; intros E; try discriminate E.
  - reflexivity.
  - injection E as ->. inversion M1; subst.
    cbn [app forallb]. rewrite (IHM2 eq_refl).
    match goal with H : p _ = true |- _ => rewrite H end. reflexivity.
Qed.

Lemma plus_chr_forallb (p : char -> bool) (b w a : jsstring) (c c' : captures) :
  matches (Plus (Chr p)) b w a c c' -> forallb p w = true.
Proof.
  unfold Plus. intros M. inversion M; subst.
  match goal with H : matches (Chr _) _ _ _ _ _ |- _ => inversion H; subst end.
  match goal with H : matches (Star _) _ _ _ _ _ |- _ =>
    pose proof (star_chr_forallb p _ _ _ _ _ _ H eq_refl) as S end.
  cbn [app forallb].
  match goal with H : p _ = true |- _ => rewrite H end. exact S.
Qed.

(** A count line is made of digits and one slash. *)
Lemma countLine_chars (l : jsstring) :
  test countLineRegex l = true ->
  forallb (fun c => is_digit c || cs (ch "/") c) l = true.
Proof.
  unfold test. destruct (search countLineRegex [] l) as [st|] eqn:E;
    [intros _ | discriminate].
  apply search_sound in E. destruct E as (pre & w & a & -> & M).
  rewrite app_nil_r in M.
  unfold countLineRegex, seqs in M.
  inversion M; subst; clear M.
  match goal with H : matches Bol _ _ _ _ _ |- _ => inversion H; subst; clear H end.
  assert (pre = []) as ->.
  { match goal with
    | H : [] = rev pre |- _ => symmetry in H; apply (f_equal (@rev char)) in H
    | H : rev pre = [] |- _ => apply (f_equal (@rev char)) in H
    end; rewrite rev_involutive in *; assumption. }
  match goal with H : matches (Seq _ _) _ _ _ _ _ |- _ => inversion H; subst; clear H end.
  match goal with H : matches (Plus _) _ _ _ _ _ |- _ =>
    apply plus_chr_forallb in H; rename H into D1 end.
  match goal with H : matches (Seq _ _) _ _ _ _ _ |- _ => inversion H; subst; clear H end.
  match goal with H : matches (Chr _) _ _ _ _ _ |- _ => inversion H; subst; clear H end.
  match goal with H : matches (Seq _ _) _ _ _ _ _ |- _ => inversion H; subst; clear H end.
  match goal with H : matches (Plus _) _ _ _ _ _ |- _ =>
    apply plus_chr_forallb in H; rename H into D2 end.
  match goal with H : matches Eol _ _ _ _ _ |- _ => inversion H; subst; clear H end.
  cbn [app]. rewrite !app_nil_r.
  rewrite !forallb_app. cbn [forallb].
  change (ch "/") with 47%N.
  match goal with H : cs _ _ = true |- _ => rewrite H end.
  rewrite orb_true_r. cbn [andb].
  assert (W : forall g, forallb is_digit g = true ->
                        forallb (fun c => is_digit c || cs 47%N c) g = true).
  { intros g G. apply forallb_forall. intros y Hy.
    rewrite forallb_forall in G. rewrite (G y Hy). reflexivity. }
  rewrite (W _ D1), (W _ D2). reflexivity.
Qed.

(** A line that mentions a waitlist is not empty and is not a count. *)
Lemma mentionsWaitlist_not_aside_by_count (l : jsstring) :
  mentionsWaitlist l = true -> truthy l = true /\ test countLineRegex l = false.
Proof.
  unfold mentionsWaitlist. intros H. split.
  - destruct l; [discriminate H | reflexivity].
  - destruct (test countLineRegex l) eqn:T; [exfalso | reflexivity].
    apply countLine_chars in T. rewrite forallb_forall in T.
    change (lit "waitlist") with (ch "w" :: lit "aitlist") in H.
    apply includes_In in H. unfold toLowerCase in H.
    apply in_map_iff in H. destruct H as (x & Hx & I).
    specialize (T x I). unfold is_digit, cs, char_eqb, ch in T. cbn in T.
    unfold is_upper, ch in Hx. cbn in Hx.
    apply orb_prop in T. destruct T as [T | T].
    + apply andb_prop in T as [T1 T2]. apply N.leb_le in T1, T2.
      destruct ((65 <=? x)%N && (x <=? 90)%N); lia.
    + apply N.eqb_eq in T. subst x. cbn in Hx. discriminate.
Qed.

Lemma truthy_length (l : jsstring) :
  (0 <? Z.of_nat (List.length l)) = truthy l.
Proof. destruct l; [reflexivity | cbn [List.length truthy]; apply Z.ltb_lt; lia]. Qed.

(** One turn of the loop, field by field. *)
Lemma rosterStep_fields (r : Roster) (l : jsstring) :
  isWaitlistSection (rosterStep r l) = isWaitlistSection r || mentionsWaitlist l
  /\ playerLines (rosterStep r l)
     = playerLines r
       ++ (if negb (isWaitlistSection r) && negb (mentionsWaitlist l)
              && playerLike l then [l] else [])
  /\ waitlistLines (rosterStep r l)
     = waitlistLines r
       ++ (if isWaitlistSection r && waitlistLike l then [l] else []).
Proof.
  unfold rosterStep, playerLike, waitlistLike, setAside.
  rewrite truthy_length.
  destruct r as [ps ws sec cl]. cbn [playerLines waitlistLines isWaitlistSection].
  destruct (mentionsWaitlist l) eqn:W.
  - destruct (mentionsWaitlist_not_aside_by_count l W) as [-> ->].
    cbn. rewrite !andb_false_r, !app_nil_r, orb_true_r. auto.
  - destruct (truthy l), (test countLineRegex l), (startsWith l siren),
      (startsWith l (lit "[")), (test lineDateRegex l), sec,
      (test digitsOnlyRegex l);
      cbn; rewrite ?app_nil_r; auto.
Qed.

Lemma roster_fold : forall (ls : list jsstring) (r : Roster),
  playerLines (fold_left rosterStep ls r)
  = playerLines r
    ++ (if isWaitlistSection r then [] else filter playerLike (beforeWaitlist ls))
  /\ waitlistLines (fold_left rosterStep ls r)
     = waitlistLines r
       ++ filter waitlistLike (if isWaitlistSection r then ls else afterWaitlist ls).
Proof.
  induction ls as [|l ls IH]; intros r; cbn [fold_left].
  - destruct (isWaitlistSection r); cbn; rewrite !app_nil_r; auto.
  - destruct (rosterStep_fields r l) as (S & P & W).
    destruct (IH (rosterStep r l)) as [IP IW].
    rewrite IP, IW, S, P, W. clear IP IW S P W IH.
    cbn [beforeWaitlist afterWaitlist filter].
    destruct (isWaitlistSection r); cbn [negb andb orb filter].
    + rewrite app_nil_r. split; [reflexivity|].
      destruct (waitlistLike l); rewrite <- app_assoc; reflexivity.
    + destruct (mentionsWaitlist l); cbn [negb andb orb filter];
        rewrite ?app_nil_r; [auto|].
      split; [|reflexivity].
      destruct (playerLike l); rewrite <- app_assoc; reflexivity.
Qed.

(** X3.  The players of an announcement are, in their order, the lines that
    stand after the first non-empty line and before the first line that
    mentions a waitlist, without the lines set aside and those made of
    digits only; the waitlist is what follows that line, without the
    lines set aside and further mentions of a waitlist; and the count is
    the number of players. *)
Theorem parseGameMessage_roster (messageText : jsstring) (g : GameMessage) :
  parseGameMessage messageText = Some g ->
  players g
  = filter playerLike (beforeWaitlist (tl (messageLines messageText)))
  /\ waitlist g
     = filter waitlistLike (afterWaitlist (tl (messageLines messageText)))
  /\ playerCount g = Z.of_nat (List.length (players g)).
Proof.
  unfold parseGameMessage. intros H.
  destruct (parseGameAnnouncement messageText) as [info|]; [|discriminate].
  injection H as <-. cbn [players waitlist playerCount].
  unfold roster.
  destruct (roster_fold (tl (messageLines messageText))
              {| playerLines := []; waitlistLines := [];
                 isWaitlistSection := false; countLine := None |}) as [P W].
  rewrite P, W. cbn. auto.
Qed.

End RosterFacts.

(* ================================================================== *)
(** * Calendar arithmetic *)
(* ================================================================== *)

Section CalendarFacts.

Ltac tests_to_props :=
  repeat match goal with
         | H : (_ <? _) = true |- _ => apply Z.ltb_lt in H
         | H : (_ <? _) = false |- _ => apply Z.ltb_ge in H
         | H : (_ <=? _) = true |- _ => apply Z.leb_le in H
         | H : (_ <=? _) = false |- _ => apply Z.leb_gt in H
         | H : (_ >? _) = _ |- _ => rewrite Z.gtb_ltb in H
         end.

(** The civil date of a day number is a date of the calendar, and it
    has that day number. *)
Lemma civil_round (z : Z) :
  let '(y, m, d) := civil_from_days z in
  days_from_civil y m d = z /\ 1 <= m <= 12 /\ 1 <= d <= 31.
Proof.
  unfold civil_from_days, days_from_civil. cbv zeta.
  set (z' := z + 719468).
  set (era := z' / 146097).
  set (doe := z' - era * 146097).
  assert (0 <= doe < 146097) by (unfold doe, era; Z.div_mod_to_equations; lia).
  set (yoe := (doe - doe / 1460 + doe / 36524 - doe / 146096) / 365).
  assert (0 <= yoe <= 399) by (unfold yoe; Z.div_mod_to_equations; lia).
  set (doy := doe - (365 * yoe + yoe / 4 - yoe / 100)).
  assert (0 <= doy <= 365) by (unfold doy, yoe; Z.div_mod_to_equations; lia).
  set (mp := (5 * doy + 2) / 153).
  assert (0 <= mp <= 11) by (unfold mp; Z.div_mod_to_equations; lia).
  set (d := doy - (153 * mp + 2) / 5 + 1).
  assert (1 <= d <= 31) by (unfold d, mp; Z.div_mod_to_equations; lia).
  repeat match goal with
         | |- context [if ?c then _ else _] => destruct c eqn:?
         end; tests_to_props.
  all: repeat split; try lia.
  all: replace (yoe + era * 400 + 1 - 1) with (yoe + era * 400) by lia.
  all: replace ((yoe + era * 400) / 400) with era
         by (Z.div_mod_to_equations; lia).
  all: replace (yoe + era * 400 - era * 400) with yoe by lia.
  all: replace (mp - 9 + 9) with mp by lia;
       replace (mp + 3 - 3) with mp by lia.
  all: unfold d, doy, doe, z'; lia.
Qed.

Lemma civil_of_days (y m d z : Z) :
  civil_from_days z = (y, m, d) ->
  days_from_civil y m d = z /\ 1 <= m <= 12 /\ 1 <= d <= 31.
Proof. intros H. pose proof (civil_round z) as R. rewrite H in R. exact R. Qed.

(** Every day of a year comes before the first of January of the
    next. *)
Lemma before_next_year (Y m d : Z) :
  1 <= m <= 12 -> d <= 31 ->
  days_from_civil Y m d < days_from_civil (Y + 1) 1 1.
Proof.
  intros Hm Hd. unfold days_from_civil.
  change (1 <=? 2) with true. change (1 >? 2) with false. cbv iota zeta.
  replace (Y + 1 - 1) with Y by lia.
  destruct (m <=? 2) eqn:E1; destruct (m >? 2) eqn:E2; tests_to_props;
    try lia; Z.div_mod_to_equations; lia.
Qed.

Lemma month_start_monotone (Y m : Z) :
  0 <= m <= 11 ->
  days_from_civil Y 1 1 <= days_from_civil Y (m + 1) 1.
Proof.
  intros Hm. unfold days_from_civil.
  change (1 <=? 2) with true. change (1 >? 2) with false. cbv iota zeta.
  destruct (m + 1 <=? 2) eqn:E1; destruct (m + 1 >? 2) eqn:E2;
    tests_to_props; try lia; Z.div_mod_to_equations; lia.
Qed.

(** A date up to the 28th of a month is the civil date of its day
    number. *)
Lemma civil_of_civil (y m d : Z) :
  1 <= m <= 12 -> 1 <= d <= 28 ->
  civil_from_days (days_from_civil y m d) = (y, m, d).
Proof.
  intros Hm Hd.
  unfold days_from_civil. cbv zeta.
  set (y' := if m <=? 2 then y - 1 else y).
  set (era := y' / 400).
  set (yoe := y' - era * 400).
  assert (Hyoe : 0 <= yoe <= 399)
    by (unfold yoe, era; Z.div_mod_to_equations; lia).
  set (mp := if m >? 2 then m - 3 else m + 9).
  assert (Hmp : 0 <= mp <= 11)
    by (unfold mp; destruct (m >? 2) eqn:E; tests_to_props; lia).
  set (doy := (153 * mp + 2) / 5 + d - 1).
  assert (Hdoy : 0 <= doy <= 364)
    by (unfold doy; Z.div_mod_to_equations; lia).
  set (doe := yoe * 365 + yoe / 4 - yoe / 100 + doy).
  assert (Hdoe : 0 <= doe < 146097)
    by (unfold doe; Z.div_mod_to_equations; lia).
  unfold civil_from_days. cbv zeta.
  replace (era * 146097 + doe - 719468 + 719468) with (doe + era * 146097)
    by lia.
  replace ((doe + era * 146097) / 146097) with era
    by (Z.div_mod_to_equations; lia).
  replace (doe + era * 146097 - era * 146097) with doe by lia.
  assert (Y : (doe - doe / 1460 + doe / 36524 - doe / 146096) / 365 = yoe).
  { unfold doe. Z.div_mod_to_equations. lia. }
  rewrite Y.
  replace (doe - (365 * yoe + yoe / 4 - yoe / 100)) with doy
    by (unfold doe; lia).
  assert (MP : (5 * doy + 2) / 153 = mp).
  { unfold doy. Z.div_mod_to_equations. lia. }
  rewrite MP.
  replace (doy - (153 * mp + 2) / 5 + 1) with d by (unfold doy; lia).
  unfold mp, yoe, y'.
  destruct (m >? 2) eqn:E1, (m <=? 2) eqn:E2; tests_to_props; try lia.
  - destruct (m - 3 <? 10) eqn:E3; tests_to_props; [|lia].
    replace (m - 3 + 3) with m by lia.
    destruct (m <=? 2) eqn:E4; tests_to_props; try lia.
    f_equal. f_equal. lia.
  - destruct (m + 9 <? 10) eqn:E3; tests_to_props; try lia.
    replace (m + 9 - 9) with m by lia.
    destruct (m <=? 2) eqn:E4; tests_to_props; try lia.
    f_equal. f_equal. unfold era. lia.
Qed.

(** The day number is linear in the day of the month. *)
Lemma days_from_civil_day (y m d : Z) :
  days_from_civil y m d = days_from_civil y m 1 + d - 1.
Proof. unfold days_from_civil. cbv zeta. lia. Qed.

Lemma MakeDay_in_year (y m d : Z) :
  0 <= m <= 11 -> MakeDay y m d = days_from_civil y (m + 1) d.
Proof.
  intros Hm. unfold MakeDay.
  rewrite (Z.div_small m 12), (Z.mod_small m 12), Z.add_0_r by lia.
  symmetry. apply days_from_civil_day.
Qed.

Lemma Day_of_midnight (k : Z) : Day (k * msPerDay) = k.
Proof. unfold Day, msPerDay. apply Z.div_mul. lia. Qed.

Lemma TimeWithinDay_of_midnight (k : Z) : TimeWithinDay (k * msPerDay) = 0.
Proof. unfold TimeWithinDay, msPerDay. apply Z.mod_mul. lia. Qed.

Lemma now_in_its_day (now : Z) :
  Day now * msPerDay <= now < (Day now + 1) * msPerDay.
Proof. unfold Day, msPerDay. Z.div_mod_to_equations. lia. Qed.

(** A time value of the year [getFullYear now] comes before the first
    midnight of the next year. *)
Lemma now_before_next_year (now : Z) :
  now < days_from_civil (getFullYear now + 1) 1 1 * msPerDay.
Proof.
  unfold getFullYear.
  destruct (civil_from_days (Day now)) as [[y m] d] eqn:C.
  destruct (civil_of_days y m d (Day now) C) as (R & Hm & Hd).
  pose proof (before_next_year y m d Hm ltac:(lia)) as B.
  pose proof (now_in_its_day now) as N. unfold msPerDay in *. nia.
Qed.

(** Setting the year of a midnight gives a midnight of that year. *)
Lemma setFullYear_midnight (k year : Z) :
  exists k',
    setFullYear (k * msPerDay) year = k' * msPerDay
    /\ days_from_civil year 1 1 <= k'.
Proof.
  unfold setFullYear, getMonth, getDate.
  rewrite Day_of_midnight, TimeWithinDay_of_midnight.
  destruct (civil_from_days k) as [[y m] d] eqn:C.
  destruct (civil_of_days y m d k C) as (R & Hm & Hd).
  exists (MakeDay year (m - 1) d). split; [lia|].
  rewrite MakeDay_in_year by lia.
  replace (m - 1 + 1) with m by lia.
  rewrite (days_from_civil_day year m d).
  pose proof (month_start_monotone year (m - 1) ltac:(lia)) as Mo.
  replace (m - 1 + 1) with m in Mo by lia. lia.
Qed.

(** The day numbers of the years that a time value can name stay well
    inside the range of time values. *)
Lemma days_from_civil_bounds (y m : Z) :
  1 <= m <= 12 -> -201000 <= y <= 201000 ->
  -74200000 <= days_from_civil y m 1 <= 74200000.
Proof.
  intros Hm Hy. unfold days_from_civil. cbv zeta.
  destruct (m <=? 2) eqn:E1; destruct (m >? 2) eqn:E2; tests_to_props;
    try lia; Z.div_mod_to_equations; lia.
Qed.

Lemma MakeDay_bounds (y m d : Z) :
  -200900 <= y <= 200900 -> -1001 <= m <= 1001 -> -1000 <= d <= 1000 ->
  -74210000 <= MakeDay y m d <= 74210000.
Proof.
  intros Hy Hm Hd. unfold MakeDay.
  assert (H1 : 1 <= m mod 12 + 1 <= 12) by (Z.div_mod_to_equations; lia).
  assert (H2 : -201000 <= y + m / 12 <= 201000)
    by (Z.div_mod_to_equations; lia).
  pose proof (days_from_civil_bounds (y + m / 12) (m mod 12 + 1) H1 H2).
  lia.
Qed.

(** Setting the year of a midnight, within these years, gives a midnight
    inside the range. *)
Lemma setFullYear_midnight_bounds (k year : Z) :
  -200900 <= year <= 200900 ->
  exists k',
    setFullYear (k * msPerDay) year = k' * msPerDay
    /\ days_from_civil year 1 1 <= k'
    /\ -74210000 <= k' <= 74210000.
Proof.
  intros Hy. unfold setFullYear, getMonth, getDate.
  rewrite Day_of_midnight, TimeWithinDay_of_midnight.
  destruct (civil_from_days k) as [[y m] d] eqn:C.
  destruct (civil_of_days y m d k C) as (R & Hm & Hd).
  exists (MakeDay year (m - 1) d). split; [lia|].
  split; [|apply MakeDay_bounds; lia].
  rewrite MakeDay_in_year by lia.
  replace (m - 1 + 1) with m by lia.
  rewrite (days_from_civil_day year m d).
  pose proof (month_start_monotone year (m - 1) ltac:(lia)) as Mo.
  replace (m - 1 + 1) with m in Mo by lia. lia.
Qed.




End CalendarFacts.

Section ResolvedDates.

Lemma year_length (y m d : Z) :
  1 <= m <= 12 ->
  365 <= days_from_civil (y + 1) m d - days_from_civil y m d <= 366.
Proof.
  intros Hm. unfold days_from_civil. cbv zeta.
  destruct (m <=? 2) eqn:E1; Z.div_mod_to_equations; lia.
Qed.

Lemma newDate_civil (y m d : Z) :
  100 <= y -> 1 <= m <= 12 ->
  newDate y (m - 1) d = days_from_civil y m d * msPerDay.
Proof.
  intros Hy Hm. unfold newDate.
  replace ((0 <=? y) && (y <=? 99)) with false
    by (symmetry; apply andb_false_iff; right; apply Z.leb_gt; lia).
  rewrite MakeDay_in_year by lia. replace (m - 1 + 1) with m by lia.
  reflexivity.
Qed.

Lemma fields_of_midnight (k y m d : Z) :
  civil_from_days k = (y, m, d) ->
  getFullYear (k * msPerDay) = y
  /\ getMonth (k * msPerDay) = m - 1
  /\ getDate (k * msPerDay) = d.
Proof.
  intros C. unfold getFullYear, getMonth, getDate.
  rewrite Day_of_midnight, C. auto.
Qed.

Lemma setFullYear_civil (k y m d year : Z) :
  civil_from_days k = (y, m, d) ->
  setFullYear (k * msPerDay) year = days_from_civil year m d * msPerDay.
Proof.
  intros C. unfold setFullYear.
  destruct (fields_of_midnight k y m d C) as (_ & -> & ->).
  destruct (civil_of_days y m d k C) as (_ & Hm & _).
  rewrite TimeWithinDay_of_midnight, MakeDay_in_year by lia.
  replace (m - 1 + 1) with m by lia. lia.
Qed.



(** X9.  A game announced for today's date, once the clock is past midnight,
    is resolved a year ahead, and the third booker sets out to step 365
    or 366 days forward. *)
Theorem todays_game_is_a_year_of_steps_away (now : Z) :
  100 <= getFullYear now ->
  0 < TimeWithinDay now ->
  365 <= BookingV3Calendar.daysDiff now
           (gameDateFor now (getMonth now + 1) (getDate now)) <= 366.
Proof.
  intros Hy Hpos.
  destruct (civil_from_days (Day now)) as [[y m] d] eqn:C.
  assert (Y : getFullYear now = y) by (unfold getFullYear; rewrite C; reflexivity).
  assert (Mo : getMonth now + 1 = m) by (unfold getMonth; rewrite C; lia).
  assert (Da : getDate now = d) by (unfold getDate; rewrite C; reflexivity).
  destruct (civil_of_days y m d (Day now) C) as (R & Hm & Hd).
  assert (G : gameDateFor now (getMonth now + 1) (getDate now)
              = days_from_civil (y + 1) m d * msPerDay).
  { unfold gameDateFor. cbv zeta. rewrite Mo, Da, Y in *.
    rewrite (newDate_civil y m d Hy Hm), R.
    assert (T : now = Day now * msPerDay + TimeWithinDay now).
    { unfold Day, TimeWithinDay, msPerDay. Z.div_mod_to_equations. lia. }
    replace (Day now * msPerDay <? now) with true
      by (symmetry; apply Z.ltb_lt; lia).
    exact (setFullYear_civil _ _ _ _ (y + 1) C). }
  rewrite G. unfold BookingV3Calendar.daysDiff, startOfDay.
  rewrite Day_of_midnight.
  replace ((days_from_civil (y + 1) m d * msPerDay - Day now * msPerDay)
           / msPerDay)
    with (days_from_civil (y + 1) m d - Day now).
  2:{ rewrite <- Z.mul_sub_distr_r. unfold msPerDay.
      rewrite Z.div_mul by lia. reflexivity. }
  rewrite <- R. apply year_length. exact Hm.
Qed.

Lemma todays_game_on_feb_24 :
  100 <= getFullYear (at_time 2026 1 24 10 30)
  /\ 0 < TimeWithinDay (at_time 2026 1 24 10 30)
  /\ 365 <= BookingV3Calendar.daysDiff (at_time 2026 1 24 10 30)
              (gameDateFor (at_time 2026 1 24 10 30)
                 (getMonth (at_time 2026 1 24 10 30) + 1)
                 (getDate (at_time 2026 1 24 10 30))) <= 366.
Proof.
  split; [vm_compute; discriminate|]. split; [vm_compute; reflexivity|].
  apply todays_game_is_a_year_of_steps_away;
    [vm_compute; discriminate | vm_compute; reflexivity].
Defined.

End ResolvedDates.

(* ================================================================== *)
(** * Stepping to the date, third booker *)
(* ================================================================== *)

Section SteppingFacts.

Variable S : Type.
Variable clickNext : S -> bool * S.
Variable clickNextButton : S -> bool * S.
Variable waitForTimeout : Z -> S -> bool * S.

Ltac step_fields :=
  cbn [BookingV3Calendar.stepped BookingV3Calendar.gaveUp
       BookingV3Calendar.surface].

Lemma afterLoop_spec (n : Z) (g : bool) (s : S) :
  (forall r, BookingV3Calendar.afterLoop waitForTimeout n g s
             = BookingV3Calendar.Returned r ->
             BookingV3Calendar.stepped r = n
             /\ BookingV3Calendar.gaveUp r = g)
  /\ ((forall ms s', fst (waitForTimeout ms s') = true) ->
      exists r, BookingV3Calendar.afterLoop waitForTimeout n g s
                = BookingV3Calendar.Returned r).
Proof.
  unfold BookingV3Calendar.afterLoop.
  destruct (waitForTimeout 1000 s) as [[|] s'] eqn:E; split.
  - intros r [= <-]. step_fields. auto.
  - intros _. eexists. reflexivity.
  - intros r H. discriminate H.
  - intros W. specialize (W 1000 s). rewrite E in W. discriminate W.
Qed.

Lemma stepFrom_spec (daysDiff : Z) : forall fuel i n s,
  (Z.to_nat (daysDiff - i) < fuel)%nat ->
  exists o,
    BookingV3Calendar.stepFrom clickNext clickNextButton waitForTimeout
      fuel i daysDiff n s = Some o
    /\ (forall r, o = BookingV3Calendar.Returned r ->
                  n <= BookingV3Calendar.stepped r
                  <= n + 2 * Z.max 0 (daysDiff - i))
    /\ ((forall ms s', fst (waitForTimeout ms s') = true) ->
        exists r,
          o = BookingV3Calendar.Returned r
          /\ BookingV3Calendar.stepped r <= n + Z.max 0 (daysDiff - i)
          /\ (BookingV3Calendar.gaveUp r = false ->
              BookingV3Calendar.stepped r = n + Z.max 0 (daysDiff - i))).
Proof.
  induction fuel as [|fuel IH]; intros i n s Hf; [lia|].
  cbn [BookingV3Calendar.stepFrom].
  destruct (i <? daysDiff) eqn:Lt.
  - apply Z.ltb_lt in Lt.
    assert (Hf' : (Z.to_nat (daysDiff - (i + 1)) < fuel)%nat) by lia.
    (* what the catch block does, from a count [m] of [n] or [n + 1] *)
    assert (Rec : forall m s0, n <= m <= n + 1 ->
              exists o,
                BookingV3Calendar.recover clickNextButton waitForTimeout
                  (BookingV3Calendar.stepFrom clickNext clickNextButton
                     waitForTimeout fuel (i + 1) daysDiff) m s0 = Some o
                /\ (forall r, o = BookingV3Calendar.Returned r ->
                              n <= BookingV3Calendar.stepped r
                              <= n + 2 * Z.max 0 (daysDiff - i))
                /\ ((forall ms s', fst (waitForTimeout ms s') = true) ->
                    m = n ->
                    exists r,
                      o = BookingV3Calendar.Returned r
                      /\ BookingV3Calendar.stepped r
                         <= n + Z.max 0 (daysDiff - i)
                      /\ (BookingV3Calendar.gaveUp r = false ->
                          BookingV3Calendar.stepped r
                          = n + Z.max 0 (daysDiff - i)))).
    { intros m s0 Hm. unfold BookingV3Calendar.recover.
      destruct (waitForTimeout 2000 s0) as [[|] s1] eqn:E1.
      - destruct (clickNextButton s1) as [[|] s2].
        + destruct (waitForTimeout 300 s2) as [[|] s3] eqn:E3.
          * destruct (IH (i + 1) (m + 1) s3 Hf') as (o & -> & B & G).
            exists o. split; [reflexivity|]. split.
            -- intros r Hr. specialize (B r Hr). lia.
            -- intros W ->. destruct (G W) as (r & -> & L & Eq).
               exists r. split; [reflexivity|]. split; [lia|].
               intros NG. rewrite (Eq NG). lia.
          * eexists. split; [reflexivity|].
            destruct (afterLoop_spec (m + 1) true s3) as [A1 A2]. split.
            -- intros r Hr. destruct (A1 r Hr) as [-> _]. lia.
            -- intros W _. specialize (W 300 s2). rewrite E3 in W.
               discriminate W.
        + eexists. split; [reflexivity|].
          destruct (afterLoop_spec m true s2) as [A1 A2]. split.
          * intros r Hr. destruct (A1 r Hr) as [-> _]. lia.
          * intros W ->. destruct (A2 W) as [r Hr]. exists r.
            split; [exact Hr|]. destruct (A1 r Hr) as [-> ->].
            split; [lia | discriminate].
      - eexists. split; [reflexivity|]. split.
        + intros r Hr. discriminate Hr.
        + intros W _. specialize (W 2000 s0). rewrite E1 in W.
          discriminate W. }
    destruct (clickNext s) as [[|] s1].
    + destruct (waitForTimeout _ s1) as [[|] s2] eqn:E.
      * destruct (IH (i + 1) (n + 1) s2 Hf') as (o & -> & B & G).
        exists o. split; [reflexivity|]. split.
        -- intros r Hr. specialize (B r Hr). lia.
        -- intros W. destruct (G W) as (r & -> & L & Eq).
           exists r. split; [reflexivity|]. split; [lia|].
           intros NG. rewrite (Eq NG). lia.
      * destruct (Rec (n + 1) s2 ltac:(lia)) as (o & -> & B & _).
        exists o. split; [reflexivity|]. split; [exact B|].
        intros W. specialize (W (if (i + 1) mod 7 =? 0 then 800 else 250) s1).
        rewrite E in W. discriminate W.
    + destruct (Rec n s1 ltac:(lia)) as (o & -> & B & G).
      exists o. split; [reflexivity|]. split; [exact B|].
      intros W. exact (G W eq_refl).
  - apply Z.ltb_ge in Lt. eexists. split; [reflexivity|].
    destruct (afterLoop_spec n false s) as [A1 A2]. split.
    + intros r Hr. destruct (A1 r Hr) as [-> _]. lia.
    + intros W. destruct (A2 W) as [r Hr]. exists r.
      split; [exact Hr|]. destruct (A1 r Hr) as [-> _].
      split; [lia|]. intros _. lia.
Qed.


End SteppingFacts.


(* ================================================================== *)
(** * The database and the announcements *)
(* ================================================================== *)

Section DatabaseFacts.

Import GameDatabase.

Variable foreign_keys : bool.
Variable text : jsstring -> jsstring.
Variable newRowid : list Game -> Z.

Lemma countPlayers_app (rows : list (Z * jsstring)) (r : Z * jsstring) (i : Z) :
  countPlayers (rows ++ [r]) i
  = countPlayers rows i + (if fst r =? i then 1 else 0).
Proof.
  unfold countPlayers. rewrite filter_app, length_app. cbn [filter].
  destruct (fst r =? i); cbn [List.length]; lia.
Qed.

Lemma countPlayers_nonneg (rows : list (Z * jsstring)) (i : Z) :
  0 <= countPlayers rows i.
Proof. unfold countPlayers. lia. Qed.

Lemma gameExists_map (f : Game -> Game) (gs : list Game)
      (ps ps' ws ws' : list (Z * jsstring)) (i : Z) :
  (forall g, id (f g) = id g) ->
  gameExists {| games := map f gs; players := ps'; waitlist := ws' |} i
  = gameExists {| games := gs; players := ps; waitlist := ws |} i.
Proof.
  intros Hf. unfold gameExists. cbn [games].
  induction gs as [|g gs IH]; cbn [map existsb]; [reflexivity|].
  rewrite Hf, IH. reflexivity.
Qed.

Lemma recount_id (i c : Z) (g : Game) :
  id (if id g =? i then withCount g c else g) = id g.
Proof. destruct (id g =? i); reflexivity. Qed.

(** Recounting a game keeps the counts right when the player rows of
    the other games are those the counts were right for. *)
Lemma updatePlayerCount_counted (gs : list Game)
      (ps ps' ws : list (Z * jsstring)) (i : Z) :
  counted {| games := gs; players := ps; waitlist := ws |} ->
  (forall j, j <> i -> countPlayers ps' j = countPlayers ps j) ->
  counted (snd (updatePlayerCount
                  {| games := gs; players := ps'; waitlist := ws |} i)).
Proof.
  intros C Same g Hg. unfold updatePlayerCount in Hg |- *.
  cbn [snd games players] in *.
  apply in_map_iff in Hg. destruct Hg as (g0 & <- & Hg0).
  destruct (id g0 =? i) eqn:E.
  - apply Z.eqb_eq in E. cbn [withCount player_count id]. now rewrite E.
  - apply Z.eqb_neq in E. rewrite (C g0 Hg0). cbn [players].
    symmetry. apply Same. exact E.
Qed.

Lemma addPlayer_spec (t : Tables) (i : Z) (name : jsstring) :
  gameExists t i = true ->
  counted t -> referential t ->
  counted (snd (addPlayer foreign_keys text t i name))
  /\ referential (snd (addPlayer foreign_keys text t i name))
  /\ (forall j, gameExists (snd (addPlayer foreign_keys text t i name)) j
                = gameExists t j)
  /\ (forall j, countPlayers (players t) j
                <= countPlayers
                     (players (snd (addPlayer foreign_keys text t i name))) j).
Proof.
  intros Ex C R. destruct t as [gs ps ws].
  unfold addPlayer, insertOrIgnore. cbn [players games waitlist fst] in *.
  rewrite Ex. rewrite andb_false_r.
  destruct (existsb _ ps) eqn:Dup.
  - split; [|split; [|split]].
    + apply (updatePlayerCount_counted gs ps ps ws i C). auto.
    + intros r Hr. cbn in Hr.
      unfold updatePlayerCount. cbn [snd].
      rewrite (gameExists_map _ gs ps ps ws ws _ (recount_id i _)).
      apply R. exact Hr.
    + intros j. unfold updatePlayerCount. cbn [snd].
      apply (gameExists_map _ gs ps ps ws ws _ (recount_id i _)).
    + intros j. cbn. lia.
  - split; [|split; [|split]].
    + apply (updatePlayerCount_counted gs ps _ ws i C).
      intros j Hj. rewrite countPlayers_app. cbn [fst].
      destruct (i =? j) eqn:E; [apply Z.eqb_eq in E; congruence | lia].
    + intros r Hr. cbn in Hr.
      unfold updatePlayerCount. cbn [snd].
      rewrite (gameExists_map _ gs ps _ ws ws _ (recount_id i _)).
      apply in_app_or in Hr. destruct Hr as [Hr | [<- | []]].
      * apply R. exact Hr.
      * exact Ex.
    + intros j. unfold updatePlayerCount. cbn [snd].
      apply (gameExists_map _ gs ps _ ws ws _ (recount_id i _)).
    + intros j. cbn. rewrite countPlayers_app.
      destruct (fst _ =? j); lia.
Qed.

Lemma addPlayers_spec (i : Z) (names : list jsstring) : forall (t : Tables),
  gameExists t i = true ->
  counted t -> referential t ->
  let t' := fold_left (fun t name => snd (addPlayer foreign_keys text t i name))
                      names t in
  counted t' /\ referential t'
  /\ (forall j, gameExists t' j = gameExists t j)
  /\ (forall j, countPlayers (players t) j <= countPlayers (players t') j).
Proof.
  induction names as [|name names IH]; intros t Ex C R; cbn [fold_left].
  - repeat split; auto. intros j. lia.
  - destruct (addPlayer_spec t i name Ex C R) as (C1 & R1 & E1 & M1).
    destruct (IH _ (eq_trans (E1 i) Ex) C1 R1) as (C2 & R2 & E2 & M2).
    repeat split; auto.
    + intros j. rewrite E2. apply E1.
    + intros j. specialize (M1 j). specialize (M2 j). lia.
Qed.

Lemma addToWaitlist_same (t : Tables) (i : Z) (name : jsstring) :
  games (snd (addToWaitlist foreign_keys text t i name)) = games t
  /\ players (snd (addToWaitlist foreign_keys text t i name)) = players t.
Proof.
  unfold addToWaitlist. destruct (insertOrIgnore _ _ _ _); cbn; auto.
Qed.

Lemma addToWaitlists_same (i : Z) (names : list jsstring) : forall (t : Tables),
  let t' := fold_left (fun t name => snd (addToWaitlist foreign_keys text t i name))
                      names t in
  games t' = games t /\ players t' = players t.
Proof.
  induction names as [|name names IH]; intros t; cbn [fold_left]; [auto|].
  destruct (IH (snd (addToWaitlist foreign_keys text t i name))) as [G P].
  destruct (addToWaitlist_same t i name) as [G1 P1].
  cbv zeta in *. rewrite G, P. auto.
Qed.

Lemma counted_ext (t t' : Tables) :
  games t' = games t -> players t' = players t -> counted t -> counted t'.
Proof. unfold counted. intros -> ->. auto. Qed.

Lemma referential_ext (t t' : Tables) :
  games t' = games t -> players t' = players t ->
  referential t -> referential t'.
Proof. unfold referential, gameExists. intros -> ->. auto. Qed.

Lemma gameExists_In (t : Tables) (i : Z) :
  gameExists t i = true <-> exists g, In g (games t) /\ id g = i.
Proof.
  unfold gameExists. rewrite existsb_exists. split.
  - intros (g & Hg & E). apply Z.eqb_eq in E. eauto.
  - intros (g & Hg & E). exists g. split; [exact Hg | now apply Z.eqb_eq].
Qed.

Lemma withFields_keeps (test : Game -> bool) (d m : jsstring)
      (c : option jsstring) (g : Game) :
  id (if test g then withFields g d m c else g) = id g
  /\ player_count (if test g then withFields g d m c else g) = player_count g.
Proof. destruct (test g); auto. Qed.

Lemma getPlayerCount_map (f : Game -> Game) (gs : list Game)
      (ps ps' ws ws' : list (Z * jsstring)) (j : Z) :
  (forall g, id (f g) = id g /\ player_count (f g) = player_count g) ->
  getPlayerCount {| games := map f gs; players := ps'; waitlist := ws' |} j
  = getPlayerCount {| games := gs; players := ps; waitlist := ws |} j.
Proof.
  intros Hf. unfold getPlayerCount. cbn [games].
  induction gs as [|g gs IH]; cbn [map find]; [reflexivity|].
  destruct (Hf g) as [-> P]. destruct (id g =? j); [exact P | exact IH].
Qed.

Lemma find_app_none {A} (f : A -> bool) (l : list A) (x : A) :
  find f l = None -> find f (l ++ [x]) = if f x then Some x else None.
Proof.
  induction l as [|y l IH]; cbn [app find]; [reflexivity|].
  destruct (f y); [discriminate | exact IH].
Qed.

Lemma find_app_some {A} (f : A -> bool) (l : list A) (x y : A) :
  find f l = Some y -> find f (l ++ [x]) = Some y.
Proof.
  induction l as [|z l IH]; cbn [app find]; [discriminate|].
  destruct (f z); [auto | exact IH].
Qed.

(** What [upsertGame] leaves: the game it names is there, the counts
    stay right and read as before, and no game and no player row is
    lost. *)
Lemma upsertGame_spec (t : Tables) (d m : jsstring) (c : option jsstring)
      (msgId : jsstring) :
  ascending newRowid ->
  counted t -> referential t ->
  let r := upsertGame text newRowid t d m c msgId in
  gameExists (snd r) (fst r) = true
  /\ counted (snd r) /\ referential (snd r)
  /\ (forall j, gameExists t j = true -> gameExists (snd r) j = true)
  /\ players (snd r) = players t
  /\ (forall j, getPlayerCount (snd r) j = getPlayerCount t j).
Proof.
  intros Asc C R. destruct t as [gs ps ws]. unfold upsertGame.
  cbn [games players waitlist].
  destruct (find _ gs) as [g|] eqn:F; cbv zeta; cbn [fst snd].
  - apply find_some in F. destruct F as [Hg Sg].
    match goal with
    | |- context [map ?f gs] =>
        assert (K : forall g', id (f g') = id g'
                               /\ player_count (f g') = player_count g')
          by (intros g'; cbv beta;
              destruct (str_eqb (announcement_msg_id g') (text msgId));
              split; reflexivity)
    end.
    split; [|split; [|split; [|split; [|split]]]].
    + rewrite (gameExists_map _ gs ps ps ws ws _ (fun g' => proj1 (K g'))).
      apply gameExists_In. exists g. auto.
    + intros g' Hg'. cbn [games players] in *.
      apply in_map_iff in Hg'. destruct Hg' as (g0 & <- & Hg0).
      destruct (K g0) as [-> ->]. exact (C g0 Hg0).
    + intros r Hr.
      rewrite (gameExists_map _ gs ps ps ws ws _ (fun g' => proj1 (K g'))).
      apply R. exact Hr.
    + intros j Hj.
      rewrite (gameExists_map _ gs ps ps ws ws _ (fun g' => proj1 (K g'))).
      exact Hj.
    + reflexivity.
    + intros j. apply getPlayerCount_map. exact K.
  - set (i := newRowid gs).
    assert (New : forall g, In g gs -> id g <> i).
    { intros g Hg. pose proof (Asc gs g Hg). unfold i. lia. }
    assert (NoRow : countPlayers ps i = 0).
    { unfold countPlayers.
      replace (filter (fun r => fst r =? i) ps) with (@nil (Z * jsstring));
        [reflexivity|].
      symmetry. clear C. induction ps as [|r ps IH]; [reflexivity|].
      cbn [filter].
      assert (Hr : gameExists {| games := gs; players := r :: ps;
                                 waitlist := ws |} (fst r) = true)
        by (apply R; left; reflexivity).
      apply gameExists_In in Hr. destruct Hr as (g & Hg & E).
      cbn [games] in Hg.
      replace (fst r =? i) with false
        by (symmetry; apply Z.eqb_neq; rewrite <- E; apply New; exact Hg).
      apply IH. intros r' Hr'. apply (R r'). right. exact Hr'. }
    split; [|split; [|split; [|split; [|split]]]].
    + apply gameExists_In. eexists. split; [apply in_or_app; right; left; reflexivity|].
      reflexivity.
    + intros g Hg. cbn [games players] in *.
      apply in_app_or in Hg. destruct Hg as [Hg | [<- | []]].
      * exact (C g Hg).
      * cbn [player_count id]. symmetry. exact NoRow.
    + intros r Hr. cbn [players] in Hr.
      pose proof (R r Hr) as E. apply gameExists_In in E.
      destruct E as (g & Hg & E). apply gameExists_In. exists g.
      split; [apply in_or_app; left; exact Hg | exact E].
    + intros j Hj. apply gameExists_In in Hj. destruct Hj as (g & Hg & E).
      apply gameExists_In. exists g.
      split; [apply in_or_app; left; exact Hg | exact E].
    + reflexivity.
    + intros j. unfold getPlayerCount. cbn [games].
      destruct (find (fun g => id g =? j) gs) as [g|] eqn:Fj.
      * rewrite (find_app_some _ _ _ _ Fj). reflexivity.
      * rewrite (find_app_none _ _ _ Fj). cbn [id].
        destruct (i =? j); reflexivity.
Qed.

Lemma getPlayerCount_counted (t : Tables) (j : Z) :
  counted t ->
  getPlayerCount t j
  = if gameExists t j then countPlayers (players t) j else 0.
Proof.
  intros C. unfold getPlayerCount, gameExists.
  destruct (find (fun g => id g =? j) (games t)) as [g|] eqn:F.
  - pose proof (find_some _ _ F) as [Hg E]. apply Z.eqb_eq in E.
    replace (existsb (fun g0 => id g0 =? j) (games t)) with true.
    + rewrite (C g Hg), E. reflexivity.
    + symmetry. apply existsb_exists. exists g. split; [exact Hg|].
      now apply Z.eqb_eq.
  - replace (existsb (fun g0 => id g0 =? j) (games t)) with false;
      [reflexivity|].
    symmetry. apply not_true_is_false. intros H.
    apply existsb_exists in H. destruct H as (g & Hg & E).
    pose proof (find_none _ _ F g Hg) as N. cbv beta in N. congruence.
Qed.

End DatabaseFacts.

Section DatabaseRoundTrips.

Import GameDatabase.

Variable foreign_keys : bool.
Variable text : jsstring -> jsstring.
Variable newRowid : list Game -> Z.

Lemma str_eqb_refl (s : jsstring) : str_eqb s s = true.
Proof.
  induction s as [|a s IH]; cbn [str_eqb]; [reflexivity|].
  unfold char_eqb. rewrite N.eqb_refl. exact IH.
Qed.

Lemma find_map_same (same : Game -> bool) (f : Game -> Game) (gs : list Game) :
  (forall g, same (f g) = same g) ->
  find same (map f gs) = option_map f (find same gs).
Proof.
  intros Hf. induction gs as [|g gs IH]; cbn [map find]; [reflexivity|].
  rewrite Hf. destruct (same g); [reflexivity | exact IH].
Qed.

(** X21.  Looking a game up by the id of its announcement, after [upsertGame]
    for that announcement, gives the row [upsertGame] named, with the
    date, time and court just given; a game that was there keeps its id,
    its count, its status and its confirmation, and a new one starts
    pending with no player. *)
Theorem upsertGame_then_lookup (t : Tables) (gameDate gameTime : jsstring)
        (courtName : option jsstring) (msgId : jsstring) :
  getGameByMsgId text
    (snd (upsertGame text newRowid t gameDate gameTime courtName msgId)) msgId
  = Some match getGameByMsgId text t msgId with
         | Some g =>
             {| id := id g; game_date := text gameDate;
                game_time := text gameTime;
                court_name := option_map text courtName;
                announcement_msg_id := announcement_msg_id g;
                player_count := player_count g; status := status g;
                booking_confirmed := booking_confirmed g |}
         | None =>
             {| id := newRowid (games t); game_date := text gameDate;
                game_time := text gameTime;
                court_name := option_map text courtName;
                announcement_msg_id := text msgId;
                player_count := 0; status := lit "pending";
                booking_confirmed := 0 |}
         end
  /\ option_map id
       (getGameByMsgId text
          (snd (upsertGame text newRowid t gameDate gameTime courtName msgId))
          msgId)
     = Some (fst (upsertGame text newRowid t gameDate gameTime courtName msgId)).
Proof.
  unfold getGameByMsgId, upsertGame.
  destruct (find _ (games t)) as [g|] eqn:F; cbv zeta; cbn [fst snd games].
  - rewrite find_map_same.
    + rewrite F. cbn [option_map withFields id].
      pose proof (find_some _ _ F) as [_ Sg]. cbv beta in Sg. rewrite Sg.
      auto.
    + intros g'. cbv beta.
      destruct (str_eqb (announcement_msg_id g') (text msgId)) eqn:E;
        cbn [withFields announcement_msg_id]; exact E.
  - rewrite (find_app_none _ _ _ F). cbn [announcement_msg_id].
    rewrite str_eqb_refl. auto.
Qed.

Lemma recount_twice (gs : list Game) (i c : Z) :
  map (fun g => if id g =? i then withCount g c else g)
      (map (fun g => if id g =? i then withCount g c else g) gs)
  = map (fun g => if id g =? i then withCount g c else g) gs.
Proof.
  rewrite map_map. apply map_ext. intros g.
  destruct (id g =? i) eqn:E; cbn [withCount id]; rewrite ?E; reflexivity.
Qed.

Lemma existsb_sameRow_last (rows : list (Z * jsstring)) (row : Z * jsstring) :
  existsb (sameRow row) (rows ++ [row]) = true.
Proof.
  rewrite existsb_app. cbn [existsb]. unfold sameRow at 2.
  rewrite Z.eqb_refl, str_eqb_refl. cbn. apply orb_true_r.
Qed.

(** X22.  Adding a player a second time, under a name that differs from the
    first by surrounding white space at most, changes nothing and has
    the same result. *)
Theorem addPlayer_again (t : Tables) (gameId : Z) (name name' : jsstring) :
  Messages.trim name' = Messages.trim name ->
  addPlayer foreign_keys text
    (snd (addPlayer foreign_keys text t gameId name)) gameId name'
  = addPlayer foreign_keys text t gameId name.
Proof.
  intros E. unfold addPlayer at 1 3. rewrite E.
  unfold addPlayer, insertOrIgnore. cbn [fst].
  destruct (existsb (sameRow (gameId, text (Messages.trim name))) (players t))
    eqn:Dup.
  - unfold updatePlayerCount. cbn [snd players games waitlist].
    rewrite Dup. cbn [snd players games waitlist].
    rewrite recount_twice. reflexivity.
  - destruct (foreign_keys && negb (gameExists t gameId)) eqn:FK.
    + cbn [snd]. rewrite Dup, FK. reflexivity.
    + unfold updatePlayerCount. cbn [snd players games waitlist].
      rewrite existsb_sameRow_last. cbn [snd players games waitlist].
      rewrite recount_twice. reflexivity.
Qed.

End DatabaseRoundTrips.

Section BotFacts.

Import GameDatabase.

Variable foreign_keys : bool.
Variable text : jsstring -> jsstring.
Variable newRowid : list Game -> Z.
Variable PLAYER_THRESHOLD : option Z.

Lemma handleGameAnnouncement_db (bot : Bot.State) (messageId messageText : jsstring) :
  ascending newRowid ->
  counted (Bot.db bot) -> referential (Bot.db bot) ->
  let bot' := Bot.handleGameAnnouncement foreign_keys text newRowid
                PLAYER_THRESHOLD bot messageId messageText in
  counted (Bot.db bot') /\ referential (Bot.db bot')
  /\ forall j, getPlayerCount (Bot.db bot) j <= getPlayerCount (Bot.db bot') j.
Proof.
  intros Asc C R. unfold Bot.handleGameAnnouncement.
  destruct (Messages.parseGameMessage messageText) as [parsed|];
    [|cbv zeta; repeat split; auto; intros; lia].
  cbv zeta.
  pose proof (upsertGame_spec text newRowid (Bot.db bot)
                (Messages.date (Messages.gameInfo parsed))
                (Messages.time (Messages.gameInfo parsed))
                (Messages.courtName (Messages.gameInfo parsed))
                messageId Asc C R) as U.
  destruct (upsertGame text newRowid (Bot.db bot) _ _ _ messageId)
    as [gameId t1].
  cbv zeta in U. cbn [fst snd] in U.
  destruct U as (Ex1 & C1 & R1 & _ & _ & G1).
  pose proof (addPlayers_spec foreign_keys text gameId
                (Messages.players parsed) t1 Ex1 C1 R1) as A.
  cbv zeta in A.
  set (t2 := fold_left _ (Messages.players parsed) t1) in *.
  destruct A as (C2 & R2 & E2 & M2).
  pose proof (addToWaitlists_same foreign_keys text gameId
                (Messages.waitlist parsed) t2) as W.
  cbv zeta in W.
  set (t3 := fold_left _ (Messages.waitlist parsed) t2) in *.
  destruct W as [G3 P3].
  assert (C3 : counted t3) by (apply (counted_ext t2); assumption).
  assert (R3 : referential t3) by (apply (referential_ext t2); assumption).
  assert (Mono : forall j, getPlayerCount (Bot.db bot) j <= getPlayerCount t3 j).
  { intros j. rewrite <- (G1 j).
    rewrite (getPlayerCount_counted t1 j C1), (getPlayerCount_counted t3 j C3).
    unfold gameExists at 2. rewrite G3. fold (gameExists t2 j).
    rewrite P3, E2.
    destruct (gameExists t1 j); [apply M2 | lia]. }
  destruct (Bot.reached PLAYER_THRESHOLD (getPlayerCount t3 gameId)
            && negb (existsb (Z.eqb gameId) (Bot.alertedGames bot)));
    cbn [Bot.db]; auto.
Qed.

(** X23.  However many announcements arrive, and whatever they say, the
    stored count of every game stays the number of its player rows, no
    player row is left without its game, and the count
    [getPlayerCount] reports for a game never goes down: the bot only
    ever adds players. *)
Theorem announcements_keep_counts (messages : list (jsstring * jsstring)) :
  forall bot : Bot.State,
  ascending newRowid ->
  counted (Bot.db bot) -> referential (Bot.db bot) ->
  counted (Bot.db (Bot.handleAnnouncements foreign_keys text newRowid
                     PLAYER_THRESHOLD bot messages))
  /\ referential (Bot.db (Bot.handleAnnouncements foreign_keys text newRowid
                            PLAYER_THRESHOLD bot messages))
  /\ forall gameId,
       getPlayerCount (Bot.db bot) gameId
       <= getPlayerCount
            (Bot.db (Bot.handleAnnouncements foreign_keys text newRowid
                       PLAYER_THRESHOLD bot messages)) gameId.
Proof.
  unfold Bot.handleAnnouncements.
  induction messages as [|m messages IH]; intros bot Asc C R; cbn [fold_left].
  - repeat split; auto. intros; lia.
  - destruct (handleGameAnnouncement_db bot (fst m) (snd m) Asc C R)
      as (C1 & R1 & M1).
    destruct (IH _ Asc C1 R1) as (C2 & R2 & M2).
    repeat split; auto.
    intros j. specialize (M1 j). specialize (M2 j). lia.
Qed.

Lemma handleGameAnnouncement_alerts (bot : Bot.State)
      (messageId messageText : jsstring) :
  alerts_sound PLAYER_THRESHOLD bot ->
  alerts_sound PLAYER_THRESHOLD (Bot.handleGameAnnouncement foreign_keys text newRowid
                  PLAYER_THRESHOLD bot messageId messageText).
Proof.
  intros [ND A]. unfold Bot.handleGameAnnouncement.
  destruct (Messages.parseGameMessage messageText) as [parsed|];
    [|split; assumption].
  cbv zeta.
  destruct (upsertGame text newRowid (Bot.db bot) _ _ _ messageId)
    as [gameId t1].
  set (t3 := fold_left _ (Messages.waitlist parsed) _).
  destruct (Bot.reached PLAYER_THRESHOLD (getPlayerCount t3 gameId)) eqn:Re;
    cbn [andb]; [|split; assumption].
  destruct (existsb (Z.eqb gameId) (Bot.alertedGames bot)) eqn:Al;
    cbn [negb]; [split; assumption|].
  split; cbn [Bot.alerts Bot.alertedGames].
  - rewrite map_app. cbn [map Bot.alertGame].
    apply NoDup_app; [exact ND | repeat constructor; intros [] | ].
    intros x Hx [<- | []].
    apply in_map_iff in Hx. destruct Hx as (a & Ea & Ha).
    destruct (A a Ha) as [I _]. rewrite Ea in I.
    assert (existsb (Z.eqb gameId) (Bot.alertedGames bot) = true).
    { apply existsb_exists. exists gameId. split; [exact I | apply Z.eqb_refl]. }
    congruence.
  - intros a Ha. apply in_app_or in Ha. destruct Ha as [Ha | [<- | []]].
    + destruct (A a Ha) as [I Rc]. split; [apply in_or_app; left; exact I | exact Rc].
    + cbn [Bot.alertGame Bot.alertCount].
      split; [apply in_or_app; right; left; reflexivity | exact Re].
Qed.

Lemma beginAnnouncement_spec (bot : Bot.State)
      (messageId messageText : jsstring) :
  let begun := Bot.beginAnnouncement foreign_keys text newRowid
                 PLAYER_THRESHOLD bot messageId messageText in
  Bot.alertedGames (fst begun) = Bot.alertedGames bot
  /\ match snd begun with
     | Some gameId =>
         existsb (Z.eqb gameId) (Bot.alertedGames bot) = false
         /\ (exists a, Bot.alerts (fst begun) = Bot.alerts bot ++ [a]
                       /\ Bot.alertGame a = gameId
                       /\ Bot.reached PLAYER_THRESHOLD (Bot.alertCount a)
                          = true)
         /\ Bot.handleGameAnnouncement foreign_keys text newRowid
              PLAYER_THRESHOLD bot messageId messageText
            = Bot.resumeAnnouncement (fst begun) gameId
     | None =>
         Bot.alerts (fst begun) = Bot.alerts bot
         /\ Bot.handleGameAnnouncement foreign_keys text newRowid
              PLAYER_THRESHOLD bot messageId messageText
            = fst begun
     end.
Proof.
  unfold Bot.beginAnnouncement, Bot.handleGameAnnouncement.
  destruct (Messages.parseGameMessage messageText) as [parsed|];
    [|cbn; auto].
  cbv zeta.
  destruct (upsertGame text newRowid (Bot.db bot) _ _ _ messageId)
    as [gameId t1].
  set (t3 := fold_left _ (Messages.waitlist parsed) _).
  destruct (Bot.reached PLAYER_THRESHOLD (getPlayerCount t3 gameId)) eqn:Re;
    cbn [andb]; [|cbn; auto].
  destruct (existsb (Z.eqb gameId) (Bot.alertedGames bot)) eqn:Al;
    cbn [negb]; [cbn; auto|].
  cbn [fst snd Bot.alertedGames Bot.alerts]. split; [reflexivity|].
  split; [exact Al|]. split; [|reflexivity].
  eexists. split; [reflexivity|]. cbn [Bot.alertGame Bot.alertCount]. auto.
Qed.

Lemma alertsFor_app (g : Z) (bot bot' : Bot.State) (a : Bot.Alert) :
  Bot.alerts bot' = Bot.alerts bot ++ [a] ->
  alertsFor g bot'
  = alertsFor g bot ++ (if Bot.alertGame a =? g then [a] else []).
Proof.
  intros H. unfold alertsFor. rewrite H, filter_app. reflexivity.
Qed.

(** One action keeps the counts of the alerts above the threshold, the
    members of [alertedGames], and the alerts of these members. *)
Lemma act_spec (r : Bot.Running) (a : Bot.Action) :
  let r' := Bot.act foreign_keys text newRowid PLAYER_THRESHOLD r a in
  ((forall x, In x (Bot.alerts (Bot.state r)) ->
              Bot.reached PLAYER_THRESHOLD (Bot.alertCount x) = true) ->
   forall x, In x (Bot.alerts (Bot.state r')) ->
             Bot.reached PLAYER_THRESHOLD (Bot.alertCount x) = true)
  /\ forall g, In g (Bot.alertedGames (Bot.state r)) ->
       In g (Bot.alertedGames (Bot.state r'))
       /\ alertsFor g (Bot.state r') = alertsFor g (Bot.state r).
Proof.
  destruct a as [messageId messageText | k]; cbn [Bot.act].
  - pose proof (beginAnnouncement_spec (Bot.state r) messageId messageText)
      as B. cbv zeta in B.
    destruct (Bot.beginAnnouncement foreign_keys text newRowid
                PLAYER_THRESHOLD (Bot.state r) messageId messageText)
      as [bot sent].
    cbn [fst snd] in B. cbv zeta. cbn [Bot.state].
    destruct B as [Same B]. destruct sent as [gameId|].
    + destruct B as (Fresh & (x & Hx & Gx & Rx) & _). split.
      * intros A y Hy. rewrite Hx in Hy. apply in_app_or in Hy.
        destruct Hy as [Hy | [<- | []]]; [exact (A y Hy) | exact Rx].
      * intros g Hg. rewrite Same. split; [exact Hg|].
        rewrite (alertsFor_app g (Bot.state r) bot x Hx).
        destruct (Z.eqb_spec (Bot.alertGame x) g) as [Eq|_];
          [|apply app_nil_r].
        exfalso. rewrite Gx in Eq. subst g.
        assert (existsb (Z.eqb gameId) (Bot.alertedGames (Bot.state r))
                = true)
          by (apply existsb_exists; exists gameId;
              split; [exact Hg | apply Z.eqb_refl]).
        congruence.
    + destruct B as [Hx _]. split.
      * intros A y Hy. rewrite Hx in Hy. exact (A y Hy).
      * intros g Hg. rewrite Same. split; [exact Hg|].
        unfold alertsFor. rewrite Hx. reflexivity.
  - cbv zeta. destruct (nth_error (Bot.suspended r) k) as [gameId|];
      cbn [Bot.state Bot.resumeAnnouncement Bot.alerts Bot.alertedGames].
    + split; [auto|]. intros g Hg.
      split; [apply in_or_app; left; exact Hg | reflexivity].
    + split; auto.
Qed.

Lemma interleave_spec (actions : list Bot.Action) : forall r : Bot.Running,
  let r' := Bot.interleave foreign_keys text newRowid PLAYER_THRESHOLD
              r actions in
  ((forall x, In x (Bot.alerts (Bot.state r)) ->
              Bot.reached PLAYER_THRESHOLD (Bot.alertCount x) = true) ->
   forall x, In x (Bot.alerts (Bot.state r')) ->
             Bot.reached PLAYER_THRESHOLD (Bot.alertCount x) = true)
  /\ forall g, In g (Bot.alertedGames (Bot.state r)) ->
       In g (Bot.alertedGames (Bot.state r'))
       /\ alertsFor g (Bot.state r') = alertsFor g (Bot.state r).
Proof.
  unfold Bot.interleave.
  induction actions as [|a actions IH]; intros r; cbn [fold_left].
  - cbv zeta. split; auto.
  - destruct (act_spec r a) as [A1 G1]. cbv zeta in *.
    destruct (IH (Bot.act foreign_keys text newRowid PLAYER_THRESHOLD r a))
      as [A2 G2].
    split.
    + intros A. exact (A2 (A1 A)).
    + intros g Hg. destruct (G1 g Hg) as [I1 E1].
      destruct (G2 g I1) as [I2 E2]. split; [exact I2|].
      rewrite E2. exact E1.
Qed.

(** X24.  The handlers of announcements that arrive in different
    [messages.upsert] events can overlap: [alertedGames.add] comes after
    the [await] of the alert, where a handler is suspended.  In every
    interleaving of such handlers, from the bot as it starts, an alert
    is sent only with a count that reaches the threshold, and once a
    game is in [alertedGames] no alert is sent for it any more.  A
    handler that resumes before the next one starts does what
    [handleGameAnnouncement] does run to its end, and announcements that
    are handled one after the other alert each game at most once.  Two
    handlers for the same game that both get to the alert before either
    has resumed both send it. *)
Theorem alerts_when_handlers_overlap (t : Tables)
        (actions : list Bot.Action) :
  let run := Bot.interleave foreign_keys text newRowid PLAYER_THRESHOLD
               (Bot.idle (Bot.started t)) actions in
  (forall a, In a (Bot.alerts (Bot.state run)) ->
             Bot.reached PLAYER_THRESHOLD (Bot.alertCount a) = true)
  /\ (forall gameId more,
         In gameId (Bot.alertedGames (Bot.state run)) ->
         alertsFor gameId
           (Bot.state (Bot.interleave foreign_keys text newRowid
                         PLAYER_THRESHOLD run more))
         = alertsFor gameId (Bot.state run))
  /\ (forall bot messageId messageText,
         Bot.state (Bot.interleave foreign_keys text newRowid
                      PLAYER_THRESHOLD (Bot.idle bot)
                      [Bot.Deliver messageId messageText; Bot.Resume 0])
         = Bot.handleGameAnnouncement foreign_keys text newRowid
             PLAYER_THRESHOLD bot messageId messageText)
  /\ (forall messages,
         NoDup (map Bot.alertGame
                  (Bot.alerts
                     (Bot.handleAnnouncements foreign_keys text newRowid
                        PLAYER_THRESHOLD (Bot.started t) messages))))
  /\ (forall messageId messageText messageId' messageText' gameId,
         let first := Bot.beginAnnouncement foreign_keys text newRowid
                        PLAYER_THRESHOLD (Bot.state run)
                        messageId messageText in
         let second := Bot.beginAnnouncement foreign_keys text newRowid
                         PLAYER_THRESHOLD (fst first)
                         messageId' messageText' in
         snd first = Some gameId ->
         snd second = Some gameId ->
         List.length
           (alertsFor gameId
              (Bot.state (Bot.interleave foreign_keys text newRowid
                            PLAYER_THRESHOLD run
                            [Bot.Deliver messageId messageText;
                             Bot.Deliver messageId' messageText'])))
         = (List.length (alertsFor gameId (Bot.state run)) + 2)%nat).
Proof.
  cbv zeta.
  set (run := Bot.interleave foreign_keys text newRowid PLAYER_THRESHOLD
                (Bot.idle (Bot.started t)) actions).
  split; [|split; [|split; [|split]]].
  - destruct (interleave_spec actions (Bot.idle (Bot.started t))) as [A _].
    apply A. intros x [].
  - intros gameId more Hg.
    destruct (interleave_spec more run) as [_ G]. exact (proj2 (G gameId Hg)).
  - intros bot messageId messageText.
    unfold Bot.interleave. cbn [fold_left Bot.act Bot.idle Bot.state
                                Bot.suspended].
    pose proof (beginAnnouncement_spec bot messageId messageText) as B.
    cbv zeta in B.
    destruct (Bot.beginAnnouncement foreign_keys text newRowid
                PLAYER_THRESHOLD bot messageId messageText) as [bot' sent].
    cbn [fst snd] in B. destruct B as [_ B].
    destruct sent as [gameId|]; cbn [app nth_error Bot.state Bot.suspended].
    + destruct B as (_ & _ & ->). reflexivity.
    + destruct B as [_ ->]. reflexivity.
  - intros messages.
    assert (G : forall ms bot,
               alerts_sound PLAYER_THRESHOLD bot ->
               alerts_sound PLAYER_THRESHOLD
                 (Bot.handleAnnouncements foreign_keys text newRowid
                    PLAYER_THRESHOLD bot ms)).
    { unfold Bot.handleAnnouncements.
      induction ms as [|m ms IH]; intros bot I; cbn [fold_left]; [exact I|].
      apply IH. apply handleGameAnnouncement_alerts. exact I. }
    destruct (G messages (Bot.started t)) as [ND _]; [|exact ND].
    split; [constructor | intros a []].
  - intros messageId messageText messageId' messageText' gameId.
    unfold Bot.interleave. cbn [fold_left Bot.act].
    pose proof (beginAnnouncement_spec (Bot.state run) messageId messageText)
      as B1. cbv zeta in B1.
    destruct (Bot.beginAnnouncement foreign_keys text newRowid
                PLAYER_THRESHOLD (Bot.state run) messageId messageText)
      as [bot1 sent1].
    cbn [fst snd Bot.state] in *.
    pose proof (beginAnnouncement_spec bot1 messageId' messageText') as B2.
    cbv zeta in B2.
    destruct (Bot.beginAnnouncement foreign_keys text newRowid
                PLAYER_THRESHOLD bot1 messageId' messageText')
      as [bot2 sent2].
    cbn [fst snd Bot.state] in *.
    intros -> ->. destruct B1 as (_ & _ & (a1 & H1 & G1 & _) & _).
    destruct B2 as (_ & _ & (a2 & H2 & G2 & _) & _).
    rewrite (alertsFor_app gameId bot1 bot2 a2 H2).
    rewrite (alertsFor_app gameId (Bot.state run) bot1 a1 H1).
    rewrite G1, G2, Z.eqb_refl, !length_app. cbn [List.length]. lia.
Qed.


End BotFacts.

(* ================================================================== *)
(** * What the bookers take for the date and the hour *)
(* ================================================================== *)

Section LooseMatches.

Lemma startsWith_app (p post : jsstring) : startsWith (p ++ post) p = true.
Proof.
  induction p as [|a p IH]; cbn [app startsWith].
  - destruct post; reflexivity.
  - unfold char_eqb. rewrite N.eqb_refl. exact IH.
Qed.

Lemma includes_startsWith (s p : jsstring) :
  startsWith s p = true -> includes s p = true.
Proof. intros H. destruct s; cbn [includes]; rewrite H; reflexivity. Qed.

(** A text includes each of its parts. *)
Lemma includes_app (pre p post : jsstring) :
  includes (pre ++ p ++ post) p = true.
Proof.
  induction pre as [|a pre IH]; cbn [app].
  - apply includes_startsWith, startsWith_app.
  - cbn [includes]. rewrite IH. apply orb_true_r.
Qed.

(** X13.  The second booker does not compare the year: a toolbar that shows
    the month and the day of the game date followed by a comma, in
    whatever year, is taken for the game date at once, without a
    click. *)
Theorem navigation_ignores_year (S : Type) (dateText : S -> jsstring)
        (click : BookingV2.Direction -> S -> bool * S)
        (gameDate : Z) (fuel : nat) (s : S) (pre post : jsstring) :
  dateText s
  = pre ++ (monthNameOf gameDate ++ lit " " ++ toString (getDate gameDate)
            ++ lit ",") ++ post ->
  BookingV2._navigateSchedulerToDate dateText click gameDate
    (Datatypes.S fuel) s
  = Some {| BookingV2.confirmed := true; BookingV2.clickFailed := false;
            BookingV2.iterations := 1; BookingV2.clicks := [];
            BookingV2.surface := s |}.
Proof.
  intros H. unfold BookingV2._navigateSchedulerToDate.
  cbn [BookingV2.navigateFrom]. change (0 <? 90) with true. cbv iota zeta.
  replace (BookingV2._dateTextMatches (dateText s)
             (BookingV2._buildDatePatterns gameDate)) with true; [reflexivity|].
  symmetry. unfold BookingV2._dateTextMatches, BookingV2.some,
    BookingV2._buildDatePatterns. cbv zeta. cbn [existsb].
  rewrite H. fold (monthNameOf gameDate).
  rewrite (includes_app pre _ post). rewrite !orb_true_r. reflexivity.
Qed.

Lemma navigation_ignores_year_on_feb_24 :
  lit "Tuesday, February 24, 2026"
  = lit "Tuesday, "
    ++ (monthNameOf (newDate 2027 1 24) ++ lit " "
        ++ toString (getDate (newDate 2027 1 24)) ++ lit ",")
    ++ lit " 2026"
  /\ BookingV2._navigateSchedulerToDate
       (fun _ : unit => lit "Tuesday, February 24, 2026")
       (fun _ s => (true, s)) (newDate 2027 1 24) 1 tt
     = Some {| BookingV2.confirmed := true; BookingV2.clickFailed := false;
               BookingV2.iterations := 1; BookingV2.clicks := [];
               BookingV2.surface := tt |}.
Proof.
  split; [vm_compute; reflexivity|].
  apply (navigation_ignores_year unit
           (fun _ : unit => lit "Tuesday, February 24, 2026")
           (fun _ s => (true, s)) (newDate 2027 1 24) 0 tt
           (lit "Tuesday, ") (lit " 2026")).
  vm_compute. reflexivity.
Defined.

(** X12.  The first booker takes the toolbar to show the game date as soon as
    it holds the month name and the day number one after the other,
    whatever follows: the year is not compared, and neither is the rest
    of a longer day number (February 24 passes for February 2).  It
    also does so as soon as the text holds the day number between two
    spaces, whatever the month.  In both cases the navigation returns at
    once, without a click. *)
Theorem calendar_stops_on_other_dates (S : Type) (dateText : S -> jsstring)
        (clickNext : S -> bool * S)
        (gameDate : Z) (fuel : nat) (s : S) (pre post : jsstring) :
  dateText s
  = pre ++ (monthNameOf gameDate ++ lit " " ++ toString (getDate gameDate))
    ++ post
  \/ dateText s
     = pre ++ (lit " " ++ toString (getDate gameDate) ++ lit " ") ++ post ->
  BookingV1Calendar._openAndNavigateCalendar dateText clickNext gameDate
    (Datatypes.S fuel) s
  = Some {| BookingV2.confirmed := true; BookingV2.clickFailed := false;
            BookingV2.iterations := 1; BookingV2.clicks := [];
            BookingV2.surface := s |}.
Proof.
  intros H. unfold BookingV1Calendar._openAndNavigateCalendar.
  cbn [BookingV1Calendar.calendarFrom]. change (0 <? 60) with true.
  cbv iota zeta.
  replace (BookingV1Calendar.onTargetDate gameDate (dateText s)) with true;
    [reflexivity|].
  symmetry. unfold BookingV1Calendar.onTargetDate. cbv zeta.
  fold (monthNameOf gameDate).
  destruct H as [-> | ->]; rewrite (includes_app pre _ post);
    rewrite ?orb_true_r; reflexivity.
Qed.

Lemma calendar_stops_on_february_24_for_february_2 :
  (lit "Tuesday, February 24, 2026"
   = lit "Tuesday, "
     ++ (monthNameOf (newDate 2026 1 2) ++ lit " "
         ++ toString (getDate (newDate 2026 1 2)))
     ++ lit "4, 2026"
   \/ lit "Tuesday, February 24, 2026"
      = lit "Tuesday, "
        ++ (lit " " ++ toString (getDate (newDate 2026 1 2)) ++ lit " ")
        ++ lit "4, 2026")
  /\ BookingV1Calendar._openAndNavigateCalendar
       (fun _ : unit => lit "Tuesday, February 24, 2026")
       (fun s => (true, s)) (newDate 2026 1 2) 1 tt
     = Some {| BookingV2.confirmed := true; BookingV2.clickFailed := false;
               BookingV2.iterations := 1; BookingV2.clicks := [];
               BookingV2.surface := tt |}.
Proof.
  split; [left; vm_compute; reflexivity|].
  apply (calendar_stops_on_other_dates unit
           (fun _ : unit => lit "Tuesday, February 24, 2026")
           (fun s => (true, s)) (newDate 2026 1 2) 0 tt
           (lit "Tuesday, ") (lit "4, 2026")).
  left. vm_compute. reflexivity.
Defined.

(** X19.  The click loop of the third booker takes a button for the wanted
    hour as soon as its label holds the label of the hour, whatever
    stands before it: asked for 1:00 PM, it clicks a button of the
    11:00 PM row that comes first, when no step of the loop body throws
    on that button, and looks at no button after it.  The status check
    before it reads the same label with word boundaries and does not
    take it for the hour. *)
Theorem click_loop_takes_the_tail_of_an_hour (h : Z) (pre post : jsstring)
        (rest : list BookingV3.ElementHandle) (i : nat) :
  BookingV3.clickLoop h i
    (labelled (pre ++ BookingV3.timeLabel h ++ post) :: rest)
  = {| BookingV3.called := [i]; BookingV3.clicked := [i];
       BookingV3.timeSlotClicked := true; BookingV3.visited := 1 |}
  /\ lit "Reserve Court 1 at 11:00 PM"
     = lit "Reserve Court 1 at 1" ++ BookingV3.timeLabel 13 ++ []
  /\ Page.reserveButtonMatches 13
       {| Page.ariaLabel := lit "Reserve Court 1 at 11:00 PM";
          Page.dataHref := [] |} = false.
Proof.
  split; [|split; vm_compute; reflexivity].
  cbn [BookingV3.clickLoop]. unfold BookingV3.matchesTime, labelled.
  cbn [BookingV3.ariaLabel BookingV3.throwsAt].
  rewrite (includes_app pre _ post). reflexivity.
Qed.

End LooseMatches.

(* ================================================================== *)
(** * The first booker's navigation stops *)
(* ================================================================== *)

Section CalendarStops.

Variable S : Type.
Variable dateText : S -> jsstring.
Variable clickNext : S -> bool * S.
Variable gameDate : Z.

Lemma calendarFrom_returns : forall fuel attempts n log s,
  0 <= attempts <= 60 ->
  (Z.to_nat (60 - attempts) < fuel)%nat ->
  Forall (eq BookingV2.next) log ->
  exists r,
    BookingV1Calendar.calendarFrom dateText clickNext gameDate
      fuel attempts n log s = Some r
    /\ (BookingV2.iterations r <= n + Z.to_nat (60 - attempts))%nat
    /\ (List.length (BookingV2.clicks r)
        <= List.length log + Z.to_nat (60 - attempts))%nat
    /\ Forall (eq BookingV2.next) (BookingV2.clicks r)
    /\ (BookingV2.confirmed r = true ->
        BookingV1Calendar.onTargetDate gameDate
          (dateText (BookingV2.surface r)) = true)
    /\ (BookingV2.confirmed r = false ->
        BookingV2.clickFailed r = false ->
        BookingV2.iterations r = (n + Z.to_nat (60 - attempts))%nat).
Proof.
  induction fuel as [|fuel IH]; intros attempts n log s Ha Hf Hl; [lia|].
  cbn [BookingV1Calendar.calendarFrom]. destruct (attempts <? 60) eqn:Lt.
  - apply Z.ltb_lt in Lt.
    destruct (BookingV1Calendar.onTargetDate gameDate (dateText s)) eqn:Hm.
    + eexists. split; [reflexivity|].
      cbn [BookingV2.iterations BookingV2.confirmed BookingV2.clickFailed
           BookingV2.surface BookingV2.clicks].
      repeat split; try lia; auto; discriminate.
    + destruct (clickNext s) as [[|] s'] eqn:Hc.
      * destruct (IH (attempts + 1) (Datatypes.S n)
                     (log ++ [BookingV2.next]) s')
          as (r & Hr & Hi & Hk & Hn & Hc1 & Hc2); [lia | lia | |].
        { apply Forall_app. split; [exact Hl | repeat constructor]. }
        exists r. split; [exact Hr|].
        rewrite length_app in Hk. cbn [List.length] in Hk.
        replace (n + Z.to_nat (60 - attempts))%nat
          with (Datatypes.S n + Z.to_nat (60 - (attempts + 1)))%nat by lia.
        repeat split; auto; lia.
      * eexists. split; [reflexivity|].
        cbn [BookingV2.iterations BookingV2.confirmed BookingV2.clickFailed
             BookingV2.surface BookingV2.clicks].
        repeat split; try lia; auto; discriminate.
  - apply Z.ltb_ge in Lt. eexists. split; [reflexivity|].
    cbn [BookingV2.iterations BookingV2.confirmed BookingV2.clickFailed
         BookingV2.surface BookingV2.clicks].
    repeat split; try lia; auto; discriminate.
Qed.

(** X11.  Whatever the surface shows and however its clicks behave, the
    navigation of the first booker returns after at most 60 turns of
    its loop and at most 60 clicks, all of them on the forward arrow;
    it reports success only on a toolbar text that passes its date
    test, and when it runs out without a failed click it has made all
    60 turns. *)
Theorem calendar_stops_within_60 (fuel : nat) (s : S) :
  (61 <= fuel)%nat ->
  exists r,
    BookingV1Calendar._openAndNavigateCalendar dateText clickNext gameDate
      fuel s = Some r
    /\ (BookingV2.iterations r <= 60)%nat
    /\ (List.length (BookingV2.clicks r) <= 60)%nat
    /\ Forall (eq BookingV2.next) (BookingV2.clicks r)
    /\ (BookingV2.confirmed r = true ->
        BookingV1Calendar.onTargetDate gameDate
          (dateText (BookingV2.surface r)) = true)
    /\ (BookingV2.confirmed r = false ->
        BookingV2.clickFailed r = false ->
        BookingV2.iterations r = 60%nat).
Proof.
  intros Hf. unfold BookingV1Calendar._openAndNavigateCalendar.
  destruct (calendarFrom_returns fuel 0 O [] s ltac:(lia)
              ltac:(change (Z.to_nat (60 - 0)) with 60%nat; lia)
              (Forall_nil _))
    as (r & Hr & Hi & Hk & Hn & Hc1 & Hc2).
  change (Z.to_nat (60 - 0)) with 60%nat in *. cbn [List.length] in Hk.
  exists r. repeat split; auto.
Qed.

End CalendarStops.

Lemma calendar_stops_on_stuck_surface :
  (61 <= 61)%nat
  /\ exists r,
      BookingV1Calendar._openAndNavigateCalendar
        (fun _ : nat => lit "Loading...") (fun n => (true, Datatypes.S n))
        (newDate 2026 2 6) 61 O = Some r
      /\ BookingV2.iterations r = 60%nat
      /\ List.length (BookingV2.clicks r) = 60%nat.
Proof.
  split; [lia|].
  destruct (calendar_stops_within_60 nat
              (fun _ : nat => lit "Loading...")
              (fun n => (true, Datatypes.S n))
              (newDate 2026 2 6) 61 O (Nat.le_refl 61))
    as (r & H & _).
  exists r. split; [exact H|].
  vm_compute in H. injection H as <-. split; reflexivity.
Defined.

(* ================================================================== *)
(** * The label of the hour, from the parser to the bookers *)
(* ================================================================== *)

Section HourLabels.

(** X4.  A clock hour keeps its numeral through the conversion to 24 hours
    and back to the label, under either marker and with any minutes. *)
Theorem label_of_clock_hour (h : Z) (min : jsstring) :
  1 <= h <= 12 ->
  _to12hLabel (_to24h h (lit "a")) min
  = toString h ++ lit ":" ++ min ++ lit " AM"
  /\ _to12hLabel (_to24h h (lit "p")) min
     = toString h ++ lit ":" ++ min ++ lit " PM".
Proof.
  intros H. unfold _to12hLabel, _to24h.
  replace (str_eqb (lit "a") (lit "a")) with true by reflexivity.
  replace (str_eqb (lit "p") (lit "a")) with false by reflexivity.
  rewrite !Z.geb_leb, !Z.gtb_ltb.
  destruct (Z.eqb_spec h 12) as [-> | N]; [split; reflexivity|].
  destruct (Z.leb_spec 12 h); [lia|].
  destruct (Z.eqb_spec h 0); [lia|].
  destruct (Z.ltb_spec 12 h); [lia|].
  destruct (Z.leb_spec 12 (h + 12)); [|lia].
  destruct (Z.eqb_spec (h + 12) 0); [lia|].
  destruct (Z.ltb_spec 12 (h + 12)); [|lia].
  replace (h + 12 - 12) with h by lia.
  split; reflexivity.
Qed.

Lemma label_of_clock_hour_9_30 :
  1 <= 9 <= 12
  /\ _to12hLabel (_to24h 9 (lit "a")) (lit "30")
     = toString 9 ++ lit ":" ++ lit "30" ++ lit " AM"
  /\ _to12hLabel (_to24h 9 (lit "p")) (lit "30")
     = toString 9 ++ lit ":" ++ lit "30" ++ lit " PM".
Proof.
  split; [lia|]. apply (label_of_clock_hour 9 (lit "30")). lia.
Defined.

Lemma timeLabel_is_to12hLabel (h : Z) (min : jsstring) :
  BookingV2.timeLabel (BookingV2.buildTimeMatchData h min)
  = _to12hLabel h min.
Proof.
  unfold BookingV2.buildTimeMatchData, _to12hLabel.
  cbn [BookingV2.timeLabel]. rewrite <- !app_assoc. reflexivity.
Qed.

(** X14.  The label the second booker looks for on the page is the start
    label the parser displays, for every range that parses. *)
Theorem second_booker_looks_for_startDisplay (s : jsstring) (t : TimeRange) :
  parseTimeRange s = Some t ->
  exists matchData,
    BookingV2._buildTimeMatchData t = Some matchData
    /\ BookingV2.timeLabel matchData = startDisplay t.
Proof.
  intros H.
  destruct (matchData_of_parsed_range s t H) as (p & Hp & _ & Hm).
  unfold parseTimeRange in H. rewrite Hp in H. injection H as <-.
  eexists. split; [exact Hm|].
  rewrite timeLabel_is_to12hLabel. reflexivity.
Qed.

Lemma second_booker_looks_for_9_30 :
  parseTimeRange (lit "9:30-11p") = Some range_9_30_to_11
  /\ exists matchData,
      BookingV2._buildTimeMatchData range_9_30_to_11 = Some matchData
      /\ BookingV2.timeLabel matchData = startDisplay range_9_30_to_11.
Proof.
  split; [vm_compute; reflexivity|].
  apply (second_booker_looks_for_startDisplay (lit "9:30-11p")).
  vm_compute. reflexivity.
Defined.

(** X15.  The first and the third booker build their label from the hour
    alone: for a range that parses, it is the start label the parser
    displays exactly when the range starts on the hour and not in the
    hour after midnight (which they call 0:00 AM). *)
Theorem hour_only_label_of_parsed_range (s : jsstring) (t : TimeRange) :
  parseTimeRange s = Some t ->
  exists p,
    timeParts s = Some p
    /\ startHourOf t = Some (startHour24 p)
    /\ (BookingV3.timeLabel (startHour24 p) = startDisplay t
        <-> startHour24 p <> 0 /\ startMin p = lit "00").
Proof.
  intros H.
  destruct (matchData_of_parsed_range s t H) as (p & Hp & Hh & _).
  exists p. split; [exact Hp|]. split; [exact Hh|].
  destruct (timeParts_fields s p Hp)
    as (m & sh & eh & _ & _ & _ & _ & _ & D2 & _ & B & _).
  unfold parseTimeRange in H. rewrite Hp in H. injection H as <-.
  cbn [render startDisplay].
  unfold BookingV3.timeLabel, _to12hLabel, Page.displayHour, Page.amPm.
  destruct (startMin p) as [|a [|b [|c min]]]; try discriminate D2.
  destruct (startHour24 p =? 0) eqn:E0.
  - apply Z.eqb_eq in E0. rewrite E0. split.
    + intros E. vm_compute in E. discriminate E.
    + intros [N _]. congruence.
  - apply Z.eqb_neq in E0. split.
    + intros E. apply app_inv_head in E. split; [exact E0|].
      cbn in E. injection E. intros. subst. reflexivity.
    + intros [_ E]. cbn in E. injection E. intros. subst. reflexivity.
Qed.

Lemma hour_only_label_of_9_30 :
  parseTimeRange (lit "9:30-11p") = Some range_9_30_to_11
  /\ exists p,
      timeParts (lit "9:30-11p") = Some p
      /\ startHourOf range_9_30_to_11 = Some (startHour24 p)
      /\ (BookingV3.timeLabel (startHour24 p) = startDisplay range_9_30_to_11
          <-> startHour24 p <> 0 /\ startMin p = lit "00").
Proof.
  split; [vm_compute; reflexivity|].
  apply (hour_only_label_of_parsed_range (lit "9:30-11p")).
  vm_compute. reflexivity.
Defined.

(** X18.  Whatever the text, a match of the strict start-time pattern of the
    second booker has its label at the very start or right after a
    character that is no digit: the label of 1:00 PM is not found inside
    11:00 PM. *)
Theorem strict_match_not_after_digit (h : Z) (min text : jsstring) :
  test (BookingV2.strictStartTimeRegex (BookingV2.buildTimeMatchData h min))
       text = true ->
  exists pre w post c,
    text = pre ++ w ++ post
    /\ matches (labelPattern (BookingV2.buildTimeMatchData h min))
               (rev pre) w post [] c
    /\ match rev pre with
       | [] => True
       | x :: _ => is_digit x = false
       end.
Proof.
  unfold test. intros H.
  destruct (search _ [] text) as [st|] eqn:S; [|discriminate]. clear H.
  apply search_sound in S. destruct S as (pre & w & post & -> & M).
  rewrite app_nil_r in M.
  unfold BookingV2.buildTimeMatchData, BookingV2.strictStartTimeRegex in M.
  cbv [seqs] in M.
  inversion M as [| |r1 r2 b w1 w2 a c c1 c2 M1 M2| | | | | | | | |]; subst.
  inversion M2 as [| |r1' r2' b' w3 w4 a' c' c1' c2' M3 M4| | | | | | | | |];
    subst.
  inversion M3; subst.
  assert (C1 : c1' = []).
  { apply (matches_no_groups _ _ _ _ _ _ M1). reflexivity. }
  subst c1'.
  exists (pre ++ w1), w4, post, (caps st). split; [|split].
  - simpl. now rewrite <- !app_assoc.
  - rewrite rev_app_distr. exact M4.
  - rewrite rev_app_distr.
    inversion M1 as [| | |? ? ? ? ? ? ? MB| ? ? ? ? ? ? ? MC| | | | | | |]; subst.
    + inversion MB; subst. cbn [rev app].
      exact I.
    + inversion MC; subst. cbn [rev app].
      match goal with H : negb _ = true |- _ =>
        apply negb_true_iff in H; exact H end.
Qed.

Lemma strict_match_not_after_digit_at_1_pm :
  test (BookingV2.strictStartTimeRegex
          (BookingV2.buildTimeMatchData 13 (lit "00")))
       (lit "Reserve Court 1 at 1:00 PM") = true
  /\ test (BookingV2.strictStartTimeRegex
             (BookingV2.buildTimeMatchData 13 (lit "00")))
          (lit "Reserve Court 1 at 11:00 PM") = false
  /\ exists pre w post c,
      lit "Reserve Court 1 at 1:00 PM" = pre ++ w ++ post
      /\ matches (labelPattern (BookingV2.buildTimeMatchData 13 (lit "00")))
                 (rev pre) w post [] c
      /\ match rev pre with
         | [] => True
         | x :: _ => is_digit x = false
         end.
Proof.
  split; [vm_compute; reflexivity|]. split; [vm_compute; reflexivity|].
  apply (strict_match_not_after_digit 13 (lit "00")).
  vm_compute. reflexivity.
Defined.

End HourLabels.

(* ================================================================== *)
(** * The statements above on particular inputs *)
(* ================================================================== *)

Lemma parseGameAnnouncement_parts_parse_example :
  (exists info, Messages.parseGameAnnouncement announcement = Some info
                /\ Messages.time info = lit "9-11p"
                /\ Messages.date info = lit "2/24")
  /\ (exists range, parseTimeRange (lit "9-11p") = Some range)
  /\ exists month day,
       0 <= month <= 99 /\ 0 <= day <= 99
       /\ forall now,
            formatDateForBooking now (lit "2/24")
            = Some (gameDateFor now month day).
Proof.
  split.
  - eexists. split; [vm_compute; reflexivity|]. split; reflexivity.
  - apply (parseGameAnnouncement_parts_parse announcement
             {| Messages.date := lit "2/24";
                Messages.dayOfWeek := Some (lit "Tuesday");
                Messages.time := lit "9-11p";
                Messages.courtName := Some (lit "FMT Procourt") |}).
    vm_compute. reflexivity.
Defined.

Lemma parseGameMessage_roster_example :
  exists g,
    Messages.parseGameMessage announcement = Some g
    /\ Messages.players g = [lit "Bob"; lit "Alice"]
    /\ Messages.waitlist g = [lit "Carl"]
    /\ Messages.players g
       = filter playerLike
           (beforeWaitlist (tl (Messages.messageLines announcement)))
    /\ Messages.waitlist g
       = filter waitlistLike
           (afterWaitlist (tl (Messages.messageLines announcement)))
    /\ Messages.playerCount g = Z.of_nat (List.length (Messages.players g)).
Proof.
  destruct (Messages.parseGameMessage announcement) as [g|] eqn:E;
    [|vm_compute in E; discriminate E].
  exists g. split; [reflexivity|].
  split; [vm_compute in E; injection E as <-; reflexivity|].
  split; [vm_compute in E; injection E as <-; reflexivity|].
  apply (parseGameMessage_roster announcement g). exact E.
Defined.

Lemma nextRowid_ascending : ascending nextRowid.
Proof.
  unfold ascending, nextRowid. intros gs g.
  induction gs as [|g0 gs IH]; intros H; [destruct H|].
  cbn [fold_right]. destruct H as [-> | H]; [lia|].
  specialize (IH H). lia.
Qed.

Lemma announcements_keep_counts_example :
  ascending nextRowid
  /\ counted noTables /\ referential noTables
  /\ GameDatabase.getPlayerCount
       (Bot.db (Bot.handleAnnouncements true (fun s => s) nextRowid (Some 2)
                  (Bot.started noTables) [(lit "3EB0", announcement)])) 1 = 2
  /\ counted
       (Bot.db (Bot.handleAnnouncements true (fun s => s) nextRowid (Some 2)
                  (Bot.started noTables) [(lit "3EB0", announcement)]))
  /\ referential
       (Bot.db (Bot.handleAnnouncements true (fun s => s) nextRowid (Some 2)
                  (Bot.started noTables) [(lit "3EB0", announcement)]))
  /\ forall gameId,
       GameDatabase.getPlayerCount (Bot.db (Bot.started noTables)) gameId
       <= GameDatabase.getPlayerCount
            (Bot.db (Bot.handleAnnouncements true (fun s => s) nextRowid
                       (Some 2) (Bot.started noTables)
                       [(lit "3EB0", announcement)])) gameId.
Proof.
  assert (C : counted noTables) by (intros g []).
  assert (R : referential noTables) by (intros r []).
  split; [exact nextRowid_ascending|]. split; [exact C|]. split; [exact R|].
  split; [vm_compute; reflexivity|].
  apply (announcements_keep_counts true (fun s => s) nextRowid (Some 2)
           [(lit "3EB0", announcement)] (Bot.started noTables)
           nextRowid_ascending C R).
Defined.

(** The announcement of message 3EB0 delivered twice, with a threshold
    of 2.  When the second delivery arrives while the handler of the
    first is suspended at its alert, the alert of game 1 goes out twice;
    handled one after the other they send it once. *)
Lemma alerts_twice_when_handlers_overlap :
  map Bot.alertGame
      (Bot.alerts
         (Bot.state
            (Bot.interleave true (fun s => s) nextRowid (Some 2)
               (Bot.idle (Bot.started noTables))
               [Bot.Deliver (lit "3EB0") announcement;
                Bot.Deliver (lit "3EB0") announcement;
                Bot.Resume 0; Bot.Resume 0])))
  = [1; 1]
  /\ map Bot.alertGame
       (Bot.alerts
          (Bot.handleAnnouncements true (fun s => s) nextRowid (Some 2)
             (Bot.started noTables)
             [(lit "3EB0", announcement); (lit "3EB0", announcement)]))
     = [1]
  /\ List.length
       (alertsFor 1
          (Bot.state
             (Bot.interleave true (fun s => s) nextRowid (Some 2)
                (Bot.interleave true (fun s => s) nextRowid (Some 2)
                   (Bot.idle (Bot.started noTables)) [])
                [Bot.Deliver (lit "3EB0") announcement;
                 Bot.Deliver (lit "3EB0") announcement])))
     = (List.length
          (alertsFor 1
             (Bot.state
                (Bot.interleave true (fun s => s) nextRowid (Some 2%Z)
                   (Bot.idle (Bot.started noTables)) []))) + 2)%nat.
Proof.
  split; [vm_compute; reflexivity|]. split; [vm_compute; reflexivity|].
  destruct (alerts_when_handlers_overlap true (fun s => s) nextRowid
              (Some 2) noTables []) as (_ & _ & _ & _ & Twice).
  apply (Twice (lit "3EB0") announcement (lit "3EB0") announcement 1);
    vm_compute; reflexivity.
Defined.

(** The theorem on a database that enforces foreign keys and holds game
    1 with Bob: Alice is added, the count goes from 1 to 2, and adding
    her again under a padded name changes nothing. *)
Lemma addPlayer_again_example :
  Messages.trim (lit "  Alice ") = Messages.trim (lit "Alice")
  /\ GameDatabase.getPlayerCount gameWithBob 1 = 1
  /\ fst (GameDatabase.addPlayer true (fun s => s) gameWithBob 1 (lit "Alice"))
     = true
  /\ GameDatabase.getPlayerCount
       (snd (GameDatabase.addPlayer true (fun s => s) gameWithBob 1
               (lit "Alice"))) 1 = 2
  /\ GameDatabase.addPlayer true (fun s => s)
       (snd (GameDatabase.addPlayer true (fun s => s) gameWithBob 1
               (lit "Alice")))
       1 (lit "  Alice ")
     = GameDatabase.addPlayer true (fun s => s) gameWithBob 1 (lit "Alice").
Proof.
  split; [vm_compute; reflexivity|].
  split; [vm_compute; reflexivity|].
  split; [vm_compute; reflexivity|].
  split; [vm_compute; reflexivity|].
  apply (addPlayer_again true (fun s => s) gameWithBob 1 (lit "Alice")
           (lit "  Alice ")).
  vm_compute. reflexivity.
Defined.

Lemma row_marks_its_own_hour_at_9_pm :
  0 <= 21 <= 23 /\ 0 <= 22 <= 23
  /\ BookingV2._unavailableMatchesTime
       (markerInRow 21) (BookingV2.buildTimeMatchData 22 (lit "00"))
     = (22 =? 21).
Proof.
  split; [lia|]. split; [lia|].
  apply (row_marks_its_own_hour 21 22); lia.
Defined.

Lemma strict_match_never_follows_to_on_rangeLabel :
  test (BookingV2.strictStartTimeRegex
          (BookingV2.buildTimeMatchData 21 (lit "00"))) rangeLabel = true
  /\ exists pre w post c,
      rangeLabel = pre ++ w ++ post
      /\ matches (labelPattern (BookingV2.buildTimeMatchData 21 (lit "00")))
                 (rev pre) w post [] c
      /\ behind [is_space; ci (ch "o"); ci (ch "t")] (rev pre) = false.
Proof.
  split; [vm_compute; reflexivity|].
  apply (strict_match_never_follows_to 21 (lit "00") rangeLabel).
  vm_compute. reflexivity.
Defined.

Lemma parseTimeRange_two_markers_null_at_11a_1p :
  1 <= 11 <= 12 /\ 1 <= 1 <= 12
  /\ In "a"%string ["a"; "p"; "am"; "pm"]%string
  /\ In "pm"%string ["a"; "p"; "am"; "pm"]%string
  /\ parseTimeRange (toString 11 ++ lit "a" ++ lit "-" ++ toString 1 ++ lit "pm")
     = None.
Proof.
  assert (I1 : In "a"%string ["a"; "p"; "am"; "pm"]%string)
    by (left; reflexivity).
  assert (I2 : In "pm"%string ["a"; "p"; "am"; "pm"]%string)
    by (right; right; right; left; reflexivity).
  split; [lia|]. split; [lia|]. split; [exact I1|]. split; [exact I2|].
  apply (parseTimeRange_two_markers_null 11 1 "a" "pm"); [lia | lia | exact I1 | exact I2].
Defined.

Lemma retry_initialize_throws_when_launch_fails :
  neverChecks (Some 1%nat) O = (inl (lit "Timeout 30000ms exceeded"), 1%nat)
  /\ noLaunch 1%nat
     = (inl (lit "browserType.launch: Executable does not exist"), 1%nat)
  /\ exists w',
      BookingV3.retrying noLaunch (fun _ n => (inr tt, n)) (fun _ n => n)
        neverChecks BookingV3.checkFailure 2
        {| BookingV3.browser := Some 1%nat; BookingV3.env := O;
           BookingV3.trace := [] |}
      = Some (inr (Some (BookingV3.checkFailure
                           (lit "browserType.launch: Executable does not exist"))),
              w')
      /\ attemptsIn (BookingV3.trace w') = (attemptsIn [] + 1)%nat.
Proof.
  split; [reflexivity|]. split; [reflexivity|].
  apply (retry_initialize_throws nat Availability.Outcome noLaunch
           (fun _ n => (inr tt, n)) (fun _ n => n) neverChecks
           BookingV3.checkFailure 0 1%nat O []
           (lit "Timeout 30000ms exceeded") 1%nat eq_refl
           (lit "browserType.launch: Executable does not exist") 1%nat).
  left. reflexivity.
Defined.

(* ================================================================== *)
(** * Removing a player, and recognising an announcement *)
(* ================================================================== *)

Section MoreRoundTrips.

Import GameDatabase.

Variable foreign_keys : bool.
Variable text : jsstring -> jsstring.

Lemma filter_keeps_others (row : Z * jsstring) (rows : list (Z * jsstring)) :
  existsb (sameRow row) rows = false ->
  filter (fun r => negb (sameRow row r)) (rows ++ [row]) = rows.
Proof.
  intros H. rewrite filter_app. cbn [filter].
  replace (sameRow row row) with true.
  2:{ unfold sameRow. rewrite Z.eqb_refl, str_eqb_refl. reflexivity. }
  cbn [negb]. rewrite app_nil_r.
  induction rows as [|r rows IH]; [reflexivity|].
  cbn [existsb] in H. apply orb_false_elim in H. destruct H as [Hr Hrows].
  cbn [filter]. rewrite Hr. cbn [negb]. rewrite (IH Hrows). reflexivity.
Qed.

Lemma withCount_same (g : Game) (c : Z) :
  withCount (withCount g c) (player_count g) = g.
Proof. destruct g; reflexivity. Qed.

(** X26.  Removing a player who has just been added, and was not there
    before, gives back the database as it was, provided the stored
    count of the game was the number of its player rows. *)
Theorem removePlayer_undoes_addPlayer (t : Tables) (gameId : Z)
        (name : jsstring) :
  existsb (sameRow (gameId, text (Messages.trim name))) (players t) = false ->
  (forall g, In g (games t) -> id g = gameId ->
             player_count g = countPlayers (players t) gameId) ->
  fst (addPlayer foreign_keys text t gameId name) = true ->
  removePlayer text (snd (addPlayer foreign_keys text t gameId name))
               gameId name
  = t.
Proof.
  intros New C Ok. destruct t as [gs ps ws].
  unfold addPlayer, insertOrIgnore in *. cbn [players games waitlist fst] in *.
  rewrite New in *.
  destruct (foreign_keys && negb (gameExists _ gameId));
    [discriminate Ok|].
  unfold removePlayer, updatePlayerCount.
  cbn [snd players games waitlist].
  rewrite (filter_keeps_others _ ps New). f_equal.
  rewrite map_map. rewrite <- (map_id gs) at 2.
  apply map_ext_in. intros g Hg.
  destruct (id g =? gameId) eqn:E.
  - cbn [withCount id]. rewrite E.
    apply Z.eqb_eq in E. rewrite <- (C g Hg E). apply withCount_same.
  - rewrite E. reflexivity.
Qed.

End MoreRoundTrips.

(** The theorem on a database that enforces foreign keys and holds game
    1 with Bob, whose stored count is 1: Alice is added, the count is 2,
    and removing her gives the database back. *)
Lemma removePlayer_undoes_addPlayer_example :
  existsb (GameDatabase.sameRow (1, Messages.trim (lit " Alice ")))
          (GameDatabase.players gameWithBob) = false
  /\ (forall g, In g (GameDatabase.games gameWithBob) ->
                GameDatabase.id g = 1 ->
                GameDatabase.player_count g
                = GameDatabase.countPlayers (GameDatabase.players gameWithBob)
                                            1)
  /\ GameDatabase.getPlayerCount gameWithBob 1 = 1
  /\ fst (GameDatabase.addPlayer true (fun s => s) gameWithBob 1
            (lit " Alice "))
     = true
  /\ GameDatabase.getPlayerCount
       (snd (GameDatabase.addPlayer true (fun s => s) gameWithBob 1
               (lit " Alice "))) 1 = 2
  /\ GameDatabase.removePlayer (fun s => s)
       (snd (GameDatabase.addPlayer true (fun s => s) gameWithBob 1
               (lit " Alice "))) 1 (lit " Alice ")
     = gameWithBob.
Proof.
  assert (C : forall g, In g (GameDatabase.games gameWithBob) ->
                        GameDatabase.id g = 1 ->
                        GameDatabase.player_count g
                        = GameDatabase.countPlayers
                            (GameDatabase.players gameWithBob) 1).
  { intros g H _. vm_compute in H. destruct H as [<- | []].
    vm_compute. reflexivity. }
  split; [vm_compute; reflexivity|]. split; [exact C|].
  split; [vm_compute; reflexivity|].
  split; [vm_compute; reflexivity|].
  split; [vm_compute; reflexivity|].
  apply (removePlayer_undoes_addPlayer true (fun s => s) gameWithBob 1
           (lit " Alice ")).
  - vm_compute. reflexivity.
  - exact C.
  - vm_compute. reflexivity.
Defined.

Section Recognition.

Import Messages.

Lemma ci_above_letters (a x : char) :
  (122 < a)%N -> ci a x = true -> x = a.
Proof.
  unfold ci, char_eqb, fold_case, is_lower. intros Ha H.
  apply N.eqb_eq in H.
  destruct ((97 <=? a)%N && (a <=? 122)%N) eqn:Ea.
  { apply andb_prop in Ea as [_ E2]. apply N.leb_le in E2. lia. }
  destruct ((97 <=? x)%N && (x <=? 122)%N) eqn:Ex; [|exact H].
  apply andb_prop in Ex as [E1 E2]. apply N.leb_le in E1, E2. lia.
Qed.

(** X27.  Every message the announcement pattern matches passes the
    test [isGameAnnouncement] that [handleMessage] makes before it hands
    a message to the announcement handler. *)
Theorem matched_announcement_is_recognised (messageText : jsstring)
        (m : captures) :
  exec gameAnnouncementPattern messageText = Some m ->
  isGameAnnouncement messageText = true.
Proof.
  intros E. apply exec_sound in E. destruct E as (pre & w & a & -> & M).
  unfold gameAnnouncementPattern, seqs in M.
  inversion M as [| |r1 r2 b w1 w2 a' c c1 c2 M1 M2| | | | | | | | |]; subst.
  unfold siren in M1. cbn [Str] in M1.
  inversion M1 as [| |? ? ? u1 u2 ? ? ? ? N1 N2| | | | | | | | |]; subst.
  inversion N1; subst.
  inversion N2 as [| |? ? ? v1 v2 ? ? ? ? O1 O2| | | | | | | | |]; subst.
  inversion O1; subst. inversion O2; subst.
  repeat match goal with
         | H : ci _ _ = true |- _ =>
             apply ci_above_letters in H; [subst | reflexivity]
         end.
  unfold isGameAnnouncement. apply orb_true_iff. right.
  change (([55357%N] ++ [57000%N] ++ []) ++ w2) with (siren ++ w2).
  rewrite <- (app_assoc siren w2 a).
  exact (includes_app pre siren (w2 ++ a)).
Qed.

End Recognition.

Lemma matched_announcement_is_recognised_example :
  (exists m, exec Messages.gameAnnouncementPattern announcement = Some m)
  /\ Messages.isGameAnnouncement announcement = true.
Proof.
  destruct (exec Messages.gameAnnouncementPattern announcement) as [m|] eqn:E;
    [|vm_compute in E; discriminate E].
  split; [exists m; reflexivity|].
  exact (matched_announcement_is_recognised announcement m E).
Defined.
